(** * RHODL ratio pipeline: a shallow embedding of [scripts/rhodl_ratio_raw_data.py]

    The script fetches a JSON document, normalises its rows into dated
    records, saves them as JSON and synchronises columns A and B of a
    worksheet.  Every function of the script is embedded below as a Rocq
    function; exceptions are the [Raise] branch of [result], the worksheet
    and the HTTP endpoint are explicit states. *)

From Stdlib Require Import ZArith QArith Qround String Ascii List Lia Bool.
From Stdlib Require Import DecimalString DecimalZ.
From Stdlib Require DecimalFacts.
From Stdlib Require Import SpecFloat Sorted Permutation.
From stdpp Require Import base option list strings gmap.

Local Open Scope string_scope.
Local Open Scope Z_scope.

(** ** Python values and exceptions *)

(** Python's [float] is IEEE binary64, and a float is an object.  Which
    object it is shows for a NaN only: a list or a dict equals another
    when each item is the same object as its counterpart or [==] to it,
    and a NaN is [==] to nothing.  The [json] module keeps one NaN object
    and returns it for every [NaN] it reads; any other NaN object is
    named by a number. *)
Inductive nan_object : Type :=
| json_NaN
| NaN_object (n : N).

Inductive float : Type :=
| F754_zero (s : bool)
| F754_infinity (s : bool)
| F754_nan (o : nan_object)
| F754_finite (s : bool) (m : positive) (e : Z).

(** The number a float holds. *)
Definition float_value (f : float) : spec_float :=
  match f with
  | F754_zero s => S754_zero s
  | F754_infinity s => S754_infinity s
  | F754_nan _ => S754_nan
  | F754_finite s m e => S754_finite s m e
  end.

(** The float object of a computed number; [o] is the object when the
    number is a NaN. *)
Definition float_of_spec (o : nan_object) (x : spec_float) : float :=
  match x with
  | S754_zero s => F754_zero s
  | S754_infinity s => F754_infinity s
  | S754_nan => F754_nan o
  | S754_finite s m e => F754_finite s m e
  end.

(** [float(z)] of an [int], rounded to nearest even; no [int] rounds to
    a NaN. *)
Definition float_of_Z (z : Z) : float :=
  float_of_spec (NaN_object 0) (binary_normalize 53 1024 z 0 false).
Definition float_zero : float := F754_zero false.

(** [f == g] on two floats: equality of the numbers. *)
Definition float_eqb (f g : float) : bool := SFeqb (float_value f) (float_value g).

(** [a is b] on two NaN objects. *)
Definition same_object (a b : nan_object) : bool :=
  match a, b with
  | json_NaN, json_NaN => true
  | NaN_object n, NaN_object m => (n =? m)%N
  | _, _ => false
  end.

(** Neither a NaN nor an infinity. *)
Definition is_finite (f : float) : bool :=
  match f with
  | F754_zero _ | F754_finite _ _ _ => true
  | F754_infinity _ | F754_nan _ => false
  end.

(** What [json] hands to the script: [None], [bool], [int], [float],
    [str], [list] and [dict] (string keys, in insertion order). *)
#[warnings="-register-all"]
Inductive pyval : Type :=
| PNone
| PBool (b : bool)
| PInt (z : Z)
| PFloat (f : float)
| PStr (s : string)
| PList (l : list pyval)
| PDict (d : list (string * pyval)).

Inductive exn : Type :=
| KeyError (key : string)
| TypeError
| ValueError
| OverflowError
| DateRangeError
| AttributeError
| APIError (msg : string)
| OSError (msg : string)
| RequestException (msg : string)
| InvalidJSONError
| SystemExit (msg : string).

Inductive result (A : Type) : Type :=
| Ok (a : A)
| Raise (e : exn).
Arguments Ok {A} a.
Arguments Raise {A} e.

#[global] Instance result_ret : MRet result := fun A a => Ok a.
#[global] Instance result_bind : MBind result := fun A B f m =>
  match m with
  | Ok a => f a
  | Raise e => Raise e
  end.

Definition returns {A} (m : result A) : Prop := exists a, m = Ok a.

(** The parts of the interpreter the script relies on and that are not
    arithmetic: the literal grammars of [int(str)] and [float(str)]
    ([None] is a [ValueError]), [repr] of a finite float, [str] of a
    value, and the UTC offset in seconds of the machine's local time zone
    at an epoch second.  A [str] is held as its UTF-8 bytes.  A NaN that
    [float(str)] makes is an object of its own, never the one of [json];
    CPython makes a new one at each call, here it is named per string,
    which no statement below depends on. *)
Class PyRuntime : Type := {
  int_of_str : string -> option Z;
  float_of_str : string -> option float;
  float_repr : float -> string;
  str_of : pyval -> string;
  local_utcoffset : Z -> Z
}.

(** [repr] of an [int]: its decimal digits. *)
Definition int_repr (z : Z) : string := NilZero.string_of_int (Z.to_int z).

(** [d.get(k)] on an insertion-ordered dict. *)
Fixpoint dict_lookup {V} (k : string) (d : list (string * V)) : option V :=
  match d with
  | [] => None
  | (k', v) :: d' => if String.eqb k' k then Some v else dict_lookup k d'
  end.

(** [row[k]]: only a dict can be indexed by a string. *)
Definition py_getitem (row : pyval) (k : string) : result pyval :=
  match row with
  | PDict d =>
      match dict_lookup k d with
      | Some v => Ok v
      | None => Raise (KeyError k)
      end
  | _ => Raise TypeError
  end.

(** [row.get(k, default)]. *)
Definition py_get (row : pyval) (k : string) (default : pyval) : result pyval :=
  match row with
  | PDict d =>
      match dict_lookup k d with
      | Some v => Ok v
      | None => Ok default
      end
  | _ => Raise AttributeError
  end.

(** Truncation towards zero of a finite float [(-1)^s * m * 2^e]. *)
Definition float_trunc (s : bool) (m : positive) (e : Z) : Z :=
  let a := if 0 <=? e then Z.pos m * 2 ^ e else Z.pos m / 2 ^ (- e) in
  if s then - a else a.

Section Conversions.
Context {RT : PyRuntime}.

(** [int(v)]. *)
Definition py_int (v : pyval) : result Z :=
  match v with
  | PInt z => Ok z
  | PBool b => Ok (if b then 1 else 0)
  | PFloat (F754_zero _) => Ok 0
  | PFloat (F754_finite s m e) => Ok (float_trunc s m e)
  | PFloat (F754_infinity _) => Raise OverflowError
  | PFloat (F754_nan _) => Raise ValueError
  | PStr s =>
      match int_of_str s with
      | Some z => Ok z
      | None => Raise ValueError
      end
  | PNone | PList _ | PDict _ => Raise TypeError
  end.

(** [float(v)]; a float is returned as the object it is. *)
Definition py_float (v : pyval) : result float :=
  match v with
  | PFloat f => Ok f
  | PInt z =>
      match float_of_Z z with
      | F754_infinity _ => Raise OverflowError
      | f => Ok f
      end
  | PBool b => Ok (float_of_Z (if b then 1 else 0))
  | PStr s =>
      match float_of_str s with
      | Some f => Ok f
      | None => Raise ValueError
      end
  | PNone | PList _ | PDict _ => Raise TypeError
  end.
End Conversions.

(** ** Dates *)

Record date : Type := { year : Z; month : Z; day : Z }.
Record datetime : Type := { dt_date : date; dt_usec : Z }.

(** [timezone(timedelta(seconds=offset))]; [timezone.utc] has offset 0. *)
Inductive tzinfo : Type := timezone (offset : Z).
Definition timezone_utc : tzinfo := timezone 0.

Definition DI400Y : Z := 146097.
Definition DI100Y : Z := 36524.
Definition DI4Y : Z := 1461.
Definition EPOCH_ORDINAL : Z := 719163.
Definition MAXORDINAL : Z := 3652059.

Definition DAYS_BEFORE_MONTH (m : Z) : Z :=
  nth (Z.to_nat m) [0; 0; 31; 59; 90; 120; 151; 181; 212; 243; 273; 304; 334] 0.
Definition DAYS_IN_MONTH (m : Z) : Z :=
  nth (Z.to_nat m) [0; 31; 28; 31; 30; 31; 30; 31; 31; 30; 31; 30; 31] 0.

(** Proleptic Gregorian ordinal (1 is 0001-01-01) to year, month, day:
    the conversion behind [datetime.date]. *)
Definition ord2ymd (ordinal : Z) : date :=
  let n := ordinal - 1 in
  let n400 := n / DI400Y in
  let n := n mod DI400Y in
  let n100 := n / DI100Y in
  let n := n mod DI100Y in
  let n4 := n / DI4Y in
  let n := n mod DI4Y in
  let n1 := n / 365 in
  let n := n mod 365 in
  let y := n400 * 400 + 1 + n100 * 100 + n4 * 4 + n1 in
  if (n1 =? 4) || (n100 =? 4) then {| year := y - 1; month := 12; day := 31 |}
  else
    let leapyear := (n1 =? 3) && (negb (n4 =? 24) || (n100 =? 3)) in
    let m := (n + 50) / 32 in
    let preceding := DAYS_BEFORE_MONTH m + (if (2 <? m) && leapyear then 1 else 0) in
    if n <? preceding then
      let m' := m - 1 in
      let preceding' :=
        preceding - (DAYS_IN_MONTH m' + (if (m' =? 2) && leapyear then 1 else 0)) in
      {| year := y; month := m'; day := n - preceding' + 1 |}
    else {| year := y; month := m; day := n - preceding + 1 |}.

Definition digit (n : Z) : ascii := ascii_of_nat (48 + Z.to_nat (n mod 10)).
Definition pad2 (n : Z) : string :=
  String (digit (n / 10)) (String (digit n) "").
Definition pad4 (n : Z) : string :=
  String (digit (n / 1000)) (String (digit (n / 100)) (pad2 n)).

(** [date.isoformat()]: ["%04d-%02d-%02d"]. *)
Definition isoformat (d : date) : string :=
  pad4 (year d) ++ "-" ++ pad2 (month d) ++ "-" ++ pad2 (day d).

(** [a / b] on integers.  Python rounds the quotient to binary64; the
    model keeps the exact quotient.  On the timestamps [fromtimestamp]
    accepts the two differ by less than 2^-15 s, day boundaries are whole
    numbers of seconds (held exactly), and millisecond inputs lie at
    least 10^-3 s from the next boundary, so the calendar day is the same. *)
Definition py_truediv (a b : Z) : Q := (inject_Z a / inject_Z b)%Q.

(** Rounding to the nearest integer, ties to even. *)
Definition round_half_even (q : Q) : Z :=
  let fl := Qfloor q in
  match Qcompare (q - inject_Z fl) (1 # 2) with
  | Lt => fl
  | Gt => fl + 1
  | Eq => if Z.even fl then fl else fl + 1
  end.

Definition US_PER_DAY : Z := 86400 * 1000000.

Section Clock.
Context {RT : PyRuntime}.

(** [datetime.fromtimestamp(t, tz)]: [t] seconds since the epoch, rounded
    to the microsecond; local time when [tz] is [None]; an error outside
    years 1..9999. *)
Definition fromtimestamp (t : Q) (tz : option tzinfo) : result datetime :=
  let us := round_half_even (t * inject_Z 1000000)%Q in
  let off :=
    match tz with
    | None => local_utcoffset (us / 1000000)
    | Some (timezone o) => o
    end in
  let us' := us + off * 1000000 in
  let ordinal := EPOCH_ORDINAL + us' / US_PER_DAY in
  if (1 <=? ordinal) && (ordinal <=? MAXORDINAL) then
    Ok {| dt_date := ord2ymd ordinal; dt_usec := us' mod US_PER_DAY |}
  else Raise DateRangeError.
End Clock.

(** ** normalize *)

(** The dict [{date, rhodl_ratio, price, timestamp_ms}] built per row. *)
Record record : Type := {
  rec_date : string;
  rhodl_ratio : float;
  price : float;
  timestamp_ms : Z
}.

(** [list.sort(key=lambda x: x["date"])]: stable, ascending by [str]
    order.  An element goes in front of the first one whose key is not
    smaller, which keeps equal keys in their original order. *)
Fixpoint insert_by_date (r : record) (l : list record) : list record :=
  match l with
  | [] => [r]
  | x :: l' =>
      if String.leb (rec_date r) (rec_date x) then r :: l
      else x :: insert_by_date r l'
  end.

Definition sort_by_date (l : list record) : list record :=
  foldr insert_by_date [] l.

(** [d[k] = v] on an insertion-ordered dict: an existing key keeps its
    position and takes the new value, a new key goes last. *)
Fixpoint dict_setitem {V} (k : string) (v : V) (d : list (string * V))
  : list (string * V) :=
  match d with
  | [] => [(k, v)]
  | (k', v') :: d' =>
      if String.eqb k' k then (k', v) :: d'
      else (k', v') :: dict_setitem k v d'
  end.

(** [{rec["date"]: rec for rec in out}]: one [d[rec["date"]] = rec] per
    element, in list order. *)
Definition dict_step (d : list (string * record)) (r : record)
  : list (string * record) :=
  dict_setitem (rec_date r) r d.

Definition dict_by_date (out : list record) : list (string * record) :=
  fold_left dict_step out [].

Definition dict_values {V} (d : list (string * V)) : list V := map snd d.

Section Normalize.
Context {RT : PyRuntime}.

(** The body of the [for row in records] loop. *)
Definition row_to_record (row : pyval) : result record :=
  ts ← py_getitem row "timestamp";
  ts_ms ← py_int ts;
  dt ← fromtimestamp (py_truediv ts_ms 1000) (Some timezone_utc);
  let date_utc := dt_date dt in
  ratio ← py_getitem row "rhodl_ratio";
  ratio ← py_float ratio;
  p ← py_get row "price" (PFloat float_zero);
  p ← py_float p;
  Ok {| rec_date := isoformat date_utc;
        rhodl_ratio := ratio;
        price := p;
        timestamp_ms := ts_ms |}.

(** The loop: the first exception leaves it. *)
Fixpoint rows_to_records (records : list pyval) : result (list record) :=
  match records with
  | [] => Ok []
  | row :: rest =>
      r ← row_to_record row;
      out ← rows_to_records rest;
      Ok (r :: out)
  end.

Definition normalize (records : list pyval) : result (list record) :=
  out ← rows_to_records records;
  Ok (dict_values (dict_by_date (sort_by_date out))).
End Normalize.

(** ** Effects: a state that survives an exception *)

Definition io (S A : Type) : Type := S -> result A * S.

Definition io_ret {S A} (a : A) : io S A := fun s => (Ok a, s).
Definition io_raise {S A} (e : exn) : io S A := fun s => (Raise e, s).
Definition io_bind {S A B} (m : io S A) (f : A -> io S B) : io S B :=
  fun s =>
    match m s with
    | (Ok a, s') => f a s'
    | (Raise e, s') => (Raise e, s')
    end.

#[global] Instance io_mret {S} : MRet (io S) := fun A a => io_ret a.
#[global] Instance io_mbind {S} : MBind (io S) := fun A B f m => io_bind m f.

(** ** fetch_rhodl_json *)

Definition API_URL : string :=
  "https://open-api-v4.coinglass.com/api/index/bitcoin-rhodl-ratio".

(** What one GET comes to, seen from the [try] block: [requests.get]
    raises, [raise_for_status] raises, [r.json()] raises, or [r.json()]
    returns the parsed document.  The three failures are all
    [requests.RequestException]s; [err] is the text of [str(e)]. *)
Inductive reply : Type :=
| ConnectionFailed (err : string)
| BadStatus (err : string)
| BadBody (err : string)
| Document (doc : pyval).

Inductive event : Type :=
| EvGet (url : string) (headers : list (string * string)) (timeout : Z)
| EvSleep (seconds : Q).

(** The endpoint answers the [n]-th request of the run with [endpoint n];
    [sent] counts the requests made, [trace] lists what happened. *)
Record net : Type := {
  endpoint : nat -> reply;
  sent : nat;
  trace : list event
}.

Definition log_event (ev : event) (n : net) : net :=
  {| endpoint := endpoint n; sent := sent n; trace := trace n ++ [ev] |}.

Definition count_request (ev : event) (n : net) : net :=
  {| endpoint := endpoint n; sent := S (sent n); trace := trace n ++ [ev] |}.

(** [r = requests.get(...); r.raise_for_status(); return r.json()]. *)
Definition get_json (url : string) (headers : list (string * string)) (timeout : Z)
  : io net pyval :=
  fun n =>
    let n' := count_request (EvGet url headers timeout) n in
    match endpoint n (sent n) with
    | ConnectionFailed err | BadStatus err | BadBody err =>
        (Raise (RequestException err), n')
    | Document doc => (Ok doc, n')
    end.

(** [time.sleep(seconds)]. *)
Definition sleep (seconds : Q) : io net unit :=
  fun n => (Ok tt, log_event (EvSleep seconds) n).

(** [str(last_err)]. *)
Definition str_of_last_err (last_err : option string) : string :=
  match last_err with
  | Some err => err
  | None => "None"
  end.

(** [range(a, b)]. *)
Definition py_range (a b : Z) : list Z :=
  map (fun i => a + Z.of_nat i) (seq 0 (Z.to_nat (b - a))).

(** The [for attempt in ...] loop of [fetch_rhodl_json] and the
    [raise SystemExit] after it. *)
Fixpoint fetch_attempts (headers : list (string * string)) (max_retries timeout : Z)
    (attempts : list Z) (last_err : option string) : io net pyval :=
  match attempts with
  | [] =>
      io_raise (SystemExit ("ERROR: API request failed after " ++ int_repr max_retries
                            ++ " attempts: " ++ str_of_last_err last_err))
  | attempt :: rest =>
      fun n =>
        match get_json API_URL headers timeout n with
        | (Ok doc, n') => (Ok doc, n')
        | (Raise (RequestException e), n') =>
            let last_err := Some e in
            (if attempt <? max_retries
             then sleep ((15 # 10) * inject_Z attempt)%Q ;;
                  fetch_attempts headers max_retries timeout rest last_err
             else fetch_attempts headers max_retries timeout rest last_err) n'
        | (Raise e, n') => (Raise e, n')
        end
  end.

Definition fetch_rhodl_json (api_key : string) (max_retries timeout : Z) : io net pyval :=
  let headers := [("accept", "application/json");
                  ("CG-API-KEY", api_key);
                  ("User-Agent", "rhodl-fetch/1.0")] in
  fetch_attempts headers max_retries timeout (py_range 1 (max_retries + 1)) None.

(** The defaults of the signature. *)
Definition DEFAULT_MAX_RETRIES : Z := 3.
Definition DEFAULT_TIMEOUT : Z := 30.

(** [try: body except E: handler], for the exceptions [catches] accepts. *)
Definition io_try {S A} (body : io S A) (catches : exn -> bool) (handler : io S A)
  : io S A :=
  fun s =>
    match body s with
    | (Raise e, s') => if catches e then handler s' else (Raise e, s')
    | done => done
    end.

(** [for x in xs: body(x)]. *)
Fixpoint io_for {S A} (xs : list A) (body : A -> io S unit) : io S unit :=
  match xs with
  | [] => io_ret tt
  | x :: xs' => fun s =>
      match body x s with
      | (Ok _, s') => io_for xs' body s'
      | (Raise e, s') => (Raise e, s')
      end
  end.

(** ** The spreadsheet, as the Sheets API presents it *)

Inductive extended_value : Type :=
| NumberValue (f : float)
| StringValue (s : string)
| BoolValue (b : bool)
| FormulaValue (s : string).

(** The data of a cell: what was typed in, how it is formatted, its note. *)
Record cell_data : Type := {
  userEnteredValue : option extended_value;
  userEnteredFormat : option string;
  note : option string
}.

Definition empty_cell : cell_data :=
  {| userEnteredValue := None; userEnteredFormat := None; note := None |}.

(** Cells by (row, column), both from 0; a missing key is an empty cell. *)
Abbreviation grid := (gmap (nat * nat) cell_data).

Record sheet : Type := { sheet_title : string; sheet_cells : grid }.

(** The sheets of the spreadsheet by [sheetId]. *)
Abbreviation spreadsheet := (gmap Z sheet).

(** How the service displays a value that is not plain text. *)
Class SheetsService : Type := {
  render : extended_value -> option string -> string
}.

Definition cell_at (g : grid) (rc : nat * nat) : cell_data :=
  default empty_cell (g !! rc).

Definition set_value (v : option extended_value) (c : cell_data) : cell_data :=
  {| userEnteredValue := v;
     userEnteredFormat := userEnteredFormat c;
     note := note c |}.

(** [GridRange]: 0-based, half-open, a missing index is unbounded. *)
Record GridRange : Type := {
  sheetId : Z;
  startRowIndex : option nat;
  endRowIndex : option nat;
  startColumnIndex : option nat;
  endColumnIndex : option nat
}.

Definition below (i : nat) (bound : option nat) : bool :=
  match bound with
  | Some e => (i <? e)%nat
  | None => true
  end.

Definition in_grid_range (rg : GridRange) (rc : nat * nat) : bool :=
  (default 0%nat (startRowIndex rg) <=? rc.1)%nat && below rc.1 (endRowIndex rg)
  && (default 0%nat (startColumnIndex rg) <=? rc.2)%nat && below rc.2 (endColumnIndex rg).

(** A1 notation: columns and rows from 1 (column A is 1), rows optional:
    ["A:B"] is columns 1..2 with no rows, ["A1:B7"] has rows 1 and 7. *)
Record a1_range : Type := {
  a1_start_col : nat;
  a1_start_row : option nat;
  a1_end_col : nat;
  a1_end_row : option nat
}.

Definition col_A : nat := 1.
Definition col_B : nat := 2.

(** ["A:B"] *)
Definition A_B : a1_range :=
  {| a1_start_col := col_A; a1_start_row := None;
     a1_end_col := col_B; a1_end_row := None |}.

(** [f"A1:B{end_row}"] *)
Definition A1_B (end_row : nat) : a1_range :=
  {| a1_start_col := col_A; a1_start_row := Some 1%nat;
     a1_end_col := col_B; a1_end_row := Some end_row |}.

Definition a1_range_to_grid_range (id : Z) (a : a1_range) : GridRange :=
  {| sheetId := id;
     startRowIndex := Nat.pred <$> a1_start_row a;
     endRowIndex := a1_end_row a;
     startColumnIndex := Some (Nat.pred (a1_start_col a));
     endColumnIndex := Some (a1_end_col a) |}.

(** *** values.clear / values.batchClear *)

Definition clear_values (rg : GridRange) (g : grid) : grid :=
  map_imap (fun rc c => Some (if in_grid_range rg rc then set_value None c else c)) g.

(** *** batchUpdate with updateCells *)

Inductive field : Type := FUserEnteredValue | FUserEnteredFormat | FNote.

Inductive request : Type :=
| updateCells (range : GridRange) (rows : list (list cell_data)) (fields : list field).

(** A field of the mask takes the value the request gives for the cell,
    and is cleared when the request gives none. *)
Definition apply_field (data : option cell_data) (f : field) (c : cell_data)
  : cell_data :=
  match f with
  | FUserEnteredValue =>
      {| userEnteredValue := data ≫= userEnteredValue;
         userEnteredFormat := userEnteredFormat c;
         note := note c |}
  | FUserEnteredFormat =>
      {| userEnteredValue := userEnteredValue c;
         userEnteredFormat := data ≫= userEnteredFormat;
         note := note c |}
  | FNote =>
      {| userEnteredValue := userEnteredValue c;
         userEnteredFormat := userEnteredFormat c;
         note := data ≫= note |}
  end.

Definition apply_fields (fields : list field) (data : option cell_data) (c : cell_data)
  : cell_data :=
  foldr (apply_field data) c fields.

Definition data_at {A} (r0 c0 : nat) (rows : list (list A)) (rc : nat * nat)
  : option A :=
  if (r0 <=? rc.1)%nat && (c0 <=? rc.2)%nat
  then rows !! (rc.1 - r0)%nat ≫= fun row => row !! (rc.2 - c0)%nat
  else None.

Definition ensure_cell (rc : nat * nat) (g : grid) : grid :=
  match g !! rc with
  | Some _ => g
  | None => <[rc := empty_cell]> g
  end.

Fixpoint ensure_row {A} (r c : nat) (row : list A) (g : grid) : grid :=
  match row with
  | [] => g
  | _ :: row' => ensure_row r (S c) row' (ensure_cell (r, c) g)
  end.

Fixpoint ensure_rows {A} (r c : nat) (rows : list (list A)) (g : grid) : grid :=
  match rows with
  | [] => g
  | row :: rows' => ensure_rows (S r) c rows' (ensure_row r c row g)
  end.

Definition update_cells (rg : GridRange) (rows : list (list cell_data))
    (fields : list field) (g : grid) : grid :=
  let r0 := default 0%nat (startRowIndex rg) in
  let c0 := default 0%nat (startColumnIndex rg) in
  map_imap
    (fun rc c =>
       Some (if in_grid_range rg rc
             then apply_fields fields (data_at r0 c0 rows rc) c
             else c))
    (ensure_rows r0 c0 rows g).

(** *** values.update with [valueInputOption=RAW] *)

(** What a Python value puts into a cell: [RAW] keeps a string as text,
    the empty string empties the cell, [None] leaves the cell alone.  A
    float arrives as a JSON number, and there is none for a NaN or an
    infinity. *)
Inductive cell_input : Type :=
| Skip
| Put (v : option extended_value).

Definition cell_input_of (v : pyval) : option cell_input :=
  match v with
  | PNone => Some Skip
  | PStr s => Some (Put (if decide (s = "") then None else Some (StringValue s)))
  | PFloat f => if is_finite f then Some (Put (Some (NumberValue f))) else None
  | PInt z => Some (Put (Some (NumberValue (float_of_Z z))))
  | PBool b => Some (Put (Some (BoolValue b)))
  | PList _ | PDict _ => None
  end.

Definition write_cell (rc : nat * nat) (v : pyval) (g : grid) : grid :=
  match cell_input_of v with
  | Some (Put x) => <[rc := set_value x (cell_at g rc)]> g
  | Some Skip | None => g
  end.

Fixpoint write_row (r c : nat) (row : list pyval) (g : grid) : grid :=
  match row with
  | [] => g
  | v :: row' => write_row r (S c) row' (write_cell (r, c) v g)
  end.

Fixpoint write_rows (r c : nat) (rows : list (list pyval)) (g : grid) : grid :=
  match rows with
  | [] => g
  | row :: rows' => write_rows (S r) c rows' (write_row r c row g)
  end.

(** The request is refused when a value is not a scalar or when the
    values do not fit into the range. *)
Definition values_fit (rg : GridRange) (values : list (list pyval)) : bool :=
  let r0 := default 0%nat (startRowIndex rg) in
  let c0 := default 0%nat (startColumnIndex rg) in
  forallb (fun row => forallb (fun v => bool_decide (is_Some (cell_input_of v))) row) values
  && match endRowIndex rg with
     | Some e => (r0 + length values <=? e)%nat
     | None => true
     end
  && match endColumnIndex rg with
     | Some e => forallb (fun row => (c0 + length row <=? e)%nat) values
     | None => true
     end.

Definition values_update (rg : GridRange) (values : list (list pyval)) (g : grid)
  : result grid :=
  if values_fit rg values
  then Ok (write_rows (default 0%nat (startRowIndex rg))
                      (default 0%nat (startColumnIndex rg)) values g)
  else Raise (APIError "Invalid values for the range").

(** *** values.get *)

Definition has_value (c : cell_data) : bool :=
  bool_decide (is_Some (userEnteredValue c)).

Section Display.
Context {SV : SheetsService}.

(** [formattedValue]: text is shown as typed. *)
Definition formatted_value (c : cell_data) : string :=
  match userEnteredValue c with
  | None => ""
  | Some (StringValue s) => s
  | Some v => render v (userEnteredFormat c)
  end.

(** One more than the last row of column [col] that displays something;
    0 when the column displays nothing. *)
Definition rows_displayed (col : nat) (g : grid) : nat :=
  list_max (map (fun kv : nat * nat * cell_data =>
                   if bool_decide (kv.1.2 = col /\ formatted_value kv.2 <> "")
                   then S kv.1.1 else 0%nat)
                (map_to_list g)).

(** The displayed values of column [col] (from 0) down to its last
    non-empty cell. *)
Definition column_values (col : nat) (g : grid) : list string :=
  map (fun r => formatted_value (cell_at g (r, col))) (seq 0 (rows_displayed col g)).
End Display.

(** *** values.append *)

(** One more than the last row that holds a value in any column. *)
Definition rows_used (g : grid) : nat :=
  list_max (map (fun kv : nat * nat * cell_data =>
                   if has_value kv.2 then S kv.1.1 else 0%nat)
                (map_to_list g)).

(** The rows go below the data of the sheet, from column A. *)
Definition values_append (values : list (list pyval)) (g : grid) : result grid :=
  if forallb (fun row => forallb (fun v => bool_decide (is_Some (cell_input_of v))) row) values
  then Ok (write_rows (rows_used g) 0 values g)
  else Raise (APIError "Invalid values").

(** ** The gspread client *)

(** A worksheet object: the sheet it stands for, and whether its class
    has [batch_clear] (gspread 5 and later). *)
Record Worksheet : Type := {
  ws_id : Z;
  ws_has_batch_clear : bool
}.

(** gspread hands the body of a request to [requests] as [json=], which
    encodes it with [allow_nan=False]: a NaN or an infinity anywhere in
    the body raises [InvalidJSONError] (a [RequestException]) while the
    request is prepared, and nothing is sent. *)
Fixpoint json_compliant (v : pyval) : bool :=
  match v with
  | PFloat f => is_finite f
  | PList l => forallb json_compliant l
  | PDict d => forallb (fun kv : string * pyval => json_compliant kv.2) d
  | PNone | PBool _ | PInt _ | PStr _ => true
  end.

Definition send_json {A} (values : list (list pyval)) (call : io spreadsheet A)
  : io spreadsheet A :=
  if forallb (forallb json_compliant) values then call
  else io_raise InvalidJSONError.

(** A call on the cells of one sheet; an unknown sheet is an API error. *)
Definition on_cells (id : Z) (f : grid -> result grid) : io spreadsheet unit :=
  fun ss =>
    match ss !! id with
    | None => (Raise (APIError "No sheet with this id"), ss)
    | Some sh =>
        match f (sheet_cells sh) with
        | Ok g => (Ok tt, <[id := {| sheet_title := sheet_title sh; sheet_cells := g |}]> ss)
        | Raise e => (Raise e, ss)
        end
    end.

(** [ws.batch_clear(ranges)]. *)
Definition ws_batch_clear (ws : Worksheet) (ranges : list a1_range)
  : io spreadsheet unit :=
  if ws_has_batch_clear ws then
    io_for ranges (fun a =>
      on_cells (ws_id ws)
        (fun g => Ok (clear_values (a1_range_to_grid_range (ws_id ws) a) g)))
  else io_raise AttributeError.

(** [ws.spreadsheet.batch_update({"requests": requests})]. *)
Definition spreadsheet_batch_update (requests : list request) : io spreadsheet unit :=
  io_for requests (fun req =>
    match req with
    | updateCells rg rows fields =>
        on_cells (sheetId rg) (fun g => Ok (update_cells rg rows fields g))
    end).

(** [ws.update(range_name=..., values=..., value_input_option="RAW")]. *)
Definition ws_update (ws : Worksheet) (range_name : a1_range)
    (values : list (list pyval)) : io spreadsheet unit :=
  send_json values
    (on_cells (ws_id ws)
       (values_update (a1_range_to_grid_range (ws_id ws) range_name) values)).

(** [ws.append_rows(values, value_input_option="RAW")]. *)
Definition ws_append_rows (ws : Worksheet) (values : list (list pyval))
  : io spreadsheet unit :=
  send_json values (on_cells (ws_id ws) (values_append values)).

Definition is_AttributeError (e : exn) : bool :=
  match e with
  | AttributeError => true
  | _ => false
  end.

(** ** write_cols_ab_overwrite and append_only_cols_ab *)

Definition HEADER : list pyval := [PStr "Date"; PStr "RHODL Ratio"].

(** [[r["date"], r["rhodl_ratio"]]] *)
Definition sheet_row (r : record) : list pyval :=
  [PStr (rec_date r); PFloat (rhodl_ratio r)].

(** The request of the fallback branch. *)
Definition fallback_clear_request (ws : Worksheet) : request :=
  updateCells
    {| sheetId := ws_id ws;
       startRowIndex := Some 0%nat;
       endRowIndex := None;
       startColumnIndex := Some 0%nat;
       endColumnIndex := Some 2%nat |}
    []
    [FUserEnteredValue].

(** The [try: ws.batch_clear(["A:B"]) except AttributeError: ...] block. *)
Definition clear_cols_ab (ws : Worksheet) : io spreadsheet unit :=
  io_try (ws_batch_clear ws [A_B]) is_AttributeError
         (spreadsheet_batch_update [fallback_clear_request ws]).

Definition write_cols_ab_overwrite (ws : Worksheet) (records : list record)
  : io spreadsheet unit :=
  let rows := HEADER :: map sheet_row records in
  clear_cols_ab ws ;;
  let end_row := length rows in
  ws_update ws (A1_B end_row) rows.

Section Append.
Context {SV : SheetsService}.

(** [ws.col_values(col)], [col] from 1. *)
Definition ws_col_values (ws : Worksheet) (col : nat) : io spreadsheet (list string) :=
  fun ss =>
    match ss !! ws_id ws with
    | None => (Raise (APIError "No sheet with this id"), ss)
    | Some sh => (Ok (column_values (Nat.pred col) (sheet_cells sh)), ss)
    end.

Definition append_only_cols_ab (ws : Worksheet) (records : list record)
  : io spreadsheet nat :=
  existing ← ws_col_values ws 1;
  existing_dates ←
    match existing with
    | [] => ws_update ws (A1_B 1) [HEADER] ;; mret (∅ : gset string)
    | _ :: rest => mret (list_to_set (filter (fun x => x <> "") rest))
    end;
  let new_rows :=
    map sheet_row (filter (fun r => rec_date r ∉ existing_dates) records) in
  match new_rows with
  | [] => mret tt
  | _ :: _ => ws_append_rows ws new_rows
  end ;;
  mret (length new_rows).
End Append.

(** ** json.dump with [ensure_ascii=False, indent=2] *)

Definition quote : ascii := "034"%char.
Definition backslash : ascii := "092"%char.
Definition newline : ascii := "010"%char.

Definition hex_digit (n : N) : ascii :=
  if (n <? 10)%N then ascii_of_N (48 + n) else ascii_of_N (87 + n).

(** The replacement of one character inside a JSON string: the quote,
    the backslash and the characters below U+0020 are escaped, every
    other character stands for itself. *)
Definition escape_char (c : ascii) : string :=
  let n := N_of_ascii c in
  if (n =? 34)%N then String backslash (String quote "")
  else if (n =? 92)%N then String backslash (String backslash "")
  else if (n =? 8)%N then String backslash "b"
  else if (n =? 12)%N then String backslash "f"
  else if (n =? 10)%N then String backslash "n"
  else if (n =? 13)%N then String backslash "r"
  else if (n =? 9)%N then String backslash "t"
  else if (n <? 32)%N then
    String backslash
      (String "u" (String "0" (String "0"
         (String (hex_digit (n / 16)) (String (hex_digit (n mod 16)) "")))))
  else String c "".

Fixpoint escape (s : string) : string :=
  match s with
  | EmptyString => ""
  | String c s' => escape_char c ++ escape s'
  end.

Definition json_string (s : string) : string :=
  String quote (escape s ++ String quote "").

(** ['\n' + indent * level] with [indent] two spaces. *)
Fixpoint spaces (n : nat) : string :=
  match n with
  | O => ""
  | S n' => String " " (spaces n')
  end.

Definition newline_indent (level : nat) : string :=
  String newline (spaces (2 * level)).

Fixpoint join (sep : string) (chunks : list string) : string :=
  match chunks with
  | [] => ""
  | [c] => c
  | c :: rest => c ++ sep ++ join sep rest
  end.

Section Encoder.
Context {RT : PyRuntime}.

Definition json_float (f : float) : string :=
  match f with
  | F754_nan _ => "NaN"
  | F754_infinity false => "Infinity"
  | F754_infinity true => "-Infinity"
  | F754_zero _ | F754_finite _ _ _ => float_repr f
  end.

(** The text of a value nested [level] deep. *)
Fixpoint json_encode (level : nat) (v : pyval) : string :=
  match v with
  | PNone => "null"
  | PBool true => "true"
  | PBool false => "false"
  | PInt z => int_repr z
  | PFloat f => json_float f
  | PStr s => json_string s
  | PList [] => "[]"
  | PList l =>
      "[" ++ newline_indent (S level)
      ++ join ("," ++ newline_indent (S level)) (map (json_encode (S level)) l)
      ++ newline_indent level ++ "]"
  | PDict [] => "{}"
  | PDict d =>
      "{" ++ newline_indent (S level)
      ++ join ("," ++ newline_indent (S level))
              (map (fun kv : string * pyval =>
                      json_string kv.1 ++ ": " ++ json_encode (S level) kv.2) d)
      ++ newline_indent level ++ "}"
  end.

Definition json_dumps (v : pyval) : string := json_encode 0 v.
End Encoder.

(** ** Files *)

Inductive node : Type :=
| Dir
| File (content : string).

(** A path is its list of components; the file system maps the paths
    that exist to what they are. *)
Abbreviation path := (list string).
Abbreviation filesystem := (gmap (list string) node).

(** [path.parent] *)
Definition parent (p : path) : path := removelast p.

(** [path.mkdir(parents=True, exist_ok=True)]: every missing directory on
    the way is made; a file in the way is an error. *)
Fixpoint mkdir_from (done todo : path) (fs : filesystem) : result filesystem :=
  match todo with
  | [] => Ok fs
  | name :: todo' =>
      let here := (done ++ [name])%list in
      match fs !! here with
      | Some (File _) => Raise (OSError "A file is in the way")
      | Some Dir => mkdir_from here todo' fs
      | None => mkdir_from here todo' (<[here := Dir]> fs)
      end
  end.

Definition mkdir_parents (p : path) : io filesystem unit :=
  fun fs =>
    match mkdir_from [] p fs with
    | Ok fs' => (Ok tt, fs')
    | Raise e => (Raise e, fs)
    end.

(** [with open(path, "w", encoding="utf-8") as f: f.write(text)] *)
Definition write_text (p : path) (text : string) : io filesystem unit :=
  fun fs =>
    match fs !! p with
    | Some Dir => (Raise (OSError "Is a directory"), fs)
    | Some (File _) | None => (Ok tt, <[p := File text]> fs)
    end.

(** [f.read()] of an existing file. *)
Definition read_text (p : path) : io filesystem string :=
  fun fs =>
    match fs !! p with
    | Some (File text) => (Ok text, fs)
    | Some Dir => (Raise (OSError "Is a directory"), fs)
    | None => (Raise (OSError "No such file"), fs)
    end.

(** ** save_json *)

(** The dict a record is. *)
Definition record_to_py (r : record) : pyval :=
  PDict [("date", PStr (rec_date r));
         ("rhodl_ratio", PFloat (rhodl_ratio r));
         ("price", PFloat (price r));
         ("timestamp_ms", PInt (timestamp_ms r))].

Section Save.
Context {RT : PyRuntime}.

Definition save_json (p : path) (data : list record) : io filesystem unit :=
  mkdir_parents (parent p) ;;
  write_text p (json_dumps (PList (map record_to_py data))).
End Save.

(** ** json.loads

    The decoder reads the text in one pass from left to right.  It holds
    what it expects next, the token it is inside of, and the containers
    that are still open.  It accepts the JSON grammar with the constants
    [NaN], [Infinity] and [-Infinity], as Python's decoder does; a key
    that comes twice keeps its first place and takes the last value. *)

Definition is_ws (c : ascii) : bool :=
  let n := N_of_ascii c in
  (n =? 32)%N || (n =? 9)%N || (n =? 10)%N || (n =? 13)%N.

Definition is_digit (c : ascii) : bool :=
  let n := N_of_ascii c in (48 <=? n)%N && (n <=? 57)%N.

Definition is_letter (c : ascii) : bool :=
  let n := N_of_ascii c in
  ((65 <=? n)%N && (n <=? 90)%N) || ((97 <=? n)%N && (n <=? 122)%N).

(** The characters of a number or a constant. *)
Definition is_bare (c : ascii) : bool :=
  let n := N_of_ascii c in
  is_digit c || is_letter c || (n =? 43)%N || (n =? 45)%N || (n =? 46)%N.

Fixpoint all_chars (p : ascii -> bool) (s : string) : bool :=
  match s with
  | EmptyString => true
  | String c s' => p c && all_chars p s'
  end.

(** *** Numbers

    An optional minus sign; then 0 alone or a digit from 1 to 9 and any
    digits; then, optionally, a point and digits; then, optionally, e or
    E, an optional sign and digits. *)

Fixpoint skip_digits (s : string) : string :=
  match s with
  | EmptyString => s
  | String c s' => if is_digit c then skip_digits s' else s
  end.

(** One digit at least. *)
Definition digits1 (s : string) : option string :=
  match s with
  | EmptyString => None
  | String c s' => if is_digit c then Some (skip_digits s') else None
  end.

Definition int_part (s : string) : option string :=
  let s := match s with
           | String c s' => if Ascii.eqb c "-" then s' else s
           | EmptyString => s
           end in
  match s with
  | EmptyString => None
  | String c s' =>
      if Ascii.eqb c "0" then Some s'
      else if is_digit c then Some (skip_digits s')
      else None
  end.

Definition exp_part (s : string) : option string :=
  match s with
  | String c s' =>
      if Ascii.eqb c "+" || Ascii.eqb c "-" then digits1 s' else digits1 s
  | EmptyString => None
  end.

Inductive number_kind : Type := IsInt | IsFloat.

Definition ends (r : option string) : bool :=
  match r with
  | Some EmptyString => true
  | _ => false
  end.

Definition number_literal (tok : string) : option number_kind :=
  match int_part tok with
  | None => None
  | Some EmptyString => Some IsInt
  | Some (String c s) =>
      if Ascii.eqb c "." then
        match digits1 s with
        | None => None
        | Some EmptyString => Some IsFloat
        | Some (String e s') =>
            if (Ascii.eqb e "e" || Ascii.eqb e "E") && ends (exp_part s')
            then Some IsFloat else None
        end
      else if (Ascii.eqb c "e" || Ascii.eqb c "E") && ends (exp_part s)
      then Some IsFloat
      else None
  end.

Section Tokens.
Context {RT : PyRuntime}.

(** The value of a number or a constant. *)
Definition classify (tok : string) : option pyval :=
  match number_literal tok with
  | Some IsInt => (fun d => PInt (Z.of_int d)) <$> NilZero.int_of_string tok
  | Some IsFloat => PFloat <$> float_of_str tok
  | None =>
      if String.eqb tok "null" then Some PNone
      else if String.eqb tok "true" then Some (PBool true)
      else if String.eqb tok "false" then Some (PBool false)
      else if String.eqb tok "NaN" then Some (PFloat (F754_nan json_NaN))
      else if String.eqb tok "Infinity" then Some (PFloat (F754_infinity false))
      else if String.eqb tok "-Infinity" then Some (PFloat (F754_infinity true))
      else None
  end.
End Tokens.

(** *** Strings *)

Definition hex_value (c : ascii) : option N :=
  let n := N_of_ascii c in
  if is_digit c then Some (n - 48)%N
  else if (97 <=? n)%N && (n <=? 102)%N then Some (n - 87)%N
  else if (65 <=? n)%N && (n <=? 70)%N then Some (n - 55)%N
  else None.

(** The UTF-8 bytes of a code unit below 2^16. *)
Definition utf8 (n : N) : string :=
  if (n <? 128)%N then String (ascii_of_N n) ""
  else if (n <? 2048)%N then
    String (ascii_of_N (192 + n / 64)) (String (ascii_of_N (128 + n mod 64)) "")
  else
    String (ascii_of_N (224 + n / 4096))
      (String (ascii_of_N (128 + (n / 64) mod 64))
         (String (ascii_of_N (128 + n mod 64)) "")).

(** The character an escape letter stands for. *)
Definition unescape (c : ascii) : option ascii :=
  let n := N_of_ascii c in
  if (n =? 34)%N then Some quote
  else if (n =? 92)%N then Some backslash
  else if (n =? 47)%N then Some "/"%char
  else if (n =? 98)%N then Some "008"%char
  else if (n =? 102)%N then Some "012"%char
  else if (n =? 110)%N then Some "010"%char
  else if (n =? 114)%N then Some "013"%char
  else if (n =? 116)%N then Some "009"%char
  else None.

(** *** The machine *)

Inductive lexer : Type :=
| LNone
| LStr (acc : string)
| LEsc (acc : string)
| LUni (acc : string) (digits : list N)
| LBare (acc : string).

Inductive control : Type :=
| XValue (may_close : bool)
| XArrNext
| XKey (pairs : list (string * pyval)) (may_close : bool)
| XColon (pairs : list (string * pyval)) (key : string)
| XObjNext (pairs : list (string * pyval))
| XDone (v : pyval)
| XError.

Inductive frame : Type :=
| FArr (items : list pyval)
| FObj (pairs : list (string * pyval)) (key : string).

Record machine : Type := Machine {
  ctl : control;
  lex : lexer;
  stack : list frame
}.

Definition failed : machine := Machine XError LNone [].

(** A value is complete: it goes to the innermost open container. *)
Definition deliver (v : pyval) (st : list frame) : machine :=
  match st with
  | [] => Machine (XDone v) LNone []
  | FArr items :: st' => Machine XArrNext LNone (FArr (items ++ [v]) :: st')
  | FObj pairs key :: st' => Machine (XObjNext (dict_setitem key v pairs)) LNone st'
  end.

Definition end_string (s : string) (c : control) (st : list frame) : machine :=
  match c with
  | XValue _ => deliver (PStr s) st
  | XKey pairs _ => Machine (XColon pairs s) LNone st
  | _ => failed
  end.

(** A character outside a token. *)
Definition punct (c : ascii) (x : control) (st : list frame) : machine :=
  if is_ws c then Machine x LNone st
  else
    match x with
    | XValue may_close =>
        if Ascii.eqb c quote then Machine x (LStr "") st
        else if Ascii.eqb c "[" then Machine (XValue true) LNone (FArr [] :: st)
        else if Ascii.eqb c "{" then Machine (XKey [] true) LNone st
        else if Ascii.eqb c "]" && may_close then
          match st with
          | FArr items :: st' => deliver (PList items) st'
          | _ => failed
          end
        else if is_bare c then Machine x (LBare (String c "")) st
        else failed
    | XArrNext =>
        if Ascii.eqb c "," then Machine (XValue false) LNone st
        else if Ascii.eqb c "]" then
          match st with
          | FArr items :: st' => deliver (PList items) st'
          | _ => failed
          end
        else failed
    | XKey pairs may_close =>
        if Ascii.eqb c quote then Machine x (LStr "") st
        else if Ascii.eqb c "}" && may_close then deliver (PDict pairs) st
        else failed
    | XColon pairs key =>
        if Ascii.eqb c ":" then Machine (XValue false) LNone (FObj pairs key :: st)
        else failed
    | XObjNext pairs =>
        if Ascii.eqb c "," then Machine (XKey pairs false) LNone st
        else if Ascii.eqb c "}" then deliver (PDict pairs) st
        else failed
    | XDone _ | XError => failed
    end.

Section Machine.
Context {RT : PyRuntime}.

(** The end of a number or a constant. *)
Definition end_bare (tok : string) (x : control) (st : list frame) : machine :=
  match x, classify tok with
  | XValue _, Some v => deliver v st
  | _, _ => failed
  end.

Definition step (m : machine) (c : ascii) : machine :=
  match lex m with
  | LNone => punct c (ctl m) (stack m)
  | LStr acc =>
      if Ascii.eqb c quote then end_string acc (ctl m) (stack m)
      else if Ascii.eqb c backslash then Machine (ctl m) (LEsc acc) (stack m)
      else if (N_of_ascii c <? 32)%N then failed
      else Machine (ctl m) (LStr (acc ++ String c "")) (stack m)
  | LEsc acc =>
      if Ascii.eqb c "u" then Machine (ctl m) (LUni acc []) (stack m)
      else
        match unescape c with
        | Some x => Machine (ctl m) (LStr (acc ++ String x "")) (stack m)
        | None => failed
        end
  | LUni acc digits =>
      match hex_value c with
      | None => failed
      | Some d =>
          match digits with
          | [h1; h2; h3] =>
              Machine (ctl m)
                      (LStr (acc ++ utf8 (((h1 * 16 + h2) * 16 + h3) * 16 + d)%N))
                      (stack m)
          | _ => Machine (ctl m) (LUni acc (digits ++ [d])) (stack m)
          end
      end
  | LBare acc =>
      if is_bare c then Machine (ctl m) (LBare (acc ++ String c "")) (stack m)
      else
        let m' := end_bare acc (ctl m) (stack m) in
        punct c (ctl m') (stack m')
  end.

Fixpoint run (m : machine) (s : string) : machine :=
  match s with
  | EmptyString => m
  | String c s' => run (step m c) s'
  end.

(** The end of the text. *)
Definition finish (m : machine) : result pyval :=
  let m' := match lex m with
            | LBare acc => end_bare acc (ctl m) (stack m)
            | _ => m
            end in
  match ctl m', lex m', stack m' with
  | XDone v, LNone, [] => Ok v
  | _, _, _ => Raise ValueError
  end.

Definition json_loads (s : string) : result pyval :=
  finish (run (Machine (XValue false) LNone []) s).
End Machine.

(** ** open_target_worksheet *)

Definition WORKSHEET_TITLE : string := "RHODL Ratio Raw Data".

(** [ss.worksheet(title)]: the sheet of that title, if there is one. *)
Definition find_sheet (title : string) (ss : spreadsheet) : option Z :=
  fst <$> head (filter (fun kv : Z * sheet => sheet_title kv.2 = title) (map_to_list ss)).

(** [ss.add_worksheet(title=..., rows=1000, cols=26)]: an empty sheet
    under an id not in use. *)
Definition add_worksheet (title : string) : io spreadsheet Z :=
  fun ss =>
    let id := 1 + foldr Z.max 0 (map fst (map_to_list ss)) in
    (Ok id, <[id := {| sheet_title := title; sheet_cells := ∅ |}]> ss).

Definition open_target_worksheet (has_batch_clear : bool) : io spreadsheet Worksheet :=
  fun ss =>
    match find_sheet WORKSHEET_TITLE ss with
    | Some id => (Ok {| ws_id := id; ws_has_batch_clear := has_batch_clear |}, ss)
    | None =>
        (id ← add_worksheet WORKSHEET_TITLE;
         let ws := {| ws_id := id; ws_has_batch_clear := has_batch_clear |} in
         ws_update ws (A1_B 1) [HEADER] ;;
         mret ws) ss
    end.

(** ** main *)

(** [for row in v]: what the loop of [normalize] runs over. *)
Definition py_iter (v : pyval) : result (list pyval) :=
  match v with
  | PList l => Ok l
  | PDict d => Ok (map (fun kv : string * pyval => PStr kv.1) d)
  | PStr s => Ok (map (fun c => PStr (String c "")) (list_ascii_of_string s))
  | PNone | PBool _ | PInt _ | PFloat _ => Raise TypeError
  end.

(** [isinstance(raw, dict) and "data" in raw] *)
Definition has_data (raw : pyval) : bool :=
  match raw with
  | PDict d => bool_decide (is_Some (dict_lookup "data" d))
  | _ => false
  end.

(** What the run acts on: the endpoint, the files, the spreadsheet. *)
Record world : Type := {
  w_net : net;
  w_fs : filesystem;
  w_book : spreadsheet
}.

Definition on_net {A} (m : io net A) : io world A :=
  fun w =>
    let (r, n) := m (w_net w) in
    (r, {| w_net := n; w_fs := w_fs w; w_book := w_book w |}).

Definition on_fs {A} (m : io filesystem A) : io world A :=
  fun w =>
    let (r, fs) := m (w_fs w) in
    (r, {| w_net := w_net w; w_fs := fs; w_book := w_book w |}).

Definition on_book {A} (m : io spreadsheet A) : io world A :=
  fun w =>
    let (r, ss) := m (w_book w) in
    (r, {| w_net := w_net w; w_fs := w_fs w; w_book := ss |}).

(** A pure step: the world stays as it is. *)
Definition pure {S A} (r : result A) : io S A := fun s => (r, s).

Section Main.
Context {RT : PyRuntime} {SV : SheetsService}.

(** [main] from [cfg = load_env()] on, for the parsed arguments [append]
    and [outfile], the API key of the configuration and the gspread at
    hand.  What it prints is left out. *)
Definition main (append : bool) (outfile : path) (api_key : string)
    (has_batch_clear : bool) : io world unit :=
  raw ← on_net (fetch_rhodl_json api_key DEFAULT_MAX_RETRIES DEFAULT_TIMEOUT);
  if negb (has_data raw) then
    io_raise (SystemExit ("Unexpected API response shape: "
                          ++ substring 0 200 (str_of raw) ++ " ..."))
  else
    data ← pure (py_getitem raw "data");
    rows ← pure (py_iter data);
    records ← pure (normalize rows);
    on_fs (save_json outfile records) ;;
    ws ← on_book (open_target_worksheet has_batch_clear);
    if append then
      on_book (append_only_cols_ab ws records) ;; mret tt
    else
      on_book (write_cols_ab_overwrite ws records).
End Main.

(** ** Paths, as [pathlib] holds them on POSIX *)

(** A path is the list of its parts; an absolute path begins with the
    root, ["/"] (or ["//"] for exactly two leading slashes). *)

(** [s.split(sep)] for a one-character separator. *)
Fixpoint split_on (sep : ascii) (s : string) : list string :=
  match s with
  | EmptyString => [EmptyString]
  | String c s' =>
      if Ascii.eqb c sep then EmptyString :: split_on sep s'
      else
        match split_on sep s' with
        | [] => [String c EmptyString]
        | x :: xs => String c x :: xs
        end
  end.

Fixpoint leading_slashes (s : string) : nat :=
  match s with
  | String c s' => if Ascii.eqb c "/" then S (leading_slashes s') else O
  | EmptyString => O
  end.

(** [Path(s)]: empty parts and ["."] parts are dropped. *)
Definition path_of_str (s : string) : path :=
  let parts := filter (fun x => x <> "" /\ x <> ".") (split_on "/" s) in
  match leading_slashes s with
  | O => parts
  | 2%nat => "//" :: parts
  | _ => "/" :: parts
  end.

Definition is_root (x : string) : bool := String.eqb x "/" || String.eqb x "//".

(** [p.is_absolute()] *)
Definition is_absolute (p : path) : bool :=
  match p with
  | x :: _ => is_root x
  | [] => false
  end.

(** [str(p)] *)
Definition str_of_path (p : path) : string :=
  match p with
  | [] => "."
  | x :: rest => if is_root x then x ++ join "/" rest else join "/" p
  end.

(** [p / q] *)
Definition joinpath (p q : path) : path :=
  if is_absolute q then q else (p ++ q)%list.

(** [p.exists()] *)
Definition path_exists (p : path) (fs : filesystem) : bool :=
  bool_decide (is_Some (fs !! p)).

(** ** load_env *)

(** [os.environ] *)
Abbreviation environ := (gmap string string).

(** Where the script lies: [Path(__file__).resolve().parent.parent]. *)
Class Layout : Type := { PROJECT_ROOT : path }.

(** What python-dotenv reads out of the text of a file, given the
    environment (which it consults for [${NAME}]): the bindings in the
    order of the file; a name without [=] has no value. *)
Class DotEnvLib : Type := {
  dotenv_bindings : string -> environ -> list (string * option string)
}.

(** [dict(bindings)] *)
Definition dict_of {V} (bindings : list (string * V)) : list (string * V) :=
  fold_left (fun d kv => dict_setitem kv.1 kv.2 d) bindings [].

(** One turn of the loop of [set_as_environment_variables] with
    [override=False]: a name the environment has is left alone. *)
Definition setenv_step (env : environ) (kv : string * option string) : environ :=
  match kv.2 with
  | Some v => if decide (is_Some (env !! kv.1)) then env else <[kv.1 := v]> env
  | None => env
  end.

Section LoadEnv.
Context {LO : Layout} {DE : DotEnvLib}.

Definition DOTENV_PATH : path := joinpath PROJECT_ROOT (path_of_str ".env").

(** [load_dotenv(dotenv_path=...)]: a path that is no regular file reads
    as an empty file; the result says whether anything was bound. *)
Definition load_dotenv (dotenv_path : path) (fs : filesystem) : io environ bool :=
  fun env =>
    let text := match fs !! dotenv_path with
                | Some (File t) => t
                | _ => ""
                end in
    let d := dict_of (dotenv_bindings text env) in
    match d with
    | [] => (Ok false, env)
    | _ :: _ => (Ok true, fold_left setenv_step d env)
    end.

(** [os.getenv(name)] *)
Definition getenv (name : string) : io environ (option string) :=
  fun env => (Ok (env !! name), env).

(** The truth value of what [os.getenv] returns. *)
Definition truthy (v : option string) : bool :=
  match v with
  | Some (String _ _) => true
  | Some EmptyString | None => false
  end.

(** [sys.exit(msg)] *)
Definition sys_exit {S A} (msg : string) : io S A := io_raise (SystemExit msg).

Record config : Type := {
  cfg_api_key : string;
  cfg_sheet_id : string;
  cfg_sa_file : string
}.

Definition load_env (fs : filesystem) : io environ config :=
  if negb (path_exists DOTENV_PATH fs) then
    sys_exit ("ERROR: .env not found at " ++ str_of_path DOTENV_PATH)
  else
    load_dotenv DOTENV_PATH fs ;;
    key ← getenv "COINGLASS_API_KEY";
    sheet_id ← getenv "GOOGLE_SHEET_ID";
    sa_file_cfg ← getenv "GOOGLE_SERVICE_ACCOUNT";
    let missing :=
      map fst (filter (fun nv : string * option string => truthy nv.2 = false)
                      [("COINGLASS_API_KEY", key);
                       ("GOOGLE_SHEET_ID", sheet_id);
                       ("GOOGLE_SERVICE_ACCOUNT", sa_file_cfg)]) in
    match missing with
    | _ :: _ => sys_exit ("ERROR: Missing in .env -> " ++ join ", " missing)
    | [] =>
        let sa_path := path_of_str (default "" sa_file_cfg) in
        let sa_path :=
          if negb (is_absolute sa_path) then joinpath PROJECT_ROOT sa_path else sa_path in
        if negb (path_exists sa_path fs) then
          sys_exit ("ERROR: Service account JSON not found at " ++ str_of_path sa_path)
        else
          mret {| cfg_api_key := default "" key;
                  cfg_sheet_id := default "" sheet_id;
                  cfg_sa_file := str_of_path sa_path |}
    end.
End LoadEnv.

(** ** main, from its first step *)

(** The process environment beside the world. *)
Record site : Type := { s_env : environ; s_world : world }.

Module Script.
Section Script.
Context {RT : PyRuntime} {SV : SheetsService} {LO : Layout} {DE : DotEnvLib}.

(** [main] with [cfg = load_env()] in front.  [google_client] is taken
    to authorise, and the spreadsheet of the world is the one
    [client.open_by_key(cfg["sheet_id"])] opens. *)
Definition main (append : bool) (outfile : path) (has_batch_clear : bool)
  : io site unit :=
  fun s =>
    match load_env (w_fs (s_world s)) (s_env s) with
    | (Raise e, env) => (Raise e, {| s_env := env; s_world := s_world s |})
    | (Ok cfg, env) =>
        let (r, w) := main append outfile (cfg_api_key cfg) has_batch_clear (s_world s) in
        (r, {| s_env := env; s_world := w |})
    end.
End Script.
End Script.

(** ** A runtime to evaluate with *)

Definition f1 : float := float_of_Z 1.
Definition f2 : float := float_of_Z 2.

(** [repr] and [float] as CPython has them on 0.0, 1.0 and 2.0;
    [float("nan")] makes a NaN object of its own; [int] and [float]
    refuse every other string; local time is UTC+1. *)
Definition table_runtime : PyRuntime :=
  {| int_of_str := fun _ => None;
     float_of_str := fun s =>
       if String.eqb s "0.0" then Some float_zero
       else if String.eqb s "1.0" then Some f1
       else if String.eqb s "2.0" then Some f2
       else if String.eqb s "nan" then Some (F754_nan (NaN_object 0))
       else None;
     float_repr := fun f =>
       if float_eqb f f1 then "1.0"
       else if float_eqb f f2 then "2.0"
       else match f with
            | F754_zero false => "0.0"
            | _ => "?"
            end;
     str_of := fun _ => "";
     local_utcoffset := fun _ => 3600 |}.

(** Values that are not text are displayed as ["#"]. *)
Definition plain_service : SheetsService := {| render := fun _ _ => "#" |}.

Definition rec_0101 : record :=
  {| rec_date := "2021-01-01"; rhodl_ratio := f1; price := float_zero;
     timestamp_ms := 1609459200000 |}.
Definition rec_0102 : record :=
  {| rec_date := "2021-01-02"; rhodl_ratio := f2; price := float_zero;
     timestamp_ms := 1609545600000 |}.

Definition ws_new : Worksheet := {| ws_id := 7; ws_has_batch_clear := true |}.
Definition ws_old : Worksheet := {| ws_id := 7; ws_has_batch_clear := false |}.

Definition text_cell (s : string) : cell_data := set_value (Some (StringValue s)) empty_cell.
Definition number_cell (f : float) : cell_data := set_value (Some (NumberValue f)) empty_cell.

(** An empty sheet, and one holding the header, 2021-01-01 and a note
    of the analyst in column C. *)
Definition empty_sheet : sheet :=
  {| sheet_title := "RHODL Ratio Raw Data"; sheet_cells := ∅ |}.
Definition used_cells : grid :=
  {[ (0, 0)%nat := text_cell "Date";
     (0, 1)%nat := text_cell "RHODL Ratio";
     (0, 2)%nat := text_cell "comment";
     (1, 0)%nat := text_cell "2021-01-01";
     (1, 1)%nat := number_cell f1;
     (1, 2)%nat := text_cell "checked" ]}.
Definition used_sheet : sheet :=
  {| sheet_title := "RHODL Ratio Raw Data"; sheet_cells := used_cells |}.
Definition empty_book : spreadsheet := {[ 7 := empty_sheet ]}.
Definition used_book : spreadsheet := {[ 7 := used_sheet ]}.

(** A row whose price is an integer that binary64 cannot hold, and a row
    whose price is [null]. *)
Definition big_price : Z := 9007199254740993.
Definition big_price_row : pyval :=
  PDict [("timestamp", PInt 1609459200000); ("rhodl_ratio", PFloat f1);
         ("price", PInt big_price)].
Definition null_price_row : pyval :=
  PDict [("timestamp", PInt 1609459200000); ("rhodl_ratio", PFloat f1);
         ("price", PNone)].
Definition plain_row (ts : Z) (ratio : float) : pyval :=
  PDict [("timestamp", PInt ts); ("rhodl_ratio", PFloat ratio)].

(** Two rows of 2021-01-01 (the second one later in the day), one of
    2021-01-02, in the order second day, first day, first day. *)
Definition three_rows : list pyval :=
  [plain_row 1609545600000 f2; plain_row 1609459200000 f1; plain_row 1609459260000 f2].

Definition rec_0101_late : record :=
  {| rec_date := "2021-01-01"; rhodl_ratio := f2; price := float_zero;
     timestamp_ms := 1609459260000 |}.

(** An endpoint that answers every request with one document, and the
    world of a first run against it. *)
Definition null_price_document : pyval := PDict [("data", PList [null_price_row])].

Definition net_of (doc : pyval) : net :=
  {| endpoint := fun _ => Document doc; sent := 0; trace := [] |}.

Definition world_of (doc : pyval) (ss : spreadsheet) : world :=
  {| w_net := net_of doc; w_fs := ∅; w_book := ss |}.

Definition default_outfile : path := ["json_data"; "rhodl_daily.json"].

(** A record whose ratio is a NaN object of its own, as [float("nan")]
    makes one, and one whose ratio is the NaN object of [json], as a
    document with the token [NaN] brings it. *)
Definition rec_nan : record :=
  {| rec_date := "2021-01-01"; rhodl_ratio := F754_nan (NaN_object 0);
     price := float_zero; timestamp_ms := 1609459200000 |}.
Definition nan_text_row : pyval :=
  PDict [("timestamp", PInt 1609459200000); ("rhodl_ratio", PStr "nan")].
Definition rec_json_nan : record :=
  {| rec_date := "2021-01-02"; rhodl_ratio := F754_nan json_NaN;
     price := float_zero; timestamp_ms := 1609545600000 |}.

(** ** More to evaluate with *)

(** Two days, one row each, in both orders. *)
Definition two_rows : list pyval :=
  [plain_row 1609459200000 f1; plain_row 1609545600000 f2].
Definition two_rows_swapped : list pyval :=
  [plain_row 1609545600000 f2; plain_row 1609459200000 f1].

(** An endpoint that fails [k] times and then answers with a document,
    and one that always fails. *)
Definition flaky_net (k : nat) (doc : pyval) : net :=
  {| endpoint := fun i => if (i <? k)%nat then ConnectionFailed "down" else Document doc;
     sent := 0; trace := [] |}.
Definition dead_net : net :=
  {| endpoint := fun _ => ConnectionFailed "down"; sent := 0; trace := [] |}.

Definition two_rows_document : pyval := PDict [("data", PList two_rows)].

(** A file where the directory of the output file should be. *)
Definition blocked_fs : filesystem := {[ ["json_data"] := File "notes" ]}.

(** A project at [/srv/btc] with its [.env] and the key file of the
    service account; a python-dotenv that knows the text of that [.env]
    and one other. *)
Definition demo_layout : Layout := {| PROJECT_ROOT := ["/"; "srv"; "btc"] |}.

Definition full_dotenv : string := "full".
Definition partial_dotenv : string := "partial".

Definition demo_dotenv : DotEnvLib :=
  {| dotenv_bindings := fun text _ =>
       if String.eqb text full_dotenv then
         [("COINGLASS_API_KEY", Some "key-of-file");
          ("GOOGLE_SHEET_ID", Some "sheet-1");
          ("GOOGLE_SERVICE_ACCOUNT", Some "service_account.json")]
       else if String.eqb text partial_dotenv then
         [("GOOGLE_SHEET_ID", Some "sheet-1")]
       else [] |}.

Definition project_fs (dotenv : string) : filesystem :=
  {[ ["/"; "srv"; "btc"; ".env"] := File dotenv;
     ["/"; "srv"; "btc"; "service_account.json"] := File "{}" ]}.

(** The process environment already holds a key. *)
Definition keyed_env : environ := {[ "COINGLASS_API_KEY" := "key-of-process" ]}.

(** The same project without the key file. *)
Definition keyless_fs : filesystem :=
  {[ ["/"; "srv"; "btc"; ".env"] := File full_dotenv ]}.

(** ** Predicates of the statements *)

(** The order of Python's [str]: lexicographic. *)
Definition str_lt (a b : string) : Prop := String.compare a b = Lt.
Definition str_le (a b : string) : Prop := String.leb a b = true.

Definition date_le (a b : record) : Prop := str_le (rec_date a) (rec_date b).
Definition date_lt (a b : record) : Prop := str_lt (rec_date a) (rec_date b).

(** The UTC calendar date of an epoch-millisecond timestamp: whole days
    since 1970-01-01, counted from that day's ordinal. *)
Definition MS_PER_DAY : Z := 86400000.
Definition utc_date_of_ms (ts_ms : Z) : date :=
  ord2ymd (EPOCH_ORDINAL + ts_ms / MS_PER_DAY).

(** The timestamps whose UTC date lies in years 1..9999. *)
Definition MIN_TIMESTAMP_MS : Z := -62135596800000.
Definition MAX_TIMESTAMP_MS : Z := 253402300799999.
Definition timestamp_in_range (ts_ms : Z) : Prop :=
  MIN_TIMESTAMP_MS <= ts_ms <= MAX_TIMESTAMP_MS.

(** Python's [f == v] for a float [f]: numeric equality with another
    float (a NaN equals nothing), exact comparison with an [int] or a
    [bool], [False] against anything else. *)
Definition float_eq_Z (f : float) (z : Z) : bool :=
  match f with
  | F754_zero _ => z =? 0
  | F754_finite s m e =>
      let a := if s then - z else z in
      if 0 <=? e then a =? Z.pos m * 2 ^ e else a * 2 ^ (- e) =? Z.pos m
  | F754_infinity _ | F754_nan _ => false
  end.

Definition py_eq_float (f : float) (v : pyval) : bool :=
  match v with
  | PFloat g => float_eqb f g
  | PInt z => float_eq_Z f z
  | PBool b => float_eq_Z f (if b then 1 else 0)
  | PNone | PStr _ | PList _ | PDict _ => false
  end.

Section RowSpec.
Context {RT : PyRuntime}.

(** What the loop body makes of a row: the row is a dict; [timestamp_ms]
    is [int] of its timestamp, [date] the ISO form of the UTC day of that
    instant, [rhodl_ratio] is [float] of its ratio, and [price] is [float]
    of its price, or 0.0 without one. *)
Definition record_of_row (row : pyval) (r : record) : Prop :=
  exists d ts ratio,
    row = PDict d /\
    dict_lookup "timestamp" d = Some ts /\
    py_int ts = Ok (timestamp_ms r) /\
    timestamp_in_range (timestamp_ms r) /\
    rec_date r = isoformat (utc_date_of_ms (timestamp_ms r)) /\
    dict_lookup "rhodl_ratio" d = Some ratio /\
    py_float ratio = Ok (rhodl_ratio r) /\
    match dict_lookup "price" d with
    | Some p => py_float p = Ok (price r)
    | None => price r = float_zero
    end.

(** The rows the loop body accepts. *)
Definition row_convertible (row : pyval) : Prop :=
  exists d ts ts_ms ratio,
    row = PDict d /\
    dict_lookup "timestamp" d = Some ts /\
    py_int ts = Ok ts_ms /\
    timestamp_in_range ts_ms /\
    dict_lookup "rhodl_ratio" d = Some ratio /\
    returns (py_float ratio) /\
    forall p, dict_lookup "price" d = Some p -> returns (py_float p).

(** Rows whose timestamp and ratio alone convert. *)
Definition timestamp_ratio_convertible (row : pyval) : Prop :=
  exists ts ratio,
    py_getitem row "timestamp" = Ok ts /\ returns (py_int ts) /\
    py_getitem row "rhodl_ratio" = Ok ratio /\ returns (py_float ratio).
End RowSpec.

(** The exceptions a row can raise in the loop body. *)
Definition row_level_error (e : exn) : Prop :=
  e = KeyError "timestamp" \/ e = KeyError "rhodl_ratio" \/ e = TypeError
  \/ e = ValueError \/ e = OverflowError \/ e = DateRangeError.

(** The error text of a failed GET, [None] for a document. *)
Definition failure (r : reply) : option string :=
  match r with
  | ConnectionFailed err | BadStatus err | BadBody err => Some err
  | Document _ => None
  end.

(** The GET of [fetch_rhodl_json] with the default timeout. *)
Definition default_get (api_key : string) : event :=
  EvGet API_URL
    [("accept", "application/json"); ("CG-API-KEY", api_key);
     ("User-Agent", "rhodl-fetch/1.0")]
    DEFAULT_TIMEOUT.

(** [1.5 * attempt] seconds. *)
Definition backoff (attempt : Z) : Q := ((15 # 10) * inject_Z attempt)%Q.

(** The run of [fetch_rhodl_json] with its default arguments. *)
Definition fetch_default (api_key : string) (n : net) : result pyval * net :=
  fetch_rhodl_json api_key DEFAULT_MAX_RETRIES DEFAULT_TIMEOUT n.

(** The cell that results from sending one value to it. *)
Definition put_input (i : option cell_input) (c : cell_data) : cell_data :=
  match i with
  | Some (Put x) => set_value x c
  | Some Skip | None => c
  end.

(** The cell at [rc] after [values] went to the block whose top left
    corner is [(r0, c0)]. *)
Definition written (r0 c0 : nat) (values : list (list pyval)) (g : grid)
    (rc : nat * nat) : cell_data :=
  match data_at r0 c0 values rc with
  | Some v => put_input (cell_input_of v) (cell_at g rc)
  | None => cell_at g rc
  end.

(** What [RAW] input makes of a string. *)
Definition text_value (s : string) : option extended_value :=
  if decide (s = "") then None else Some (StringValue s).

(** The sheet [id] of [ss] with its cells replaced by [g]. *)
Definition with_cells (ss : spreadsheet) (id : Z) (sh : sheet) (g : grid) : spreadsheet :=
  <[id := {| sheet_title := sheet_title sh; sheet_cells := g |}]> ss.

(** The dates a date column already lists: its non-empty cells below the
    first one. *)
Definition present_dates (existing : list string) : gset string :=
  list_to_set (filter (fun x => x <> "") (tail existing)).

(** The header in the first row of A and B. *)
Definition header_cell (rc : nat * nat) (c : cell_data) : cell_data :=
  if decide (rc = (0, 0)%nat) then set_value (Some (StringValue "Date")) c
  else if decide (rc = (0, 1)%nat) then set_value (Some (StringValue "RHODL Ratio")) c
  else c.

(** [a is b], where the values show it: the same NaN object. *)
Definition same_nan (a b : pyval) : bool :=
  match a, b with
  | PFloat (F754_nan o), PFloat (F754_nan o') => same_object o o'
  | _, _ => false
  end.

(** Python's [a == b] on the values of a JSON document: numbers compare
    by value across [bool], [int] and [float], a NaN equals nothing,
    lists compare item by item, dicts key by key whatever their order.
    An item of a list or a dict that is the same object as its
    counterpart is equal to it without [==] being asked, which only a
    NaN can tell from [==]. *)
Fixpoint py_eq (a b : pyval) : bool :=
  match a, b with
  | PNone, PNone => true
  | PStr s, PStr t => String.eqb s t
  | PBool x, PBool y => Bool.eqb x y
  | PBool x, PInt z | PInt z, PBool x => z =? (if x then 1 else 0)
  | PInt x, PInt y => x =? y
  | PFloat f, (PFloat _ | PInt _ | PBool _) => py_eq_float f b
  | (PInt _ | PBool _), PFloat g => py_eq_float g a
  | PList l, PList l' =>
      (fix eq_items (l l' : list pyval) : bool :=
         match l, l' with
         | [], [] => true
         | x :: l, y :: l' => (same_nan x y || py_eq x y) && eq_items l l'
         | _, _ => false
         end) l l'
  | PDict d, PDict d' =>
      (length d =? length d')%nat
      && forallb (fun kv : string * pyval =>
                    match dict_lookup kv.1 d' with
                    | Some v' => same_nan kv.2 v' || py_eq kv.2 v'
                    | None => false
                    end) d
  | _, _ => false
  end.

(** What [json.loads] makes of the text [json.dump] wrote for a float:
    the float, and for a NaN the NaN object of [json]. *)
Definition loaded_float (f : float) : float :=
  match f with
  | F754_nan _ => F754_nan json_NaN
  | _ => f
  end.

Definition loaded_record (r : record) : record :=
  {| rec_date := rec_date r;
     rhodl_ratio := loaded_float (rhodl_ratio r);
     price := loaded_float (price r);
     timestamp_ms := timestamp_ms r |}.

(** A float that is no NaN object other than the one of [json]. *)
Definition json_nan_only (f : float) : bool :=
  match f with
  | F754_nan (NaN_object _) => false
  | _ => true
  end.

(** A number or constant the decoder takes as one token. *)
Definition bare_token (tok : string) : bool :=
  match tok with
  | EmptyString => false
  | String _ _ => all_chars is_bare tok
  end.

Section ReadBack.
Context {RT : PyRuntime}.

(** The text [json.dump] writes for the float is read back as the
    float: it is a number (or constant) of the grammar, and [float] of it
    is the float.  This is how CPython's [repr] and [float] go together
    on a finite float; an infinity and a NaN are written as constants
    and need nothing of [repr]. *)
Definition reads_back (f : float) : Prop :=
  bare_token (json_float f) = true
  /\ classify (json_float f) = Some (PFloat (loaded_float f)).

Definition record_reads_back (r : record) : Prop :=
  reads_back (rhodl_ratio r) /\ reads_back (price r).
End ReadBack.

(** No ratio and no price is a NaN object other than the one of [json]. *)
Definition nans_from_json (r : record) : Prop :=
  json_nan_only (rhodl_ratio r) = true /\ json_nan_only (price r) = true.

(** The ratio can go into a request. *)
Definition ratio_finite (r : record) : Prop := is_finite (rhodl_ratio r) = true.

(** A decimal numeral with a first digit, which is not 0. *)
Definition lead_nonzero (u : Decimal.uint) : Prop :=
  match u with
  | Decimal.Nil | Decimal.D0 _ => False
  | _ => True
  end.

(** ** The calendar *)

(** The UTC day number of a record: whole days since 1970-01-01. *)
Definition utc_day (r : record) : Z := timestamp_ms r / MS_PER_DAY.
Definition day_lt (a b : record) : Prop := utc_day a < utc_day b.

(** The month and day of day [n] (from 0) of a year: the last steps of
    [ord2ymd]. *)
Definition month_day (leapyear : bool) (n : Z) : Z * Z :=
  let m := (n + 50) / 32 in
  let preceding := DAYS_BEFORE_MONTH m + (if (2 <? m) && leapyear then 1 else 0) in
  if n <? preceding then
    let m' := m - 1 in
    let preceding' :=
      preceding - (DAYS_IN_MONTH m' + (if (m' =? 2) && leapyear then 1 else 0)) in
    (m', n - preceding' + 1)
  else (m, n - preceding + 1).

Definition year_days (leapyear : bool) : Z := if leapyear then 366 else 365.

(** A date as the number yyyymmdd, and a month and day as mmdd. *)
Definition date_key (d : date) : Z := year d * 10000 + month d * 100 + day d.
Definition month_day_key (leapyear : bool) (n : Z) : Z :=
  (month_day leapyear n).1 * 100 + (month_day leapyear n).2.

Definition month_day_ok (leapyear : bool) (n : Z) : bool :=
  let md := month_day leapyear n in
  (1 <=? md.1) && (md.1 <=? 12) && (1 <=? md.2) && (md.2 <=? 31)
  && ((year_days leapyear <=? n + 1)
      || (month_day_key leapyear n <? month_day_key leapyear (n + 1))).

Definition valid_date (d : date) : Prop :=
  1 <= year d <= 9999 /\ 1 <= month d <= 12 /\ 1 <= day d <= 31.

(** Case analysis on the integer tests of a goal, and the month and day
    of the days that occur in it ([spec] is the table's lemma). *)
Ltac eqb_cases :=
  repeat match goal with
         | |- context [Z.eqb ?a ?b] => destruct (Z.eqb_spec a b); try lia
         end.

Ltac month_day_values :=
  repeat match goal with
         | |- context [month_day ?l ?r] =>
             lazymatch l with true => idtac | false => idtac end;
             lazymatch r with Z0 => idtac | Zpos _ => idtac end;
             let v := eval vm_compute in (month_day l r) in
             change (month_day l r) with v
         end.

Ltac month_day_facts spec :=
  repeat match goal with
         | |- context [month_day ?l ?r] =>
             lazymatch goal with
             | _ : 0 <= r < year_days l -> _ |- _ => fail
             | _ => pose proof (spec l r)
             end
         end.

Ltac finish_step spec :=
  unfold date_key; eqb_cases; cbn [orb andb negb year month day];
  month_day_values; cbn [fst snd];
  month_day_facts spec; unfold month_day_key, year_days in *; lia.

(** ** Predicates of the further properties *)

(** The GET of [fetch_rhodl_json] with a timeout of one's own. *)
Definition get_event (api_key : string) (timeout : Z) : event :=
  EvGet API_URL
    [("accept", "application/json"); ("CG-API-KEY", api_key);
     ("User-Agent", "rhodl-fetch/1.0")]
    timeout.

(** [k] GETs that fail, each followed by its pause: attempts [first],
    [first + 1], ... *)
Fixpoint retries (get : event) (first : Z) (k : nat) : list event :=
  match k with
  | O => []
  | S k' => get :: EvSleep (backoff first) :: retries get (first + 1) k'
  end.

(** The directories above a path: its first [k] components, for [k] from
    1 to one less than its length. *)
Definition ancestor (q p : path) : Prop :=
  exists k : nat, (1 <= k < length p)%nat /\ q = take k p.

(** A file system in which whatever exists lies in directories. *)
Definition tree (fs : filesystem) : Prop :=
  forall p, is_Some (fs !! p) -> forall q, ancestor q p -> fs !! q = Some Dir.

(** A value that [RAW] input stores in its cell (or empties the cell
    with), as opposed to one that leaves the cell alone. *)
Definition puts (v : pyval) : Prop := exists x, cell_input_of v = Some (Put x).

(** A grid that holds no value (formats and notes it may hold). *)
Definition valueless (g : grid) : Prop :=
  forall rc, userEnteredValue (cell_at g rc) = None.

(** The sheet of a worksheet object lists a date in column A, below the
    first row. *)
Definition lists_date {SV : SheetsService} (ss : spreadsheet) (ws : Worksheet)
    (d : string) : Prop :=
  exists sh, ss !! ws_id ws = Some sh
             /\ d ∈ present_dates (column_values 0 (sheet_cells sh)).

(** No two sheets of the spreadsheet have the same title (the service
    refuses a second sheet of a title). *)
Definition unique_titles (ss : spreadsheet) : Prop :=
  forall id1 id2 sh1 sh2,
    ss !! id1 = Some sh1 -> ss !! id2 = Some sh2 ->
    sheet_title sh1 = sheet_title sh2 -> id1 = id2.

(** The text [save_json] writes for a record list. *)
Definition records_json {RT : PyRuntime} (records : list record) : string :=
  json_dumps (PList (map record_to_py records)).

(** The variables [load_env] asks for, in the order it lists them. *)
Definition REQUIRED : list string :=
  ["COINGLASS_API_KEY"; "GOOGLE_SHEET_ID"; "GOOGLE_SERVICE_ACCOUNT"].

(** The environment after [load_dotenv] has read the file at [p]. *)
Definition loaded_env {DE : DotEnvLib} (p : path) (fs : filesystem) (env : environ)
  : environ :=
  (load_dotenv p fs env).2.

(** The required variables that are unset or empty. *)
Definition missing_in (env : environ) : list string :=
  filter (fun k => truthy (env !! k) = false) REQUIRED.

(** * Properties *)

(** ** The order on [str] *)

Lemma ascii_compare_refl (c : ascii) : Ascii.compare c c = Eq.
Proof. unfold Ascii.compare. apply N.compare_refl. Qed.

Lemma ascii_compare_lt_trans (a b c : ascii) :
  Ascii.compare a b = Lt -> Ascii.compare b c = Lt -> Ascii.compare a c = Lt.
Proof.
  unfold Ascii.compare. rewrite !N.compare_lt_iff. intros. etransitivity; eassumption.
Qed.

Lemma str_compare_refl (s : string) : String.compare s s = Eq.
Proof.
  induction s as [|c s IH]; simpl; [reflexivity|].
  now rewrite ascii_compare_refl.
Qed.

Lemma str_lt_trans (a b c : string) : str_lt a b -> str_lt b c -> str_lt a c.
Proof.
  unfold str_lt. revert b c.
  induction a as [|x a IH]; intros [|y b] [|z c]; simpl; try congruence.
  destruct (Ascii.compare x y) eqn:Hxy; try discriminate;
    destruct (Ascii.compare y z) eqn:Hyz; try discriminate; intros H1 H2.
  - apply Ascii.compare_eq_iff in Hxy, Hyz. subst.
    rewrite ascii_compare_refl. eauto.
  - apply Ascii.compare_eq_iff in Hxy. subst. now rewrite Hyz.
  - apply Ascii.compare_eq_iff in Hyz. subst. now rewrite Hxy.
  - now rewrite (ascii_compare_lt_trans _ _ _ Hxy Hyz).
Qed.

Lemma str_lt_irrefl (a : string) : ~ str_lt a a.
Proof. unfold str_lt. now rewrite str_compare_refl. Qed.

Lemma str_le_lt_or_eq (a b : string) : str_le a b <-> str_lt a b \/ a = b.
Proof.
  unfold str_le, str_lt, String.leb. split.
  - destruct (String.compare a b) eqn:E; try discriminate; auto.
    right. now apply String.compare_eq_iff.
  - intros [-> | ->]; [reflexivity|]. now rewrite str_compare_refl.
Qed.

Lemma str_not_le_lt (a b : string) : String.leb a b = false -> str_lt b a.
Proof.
  unfold String.leb, str_lt. rewrite (String.compare_antisym b a).
  destruct (String.compare a b); simpl; congruence.
Qed.

Lemma str_le_trans (a b c : string) : str_le a b -> str_le b c -> str_le a c.
Proof.
  rewrite !str_le_lt_or_eq. intros [H1 | ->] [H2 | ->]; auto.
  left. eapply str_lt_trans; eassumption.
Qed.

Lemma str_lt_le_trans (a b c : string) : str_lt a b -> str_le b c -> str_lt a c.
Proof.
  rewrite str_le_lt_or_eq. intros H1 [H2 | ->]; auto.
  eapply str_lt_trans; eassumption.
Qed.

Lemma str_lt_ne (a b : string) : str_lt a b -> a <> b.
Proof. intros H ->. exact (str_lt_irrefl _ H). Qed.

Lemma str_eqb_true (a b : string) : (a =? b)%string = true <-> a = b.
Proof. apply String.eqb_eq. Qed.

(** ** The stable sort *)

Lemma insert_by_date_perm r l : Permutation (insert_by_date r l) (r :: l).
Proof.
  induction l as [|x l IH]; simpl; [reflexivity|].
  destruct (String.leb _ _); [reflexivity|].
  rewrite IH. apply perm_swap.
Qed.

Lemma sort_by_date_perm l : Permutation (sort_by_date l) l.
Proof.
  induction l as [|x l IH]; simpl; [reflexivity|].
  rewrite insert_by_date_perm. now constructor.
Qed.

Lemma insert_by_date_sorted r l :
  StronglySorted date_le l -> StronglySorted date_le (insert_by_date r l).
Proof.
  induction 1 as [|x l Hs IH Hx]; simpl.
  - repeat constructor.
  - destruct (String.leb (rec_date r) (rec_date x)) eqn:E.
    + constructor; [now constructor|]. constructor; [exact E|].
      eapply Forall_impl; [exact Hx|]. intros y Hy. simpl in Hy.
      eapply str_le_trans; [exact E | exact Hy].
    + constructor; [exact IH|].
      rewrite (insert_by_date_perm r l).
      constructor; [|exact Hx].
      apply str_le_lt_or_eq. left. now apply str_not_le_lt.
Qed.

Lemma sort_by_date_sorted l : StronglySorted date_le (sort_by_date l).
Proof.
  induction l as [|x l IH]; simpl; [constructor|].
  now apply insert_by_date_sorted.
Qed.

(** Stability: the records of one date keep their relative order. *)
Lemma insert_by_date_filter d r l :
  filter (fun x => rec_date x = d) (insert_by_date r l)
  = filter (fun x => rec_date x = d) (r :: l).
Proof.
  induction l as [|x l IH]; simpl; [reflexivity|].
  destruct (String.leb (rec_date r) (rec_date x)) eqn:E; [reflexivity|].
  rewrite filter_cons, IH, !filter_cons.
  apply str_not_le_lt, str_lt_ne in E.
  repeat case_decide; congruence.
Qed.

Lemma sort_by_date_stable d l :
  filter (fun x => rec_date x = d) (sort_by_date l)
  = filter (fun x => rec_date x = d) l.
Proof.
  induction l as [|x l IH]; simpl; [reflexivity|].
  rewrite insert_by_date_filter, !filter_cons, IH. reflexivity.
Qed.

(** ** The date-keyed dict *)

Lemma dict_lookup_setitem {V} k k' (v : V) d :
  dict_lookup k' (dict_setitem k v d)
  = if decide (k = k') then Some v else dict_lookup k' d.
Proof.
  induction d as [|[k0 v0] d IH]; simpl.
  - destruct (String.eqb_spec k k'); case_decide; congruence.
  - destruct (String.eqb_spec k0 k) as [->|Hne]; simpl.
    + destruct (String.eqb_spec k k'); case_decide; congruence.
    + rewrite IH. destruct (String.eqb_spec k0 k'); case_decide; congruence.
Qed.

Lemma dict_setitem_keys {V} k (v : V) d k' :
  k' ∈ (dict_setitem k v d).*1 <-> k' = k \/ k' ∈ d.*1.
Proof.
  induction d as [|[k0 v0] d IH]; simpl.
  - rewrite list_elem_of_singleton, elem_of_nil. tauto.
  - destruct (String.eqb_spec k0 k) as [->|Hne]; simpl.
    + rewrite !elem_of_cons. tauto.
    + rewrite !elem_of_cons, IH. tauto.
Qed.

Lemma dict_setitem_elem {V} k (v : V) d k' v' :
  (k', v') ∈ dict_setitem k v d -> (k' = k /\ v' = v) \/ (k', v') ∈ d.
Proof.
  induction d as [|[k0 v0] d IH]; simpl.
  - rewrite list_elem_of_singleton. intros [= -> ->]. auto.
  - destruct (String.eqb_spec k0 k) as [->|Hne]; rewrite !elem_of_cons.
    + intros [[= -> ->] | H]; auto.
    + intros [[= -> ->] | H]; auto. destruct (IH H); auto.
Qed.

(** Putting a key that is not below any present key keeps the keys in
    strictly ascending order. *)
Lemma dict_setitem_sorted {V} k (v : V) d :
  StronglySorted str_lt d.*1 -> Forall (fun k' => str_le k' k) d.*1 ->
  StronglySorted str_lt (dict_setitem k v d).*1.
Proof.
  induction d as [|[k0 v0] d IH]; simpl; intros Hs Hle.
  - repeat constructor.
  - apply StronglySorted_inv in Hs as [Hs H0]. apply Forall_cons in Hle as [Hk0 Hle].
    destruct (String.eqb_spec k0 k) as [->|Hne]; simpl.
    + now constructor.
    + constructor; [now apply IH|].
      apply Forall_forall. intros k' Hk'. apply dict_setitem_keys in Hk' as [->|Hk'].
      * apply str_le_lt_or_eq in Hk0 as [?| ?]; [assumption | contradiction].
      * rewrite Forall_forall in H0. now apply H0.
Qed.

Lemma dict_fold_sorted l acc :
  StronglySorted date_le l ->
  StronglySorted str_lt acc.*1 ->
  (forall k r, k ∈ acc.*1 -> r ∈ l -> str_le k (rec_date r)) ->
  StronglySorted str_lt (fold_left dict_step l acc).*1.
Proof.
  revert acc. induction l as [|r l IH]; simpl; intros acc Hl Hacc Hle; [assumption|].
  apply StronglySorted_inv in Hl as [Hl Hr].
  apply IH; [assumption| |].
  - apply dict_setitem_sorted; [assumption|].
    apply Forall_forall. intros k Hk. apply Hle; [assumption | left].
  - intros k x Hk Hx. apply dict_setitem_keys in Hk as [->|Hk].
    + rewrite Forall_forall in Hr. now apply Hr.
    + apply Hle; [assumption | now right].
Qed.

(** Every entry is keyed by the date of its record. *)
Lemma dict_fold_keyed l acc :
  Forall (fun kv => kv.1 = rec_date kv.2) acc ->
  Forall (fun kv => kv.1 = rec_date kv.2) (fold_left dict_step l acc).
Proof.
  revert acc. induction l as [|r l IH]; simpl; intros acc Hacc; [assumption|].
  apply IH. apply Forall_forall. intros [k v] Hkv.
  apply dict_setitem_elem in Hkv as [[-> ->] | Hkv]; [reflexivity|].
  rewrite Forall_forall in Hacc. now apply (Hacc (k, v)).
Qed.

(** The entry of a date is the last record of that date. *)
Lemma dict_fold_lookup d l acc :
  dict_lookup d (fold_left dict_step l acc)
  = match last (filter (fun x => rec_date x = d) l) with
    | Some r => Some r
    | None => dict_lookup d acc
    end.
Proof.
  revert acc. induction l as [|r l IH]; simpl; intros acc; [reflexivity|].
  rewrite IH. unfold dict_step. rewrite dict_lookup_setitem, filter_cons.
  case_decide as Hd.
  - rewrite last_cons. now destruct (last _).
  - reflexivity.
Qed.

Lemma dict_lookup_elem {V} k (v : V) d : dict_lookup k d = Some v -> (k, v) ∈ d.
Proof.
  induction d as [|[k0 v0] d IH]; simpl; [discriminate|].
  destruct (String.eqb_spec k0 k) as [->|Hne].
  - intros [= ->]. left.
  - intros H. right. auto.
Qed.

Lemma dict_elem_lookup {V} k (v : V) d :
  NoDup d.*1 -> (k, v) ∈ d -> dict_lookup k d = Some v.
Proof.
  induction d as [|[k0 v0] d IH]; simpl; intros Hnd Hin.
  - now apply elem_of_nil in Hin.
  - apply NoDup_cons in Hnd as [Hk0 Hnd]. apply elem_of_cons in Hin as [[= -> ->]|Hin].
    + now rewrite String.eqb_refl.
    + destruct (String.eqb_spec k0 k) as [->|Hne]; [|auto].
      exfalso. apply Hk0. apply list_elem_of_fmap. exists (k, v). auto.
Qed.

Lemma StronglySorted_str_lt_NoDup (l : list string) : StronglySorted str_lt l -> NoDup l.
Proof.
  induction 1 as [|x l Hs IH Hx]; constructor; [|assumption].
  intros Hin. rewrite Forall_forall in Hx. exact (str_lt_irrefl _ (Hx _ Hin)).
Qed.

Lemma StronglySorted_rec_date l :
  StronglySorted str_lt (map rec_date l) -> StronglySorted date_lt l.
Proof.
  induction l as [|x l IH]; simpl; intros H; [constructor|].
  apply StronglySorted_inv in H as [Hs Hx]. constructor; [auto|].
  apply Forall_forall. intros y Hy. rewrite Forall_forall in Hx.
  apply Hx. apply list_elem_of_fmap. eauto.
Qed.

Lemma dict_values_dates (d : list (string * record)) :
  Forall (fun kv => kv.1 = rec_date kv.2) d -> map rec_date (dict_values d) = d.*1.
Proof.
  induction 1 as [|[k v] d Hkv Hd IH]; simpl in *; [reflexivity|].
  now rewrite IH, Hkv.
Qed.

Lemma dict_by_date_sorted l :
  StronglySorted str_lt (dict_by_date (sort_by_date l)).*1.
Proof.
  apply dict_fold_sorted.
  - apply sort_by_date_sorted.
  - constructor.
  - intros k r Hk. now apply elem_of_nil in Hk.
Qed.

Lemma dict_by_date_dates l :
  map rec_date (dict_values (dict_by_date l)) = (dict_by_date l).*1.
Proof. apply dict_values_dates, dict_fold_keyed. constructor. Qed.

(** The records kept are, date by date, the last one of the input list. *)
Lemma dedup_keeps_last l r :
  r ∈ dict_values (dict_by_date (sort_by_date l))
  <-> last (filter (fun x => rec_date x = rec_date r) l) = Some r.
Proof.
  pose proof (dict_by_date_sorted l) as Hs.
  apply StronglySorted_str_lt_NoDup in Hs.
  assert (Hk : Forall (fun kv => kv.1 = rec_date kv.2) (dict_by_date (sort_by_date l)))
    by (apply dict_fold_keyed; constructor).
  assert (Hl : forall d, dict_lookup d (dict_by_date (sort_by_date l))
               = last (filter (fun x => rec_date x = d) l)).
  { intros d. unfold dict_by_date. rewrite dict_fold_lookup, sort_by_date_stable.
    now destruct (last _). }
  rewrite <- Hl. unfold dict_values. split.
  - intros Hin. apply list_elem_of_fmap in Hin as [[k v] [-> Hin]]. simpl.
    rewrite Forall_forall in Hk. pose proof (Hk _ Hin) as E. simpl in E.
    rewrite <- E.
    now apply dict_elem_lookup.
  - intros Hin. apply dict_lookup_elem in Hin.
    apply list_elem_of_fmap. now exists (rec_date r, r).
Qed.

Lemma filter_none {A} (P : A -> Prop) `{!forall x, Decision (P x)} (l : list A) :
  (forall y, y ∈ l -> ~ P y) -> filter P l = [].
Proof.
  induction l as [|x l IH]; intros Hn; [reflexivity|].
  rewrite filter_cons_False by (apply Hn; left).
  apply IH. intros y Hy. apply Hn. now right.
Qed.

Lemma last_filter_lookup {A} (P : A -> Prop) `{!forall x, Decision (P x)} (l : list A) j x :
  l !! j = Some x -> P x ->
  (forall k y, (j < k)%nat -> l !! k = Some y -> ~ P y) ->
  last (filter P l) = Some x.
Proof.
  intros Hj HP Hlast.
  rewrite <- (take_drop_middle l j x Hj), filter_app, filter_cons_True by assumption.
  rewrite (filter_none P (drop (S j) l)).
  - apply last_snoc.
  - intros y Hy. apply list_elem_of_lookup in Hy as [i Hi].
    rewrite lookup_drop in Hi. eapply Hlast; [|exact Hi]. lia.
Qed.

Lemma last_filter_lookup_inv {A} (P : A -> Prop) `{!forall x, Decision (P x)} (l : list A) x :
  last (filter P l) = Some x ->
  exists j : nat, l !! j = Some x /\ P x /\
    forall k y, (j < k)%nat -> l !! k = Some y -> ~ P y.
Proof.
  induction l as [|a l IH] using rev_ind; [discriminate|].
  rewrite filter_app, filter_cons, filter_nil. case_decide as Ha.
  - rewrite last_snoc. intros [= ->]. exists (length l). split; [|split; [assumption|]].
    + now rewrite lookup_app_r, Nat.sub_diag by lia.
    + intros k y Hk Hy. apply lookup_lt_Some in Hy. rewrite length_app in Hy. simpl in Hy. lia.
  - rewrite app_nil_r. intros Hl. destruct (IH Hl) as (j & Hj & HP & Hlast).
    exists j. split; [|split; [assumption|]].
    + rewrite lookup_app_l; [assumption|]. now apply lookup_lt_Some in Hj.
    + intros k y Hk Hy. destruct (decide (k < length l)%nat) as [Hlt|Hge].
      * rewrite lookup_app_l in Hy by assumption. eauto.
      * rewrite lookup_app_r in Hy by lia.
        destruct (k - length l)%nat; simpl in Hy; [|discriminate].
        now injection Hy as <-.
Qed.

(** ** normalize: the loop and the dict *)

Section NormalizeFacts.
Context {RT : PyRuntime}.

Lemma rows_to_records_lookup rows recs :
  rows_to_records rows = Ok recs ->
  forall j r, recs !! j = Some r
    <-> exists row, rows !! j = Some row /\ row_to_record row = Ok r.
Proof.
  revert recs. induction rows as [|row rows IH]; simpl; intros recs H.
  - injection H as <-. intros j r. split; [discriminate|]. now intros (? & ? & _).
  - destruct (row_to_record row) as [r0|] eqn:E0; simpl in H; [|discriminate].
    destruct (rows_to_records rows) as [out|] eqn:E; simpl in H; [|discriminate].
    injection H as <-. intros [|j] r; simpl.
    + split; [intros [= ->]; eauto | intros (? & [= <-] & ?); congruence].
    + now apply IH.
Qed.

Lemma normalize_inv rows out :
  normalize rows = Ok out ->
  exists recs, rows_to_records rows = Ok recs
    /\ out = dict_values (dict_by_date (sort_by_date recs)).
Proof.
  unfold normalize. destruct (rows_to_records rows) as [recs|]; simpl; [|discriminate].
  intros [= <-]. eauto.
Qed.
End NormalizeFacts.

(** ** The calendar: ISO dates sort as days do *)

Lemma month_day_table (leapyear : bool) :
  forallb (fun k => month_day_ok leapyear (Z.of_nat k))
          (seq 0 (Z.to_nat (year_days leapyear))) = true.
Proof. destruct leapyear; vm_compute; reflexivity. Qed.

Lemma month_day_spec (leapyear : bool) (n : Z) :
  0 <= n < year_days leapyear ->
  1 <= (month_day leapyear n).1 <= 12 /\ 1 <= (month_day leapyear n).2 <= 31
  /\ (n + 1 < year_days leapyear ->
      month_day_key leapyear n < month_day_key leapyear (n + 1)).
Proof.
  intros Hn. pose proof (month_day_table leapyear) as Ht.
  rewrite forallb_forall in Ht. specialize (Ht (Z.to_nat n)).
  rewrite Z2Nat.id in Ht by lia.
  assert (Hin : In (Z.to_nat n) (seq 0 (Z.to_nat (year_days leapyear))))
    by (apply in_seq; lia).
  apply Ht in Hin. unfold month_day_ok in Hin.
  rewrite !andb_true_iff, orb_true_iff, !Z.leb_le, Z.ltb_lt in Hin. lia.
Qed.

Lemma ord2ymd_eq (o : Z) :
  let n := o - 1 in
  let n400 := n / DI400Y in
  let n100 := (n mod DI400Y) / DI100Y in
  let n4 := ((n mod DI400Y) mod DI100Y) / DI4Y in
  let n1 := (((n mod DI400Y) mod DI100Y) mod DI4Y) / 365 in
  let r := (((n mod DI400Y) mod DI100Y) mod DI4Y) mod 365 in
  let y := n400 * 400 + 1 + n100 * 100 + n4 * 4 + n1 in
  let leapyear := (n1 =? 3) && (negb (n4 =? 24) || (n100 =? 3)) in
  ord2ymd o
  = if (n1 =? 4) || (n100 =? 4) then {| year := y - 1; month := 12; day := 31 |}
    else {| year := y; month := (month_day leapyear r).1; day := (month_day leapyear r).2 |}.
Proof.
  cbv zeta. unfold ord2ymd, month_day. cbv zeta.
  repeat match goal with |- context [if ?b then _ else _] => destruct b end; reflexivity.
Qed.

Lemma div_mod_succ (d n : Z) :
  0 < d ->
  ((n + 1) / d = n / d /\ (n + 1) mod d = n mod d + 1 /\ n mod d + 1 < d)
  \/ ((n + 1) / d = n / d + 1 /\ (n + 1) mod d = 0 /\ n mod d = d - 1).
Proof.
  intros Hd.
  pose proof (Z.div_mod n d ltac:(lia)) as Hn.
  pose proof (Z.mod_pos_bound n d Hd) as Hr.
  destruct (Z.eq_dec (n mod d) (d - 1)) as [He|Hne].
  - right. assert (Hq : n + 1 = (n / d + 1) * d) by lia.
    rewrite Hq. rewrite Z.div_mul, Z.mod_mul by lia. auto.
  - left. assert (Hq : n + 1 = d * (n / d) + (n mod d + 1)) by lia.
    split; [|split; [|lia]]; symmetry.
    + apply (Z.div_unique_pos _ _ _ (n mod d + 1)); lia.
    + apply (Z.mod_unique_pos _ _ (n / d)); lia.
Qed.

Lemma ord2ymd_succ (o : Z) :
  1 <= o ->
  1 <= month (ord2ymd o) <= 12 /\ 1 <= day (ord2ymd o) <= 31
  /\ date_key (ord2ymd o) < date_key (ord2ymd (o + 1)).
Proof.
  intros Ho. rewrite (ord2ymd_eq o), (ord2ymd_eq (o + 1)). cbv zeta.
  replace (o + 1 - 1) with (o - 1 + 1) by lia.
  assert (Hn : 0 <= o - 1) by lia. revert Hn. generalize (o - 1). clear o Ho. intros n Hn.
  pose proof (Z.div_mod n DI400Y ltac:(discriminate)) as E1.
  pose proof (Z.mod_pos_bound n DI400Y eq_refl) as B1.
  destruct (div_mod_succ DI400Y n eq_refl) as [[Q1 [R1 N1]]|[Q1 [R1 R1']]]; rewrite Q1, R1;
    clear Q1 R1; set (q := n / DI400Y) in *; set (r1 := n mod DI400Y) in *;
    clearbody q r1.
  2: { subst r1. rewrite !Zmod_0_l, !Zdiv_0_l.
       change ((DI400Y - 1) / DI100Y) with 4. change ((DI400Y - 1) mod DI100Y) with 0.
       rewrite ?Zmod_0_l, ?Zdiv_0_l. unfold date_key. cbn.
       change (month_day false 0) with (1, 1). cbn [fst snd]. lia. }
  pose proof (Z.div_mod r1 DI100Y ltac:(discriminate)) as E2.
  pose proof (Z.mod_pos_bound r1 DI100Y eq_refl) as B2.
  destruct (div_mod_succ DI100Y r1 eq_refl) as [[Q2 [R2 N2]]|[Q2 [R2 R2']]]; rewrite Q2, R2;
    clear Q2 R2; set (a := r1 / DI100Y) in *; set (r2 := r1 mod DI100Y) in *;
    clearbody a r2.
  2: { subst r2. rewrite !Zmod_0_l, !Zdiv_0_l.
       change ((DI100Y - 1) / DI4Y) with 24.
       change (((DI100Y - 1) mod DI4Y) / 365) with 3.
       change (((DI100Y - 1) mod DI4Y) mod 365) with 364.
       unfold DI400Y, DI100Y in *. finish_step month_day_spec. }
  pose proof (Z.div_mod r2 DI4Y ltac:(discriminate)) as E3.
  pose proof (Z.mod_pos_bound r2 DI4Y eq_refl) as B3.
  destruct (div_mod_succ DI4Y r2 eq_refl) as [[Q3 [R3 N3]]|[Q3 [R3 R3']]]; rewrite Q3, R3;
    clear Q3 R3; set (b := r2 / DI4Y) in *; set (r3 := r2 mod DI4Y) in *;
    clearbody b r3.
  2: { subst r3. rewrite !Zmod_0_l, !Zdiv_0_l.
       change ((DI4Y - 1) / 365) with 4.
       change ((DI4Y - 1) mod 365) with 0.
       unfold DI400Y, DI100Y, DI4Y in *. finish_step month_day_spec. }
  pose proof (Z.div_mod r3 365 ltac:(discriminate)) as E4.
  pose proof (Z.mod_pos_bound r3 365 eq_refl) as B4.
  destruct (div_mod_succ 365 r3 eq_refl) as [[Q4 [R4 N4]]|[Q4 [R4 R4']]]; rewrite Q4, R4;
    clear Q4 R4; set (c := r3 / 365) in *; set (r := r3 mod 365) in *;
    clearbody c r; unfold DI400Y, DI100Y, DI4Y in *.
  2: { subst r. change (365 - 1) with 364 in *. finish_step month_day_spec. }
  finish_step month_day_spec.
Qed.

Lemma ord2ymd_mono (a b : Z) :
  1 <= a < b -> date_key (ord2ymd a) < date_key (ord2ymd b).
Proof.
  intros [Ha Hab]. replace b with (a + 1 + (b - a - 1)) by lia.
  assert (Hk : 0 <= b - a - 1) by lia. revert Hk. generalize (b - a - 1).
  apply natlike_ind.
  - rewrite Z.add_0_r. now apply ord2ymd_succ.
  - intros k Hk IH. replace (a + 1 + Z.succ k) with (a + 1 + k + 1) by lia.
    pose proof (ord2ymd_succ (a + 1 + k) ltac:(lia)). lia.
Qed.

Lemma ord2ymd_valid (o : Z) : 1 <= o <= MAXORDINAL -> valid_date (ord2ymd o).
Proof.
  intros Ho. pose proof (ord2ymd_succ o ltac:(lia)) as (Hm & Hd & _).
  unfold valid_date. split; [|tauto].
  assert (Hlo : date_key (ord2ymd 1) <= date_key (ord2ymd o)).
  { destruct (Z.eq_dec o 1) as [->|]; [lia|].
    pose proof (ord2ymd_mono 1 o ltac:(lia)). lia. }
  assert (Hhi : date_key (ord2ymd o) <= date_key (ord2ymd MAXORDINAL)).
  { destruct (Z.eq_dec o MAXORDINAL) as [->|]; [lia|].
    pose proof (ord2ymd_mono o MAXORDINAL ltac:(lia)). lia. }
  change (date_key (ord2ymd 1)) with 10101 in Hlo.
  change (date_key (ord2ymd MAXORDINAL)) with 99991231 in Hhi.
  unfold date_key in Hlo, Hhi. lia.
Qed.

Lemma digit_compare (a b : Z) :
  Ascii.compare (digit a) (digit b) = (a mod 10 ?= b mod 10).
Proof.
  unfold digit.
  pose proof (Z.mod_pos_bound a 10 eq_refl) as Ha.
  pose proof (Z.mod_pos_bound b 10 eq_refl) as Hb.
  generalize dependent (a mod 10). generalize dependent (b mod 10). intros y Hy x Hx.
  assert (Ex : x = 0 \/ x = 1 \/ x = 2 \/ x = 3 \/ x = 4 \/ x = 5 \/ x = 6 \/ x = 7
               \/ x = 8 \/ x = 9) by lia.
  assert (Ey : y = 0 \/ y = 1 \/ y = 2 \/ y = 3 \/ y = 4 \/ y = 5 \/ y = 6 \/ y = 7
               \/ y = 8 \/ y = 9) by lia.
  clear Hx Hy.
  repeat (destruct Ex as [->|Ex]); try subst x;
    repeat (destruct Ey as [->|Ey]); try subst y; reflexivity.
Qed.

Lemma isoformat_chars (d : date) :
  isoformat d
  = String (digit (year d / 1000)) (String (digit (year d / 100))
      (String (digit (year d / 10)) (String (digit (year d))
        (String "-" (String (digit (month d / 10)) (String (digit (month d))
          (String "-" (String (digit (day d / 10)) (String (digit (day d))
             EmptyString))))))))).
Proof. reflexivity. Qed.

Lemma decimal4 (y : Z) :
  0 <= y <= 9999 ->
  y = 1000 * ((y / 1000) mod 10) + 100 * ((y / 100) mod 10)
      + 10 * ((y / 10) mod 10) + y mod 10.
Proof. intros Hy. Z.to_euclidean_division_equations. lia. Qed.

Lemma decimal2 (v : Z) :
  0 <= v <= 99 -> v = 10 * ((v / 10) mod 10) + v mod 10.
Proof. intros Hv. Z.to_euclidean_division_equations. lia. Qed.

Lemma isoformat_lt (a b : date) :
  valid_date a -> valid_date b -> date_key a < date_key b ->
  str_lt (isoformat a) (isoformat b).
Proof.
  intros (Hya & Hma & Hda) (Hyb & Hmb & Hdb) Hlt.
  unfold str_lt. rewrite !isoformat_chars. cbn [String.compare].
  rewrite !digit_compare. change (Ascii.compare "-" "-") with Eq. cbv iota.
  unfold date_key in Hlt.
  pose proof (decimal4 (year a) ltac:(lia)) as Ea.
  pose proof (decimal4 (year b) ltac:(lia)) as Eb.
  pose proof (decimal2 (month a) ltac:(lia)) as Ema.
  pose proof (decimal2 (month b) ltac:(lia)) as Emb.
  pose proof (decimal2 (day a) ltac:(lia)) as Eda.
  pose proof (decimal2 (day b) ltac:(lia)) as Edb.
  repeat match goal with
         | |- context [?x mod 10] =>
             let H := fresh "Hb" in
             pose proof (Z.mod_pos_bound x 10 eq_refl) as H;
             generalize dependent (x mod 10); intros
         end.
  repeat match goal with
         | |- context [Z.compare ?x ?y] =>
             destruct (Z.compare_spec x y); [subst| reflexivity | exfalso; lia]
         end.
  exfalso. lia.
Qed.

Lemma timestamp_ordinal (ts : Z) :
  timestamp_in_range ts -> 1 <= EPOCH_ORDINAL + ts / MS_PER_DAY <= MAXORDINAL.
Proof.
  unfold timestamp_in_range, EPOCH_ORDINAL, MAXORDINAL, MS_PER_DAY,
    MIN_TIMESTAMP_MS, MAX_TIMESTAMP_MS.
  intros Hts.
  pose proof (Z.div_mod ts 86400000 ltac:(lia)) as Hdm.
  pose proof (Z.mod_pos_bound ts 86400000 ltac:(lia)) as Hm. lia.
Qed.

(** On the timestamps [fromtimestamp] accepts, the ISO date of one is
    below that of another, as strings, exactly when its day is earlier. *)
Lemma iso_order_is_day_order (t1 t2 : Z) :
  timestamp_in_range t1 -> timestamp_in_range t2 ->
  str_lt (isoformat (utc_date_of_ms t1)) (isoformat (utc_date_of_ms t2))
  <-> t1 / MS_PER_DAY < t2 / MS_PER_DAY.
Proof.
  intros H1%timestamp_ordinal H2%timestamp_ordinal. unfold utc_date_of_ms.
  assert (Hmono : forall a b, 1 <= a <= MAXORDINAL -> 1 <= b <= MAXORDINAL -> a < b ->
                    str_lt (isoformat (ord2ymd a)) (isoformat (ord2ymd b))).
  { intros a b Ha Hb Hab. apply isoformat_lt; try now apply ord2ymd_valid.
    apply ord2ymd_mono. lia. }
  split.
  - intros Hlt.
    destruct (Z.lt_trichotomy (t1 / MS_PER_DAY) (t2 / MS_PER_DAY)) as [Hd|[Hd|Hd]];
      [assumption| |].
    + rewrite Hd in Hlt. now apply str_lt_irrefl in Hlt.
    + exfalso. apply (str_lt_irrefl (isoformat (ord2ymd (EPOCH_ORDINAL + t1 / MS_PER_DAY)))).
      eapply str_lt_trans; [exact Hlt|]. apply Hmono; lia.
  - intros Hd. apply Hmono; lia.
Qed.

(** ** The record of a row *)

Lemma round_half_even_ms (ts : Z) :
  round_half_even (py_truediv ts 1000 * inject_Z 1000000)%Q = ts * 1000.
Proof.
  unfold round_half_even, py_truediv. cbn.
  change (Z.pos (1 * 1000 * 1)) with 1000.
  replace (ts * 1 * 1000000) with (ts * 1000 * 1000) by ring.
  rewrite Z.div_mul by lia.
  assert (E : ((inject_Z ts / inject_Z 1000 * inject_Z 1000000
                - inject_Z (ts * 1000) ?= 1 # 2)%Q) = Lt).
  { apply Qlt_alt.
    assert (Hz : (inject_Z ts / inject_Z 1000 * inject_Z 1000000
                  - inject_Z (ts * 1000) == 0)%Q).
    { unfold Qeq. cbn. lia. }
    rewrite Hz. reflexivity. }
  now rewrite E.
Qed.

Lemma timestamp_in_range_dec (ts : Z) :
  (MIN_TIMESTAMP_MS <=? ts) && (ts <=? MAX_TIMESTAMP_MS) = true <-> timestamp_in_range ts.
Proof. unfold timestamp_in_range. rewrite andb_true_iff, !Z.leb_le. tauto. Qed.

Section RecordFacts.
Context {RT : PyRuntime}.

(** With [tz=timezone.utc] the machine's own time zone plays no part. *)
Lemma fromtimestamp_utc_ms (ts : Z) :
  fromtimestamp (py_truediv ts 1000) (Some timezone_utc)
  = if (MIN_TIMESTAMP_MS <=? ts) && (ts <=? MAX_TIMESTAMP_MS)
    then Ok {| dt_date := utc_date_of_ms ts; dt_usec := (ts * 1000) mod US_PER_DAY |}
    else Raise DateRangeError.
Proof.
  unfold fromtimestamp. rewrite round_half_even_ms. cbn [timezone_utc].
  rewrite Z.add_0_r.
  assert (Hd : (ts * 1000) / US_PER_DAY = ts / MS_PER_DAY).
  { change US_PER_DAY with (MS_PER_DAY * 1000). apply Z.div_mul_cancel_r; discriminate. }
  rewrite Hd. unfold utc_date_of_ms.
  assert (Hr : (1 <=? EPOCH_ORDINAL + ts / MS_PER_DAY)
               && (EPOCH_ORDINAL + ts / MS_PER_DAY <=? MAXORDINAL)
          = (MIN_TIMESTAMP_MS <=? ts) && (ts <=? MAX_TIMESTAMP_MS)).
  { unfold EPOCH_ORDINAL, MAXORDINAL, MS_PER_DAY, MIN_TIMESTAMP_MS, MAX_TIMESTAMP_MS.
    pose proof (Z.div_mod ts 86400000 ltac:(lia)) as Hdm.
    pose proof (Z.mod_pos_bound ts 86400000 ltac:(lia)) as Hm.
    apply eq_true_iff_eq. rewrite !andb_true_iff, !Z.leb_le. lia. }
  now rewrite Hr.
Qed.

Lemma row_to_record_spec (row : pyval) (r : record) :
  row_to_record row = Ok r <-> record_of_row row r.
Proof.
  unfold row_to_record, record_of_row. split.
  - destruct row as [| | | | |l|d]; simpl; try discriminate.
    destruct (dict_lookup "timestamp" d) as [ts|] eqn:Ets; simpl; [|discriminate].
    destruct (py_int ts) as [ts_ms|] eqn:Eint; simpl; [|discriminate].
    rewrite fromtimestamp_utc_ms.
    destruct ((MIN_TIMESTAMP_MS <=? ts_ms) && (ts_ms <=? MAX_TIMESTAMP_MS)) eqn:Er;
      simpl; [|discriminate].
    apply timestamp_in_range_dec in Er.
    destruct (dict_lookup "rhodl_ratio" d) as [ratio|] eqn:Era; simpl; [|discriminate].
    destruct (py_float ratio) as [fr|] eqn:Efr; simpl; [|discriminate].
    destruct (dict_lookup "price" d) as [p|] eqn:Ep; simpl.
    + destruct (py_float p) as [fp|] eqn:Efp; simpl; [|discriminate].
      intros [= <-]. simpl. exists d, ts, ratio. rewrite Ep. auto 10.
    + intros [= <-]. simpl. exists d, ts, ratio. rewrite Ep. auto 10.
  - intros (d & ts & ratio & -> & Ets & Eint & Er & Ed & Era & Efr & Ep).
    simpl. rewrite Ets. simpl. rewrite Eint. simpl. rewrite fromtimestamp_utc_ms.
    apply timestamp_in_range_dec in Er. rewrite Er. simpl.
    rewrite Era. simpl. rewrite Efr. simpl.
    destruct r as [dt fr fp ts_ms]; simpl in *.
    destruct (dict_lookup "price" d) as [p|]; simpl.
    + rewrite Ep. simpl. now rewrite Ed.
    + now rewrite Ep, Ed.
Qed.
End RecordFacts.

(** ** The loop of normalize *)

Section RowFacts.
Context {RT : PyRuntime}.

Lemma rows_to_records_returns (rows : list pyval) :
  returns (rows_to_records rows) <-> Forall (fun row => returns (row_to_record row)) rows.
Proof.
  induction rows as [|row rows IH]; simpl.
  - split; [constructor | intros _; now exists []].
  - rewrite Forall_cons, <- IH. split.
    + intros [out Hout]. destruct (row_to_record row) as [r|]; simpl in Hout; [|discriminate].
      destruct (rows_to_records rows) as [recs|]; simpl in Hout; [|discriminate].
      split; eexists; reflexivity.
    + intros [[r ->] [recs ->]]. simpl. eexists; reflexivity.
Qed.

(** An exception of the loop is the exception of the first row that
    raises one. *)
Lemma rows_to_records_raises (rows : list pyval) (e : exn) :
  rows_to_records rows = Raise e ->
  exists (j : nat) (row : pyval),
    rows !! j = Some row /\ row_to_record row = Raise e
    /\ forall i row', (i < j)%nat -> rows !! i = Some row' -> returns (row_to_record row').
Proof.
  induction rows as [|row rows IH]; simpl; [discriminate|].
  destruct (row_to_record row) as [r|e0] eqn:E; simpl.
  - destruct (rows_to_records rows) as [recs|e1]; simpl; [discriminate|].
    intros [= ->]. destruct (IH eq_refl) as (j & row1 & Hj & Hrow & Hbefore).
    exists (S j), row1. split; [assumption|]. split; [assumption|].
    intros [|i] row' Hi Hrow'; simpl in Hrow'.
    + injection Hrow' as <-. now exists r.
    + apply (Hbefore i); [lia | assumption].
  - intros [= ->]. exists 0%nat, row. split; [reflexivity|]. split; [assumption|].
    intros i row' Hi. lia.
Qed.

Lemma normalize_returns (rows : list pyval) :
  returns (normalize rows) <-> returns (rows_to_records rows).
Proof.
  unfold normalize. destruct (rows_to_records rows) as [recs|e]; simpl.
  - split; intros _; eexists; reflexivity.
  - split; intros [? ?]; discriminate.
Qed.

Lemma normalize_raises (rows : list pyval) (e : exn) :
  normalize rows = Raise e <-> rows_to_records rows = Raise e.
Proof.
  unfold normalize. destruct (rows_to_records rows) as [recs|e0]; simpl; split; congruence.
Qed.

Lemma py_int_error (v : pyval) (e : exn) :
  py_int v = Raise e -> e = TypeError \/ e = ValueError \/ e = OverflowError.
Proof.
  destruct v as [| | |f| | |]; simpl; try (intros [= <-]; auto); try discriminate.
  - destruct f; intros [= <-]; auto.
  - destruct (int_of_str s); intros [= <-]; auto.
Qed.

Lemma py_float_error (v : pyval) (e : exn) :
  py_float v = Raise e -> e = TypeError \/ e = ValueError \/ e = OverflowError.
Proof.
  destruct v as [| |z| | | |]; simpl; try (intros [= <-]; auto); try discriminate.
  - destruct (float_of_Z z); intros [= <-]; auto.
  - destruct (float_of_str s); intros [= <-]; auto.
Qed.

Lemma row_to_record_error (row : pyval) (e : exn) :
  row_to_record row = Raise e -> row_level_error e.
Proof.
  unfold row_to_record, row_level_error.
  destruct row as [| | | | |l|d]; simpl; try (intros [= <-]; tauto).
  destruct (dict_lookup "timestamp" d) as [ts|]; simpl; [|intros [= <-]; tauto].
  destruct (py_int ts) as [ts_ms|e0] eqn:Eint; simpl.
  2: { intros [= ->]. apply py_int_error in Eint. tauto. }
  rewrite fromtimestamp_utc_ms.
  destruct ((MIN_TIMESTAMP_MS <=? ts_ms) && (ts_ms <=? MAX_TIMESTAMP_MS));
    simpl; [|intros [= <-]; tauto].
  destruct (dict_lookup "rhodl_ratio" d) as [ratio|]; simpl; [|intros [= <-]; tauto].
  destruct (py_float ratio) as [fr|e0] eqn:Efr; simpl.
  2: { intros [= ->]. apply py_float_error in Efr. tauto. }
  destruct (dict_lookup "price" d) as [p|]; simpl; [|discriminate].
  destruct (py_float p) as [fp|e0] eqn:Efp; simpl; [discriminate|].
  intros [= ->]. apply py_float_error in Efp. tauto.
Qed.

Lemma row_to_record_returns (row : pyval) :
  returns (row_to_record row) <-> row_convertible row.
Proof.
  unfold returns, row_convertible. split.
  - intros [r Hr]. apply row_to_record_spec in Hr
      as (d & ts & ratio & -> & Hts & Hint & Hrange & _ & Hratio & Hfr & Hp).
    exists d, ts, (timestamp_ms r), ratio.
    split; [reflexivity|]. split; [assumption|]. split; [assumption|].
    split; [assumption|]. split; [assumption|].
    split; [now exists (rhodl_ratio r)|].
    intros p Ep. rewrite Ep in Hp. now exists (price r).
  - intros (d & ts & ts_ms & ratio & -> & Hts & Hint & Hrange & Hratio & [fr Hfr] & Hp).
    destruct (dict_lookup "price" d) as [p|] eqn:Ep.
    + destruct (Hp p eq_refl) as [fp Hfp].
      exists {| rec_date := isoformat (utc_date_of_ms ts_ms); rhodl_ratio := fr;
                price := fp; timestamp_ms := ts_ms |}.
      apply row_to_record_spec. exists d, ts, ratio. rewrite Ep. simpl. auto 10.
    + exists {| rec_date := isoformat (utc_date_of_ms ts_ms); rhodl_ratio := fr;
                price := float_zero; timestamp_ms := ts_ms |}.
      apply row_to_record_spec. exists d, ts, ratio. rewrite Ep. simpl. auto 10.
Qed.

(** C3 (amended). For accepted input the loop turns every row into a
    record: [timestamp_ms] is [int] of the row's timestamp, [date] is the
    ISO form of the UTC day of that instant, whatever the machine's time
    zone, [rhodl_ratio] is [float] of the row's ratio, and [price] is
    [float] of the row's price, or 0.0 when the row has none.  Every
    record [normalize] returns is the record of one of the rows. *)
Theorem normalize_record_fields (rows : list pyval) (out : list record) :
  normalize rows = Ok out ->
  (forall row, row ∈ rows ->
     exists r, row_to_record row = Ok r /\ record_of_row row r)
  /\ (forall r, r ∈ out ->
        exists row, row ∈ rows /\ row_to_record row = Ok r /\ record_of_row row r).
Proof.
  intros (recs & Hrecs & ->)%normalize_inv. split.
  - intros row Hrow.
    assert (Hall : returns (rows_to_records rows)) by now exists recs.
    apply rows_to_records_returns in Hall. rewrite Forall_forall in Hall.
    destruct (Hall row Hrow) as [r Hr]. exists r. split; [assumption|].
    now apply row_to_record_spec.
  - intros r Hr. apply dedup_keeps_last in Hr.
    apply last_filter_lookup_inv in Hr as (j & Hj & _).
    apply (rows_to_records_lookup rows recs Hrecs) in Hj as (row & Hrow & Hrec).
    exists row. split; [|split; [assumption|now apply row_to_record_spec]].
    apply list_elem_of_lookup. eauto.
Qed.

(** ** normalize: order, uniqueness, last row wins *)

(** The date of a record [normalize] returns is the ISO form of the UTC
    day of its timestamp, and the timestamp is one [fromtimestamp]
    accepts. *)
Lemma normalize_records_dated (rows : list pyval) (out : list record) :
  normalize rows = Ok out ->
  Forall (fun r => rec_date r = isoformat (utc_date_of_ms (timestamp_ms r))
                   /\ timestamp_in_range (timestamp_ms r)) out.
Proof.
  intros (recs & Hrecs & ->)%normalize_inv. apply Forall_forall. intros r Hr.
  apply dedup_keeps_last in Hr. apply last_filter_lookup_inv in Hr as (j & Hj & _).
  apply (rows_to_records_lookup rows recs Hrecs) in Hj as (row & _ & Hrec).
  apply row_to_record_spec in Hrec as (d & ts & ratio & _ & _ & _ & Hrange & Hd & _).
  now split.
Qed.

Lemma StronglySorted_within {A : Type} (R R' : A -> A -> Prop) (P : A -> Prop)
    (l : list A) :
  (forall x y, P x -> P y -> R x y -> R' x y) ->
  Forall P l -> StronglySorted R l -> StronglySorted R' l.
Proof.
  intros HR HP Hs. induction Hs as [|x l Hs IH Hx]; [constructor|].
  apply Forall_cons in HP as [Px Pl]. constructor; [now apply IH|].
  rewrite Forall_forall in Hx, Pl. apply Forall_forall. intros y Hy.
  apply HR; auto.
Qed.

(** C1. [normalize] returns on every list of rows that convert, and
    whatever list it returns is in strictly ascending order of the [date]
    field, as Python orders the strings and as the calendar orders the
    days; in particular no two of its records share a date. *)
Theorem normalize_sorted_unique (rows : list pyval) :
  (Forall row_convertible rows -> exists out, normalize rows = Ok out)
  /\ forall out, normalize rows = Ok out ->
       StronglySorted date_lt out /\ StronglySorted day_lt out
       /\ NoDup (map rec_date out).
Proof.
  split.
  - intros Hall. apply normalize_returns, rows_to_records_returns.
    eapply Forall_impl; [exact Hall|]. intros row. apply row_to_record_returns.
  - intros out Hout. pose proof (normalize_records_dated rows out Hout) as Hdated.
    apply normalize_inv in Hout as (recs & _ & ->).
    pose proof (dict_by_date_sorted recs) as Hs.
    rewrite <- dict_by_date_dates in Hs.
    assert (Hsorted : StronglySorted date_lt (dict_values (dict_by_date (sort_by_date recs))))
      by now apply StronglySorted_rec_date.
    split; [exact Hsorted|]. split.
    + eapply StronglySorted_within; [|exact Hdated|exact Hsorted].
      intros x y [Hx Rx] [Hy Ry]. unfold date_lt, day_lt, utc_day.
      rewrite Hx, Hy. now apply iso_order_is_day_order.
    + now apply StronglySorted_str_lt_NoDup.
Qed.

(** C2. When row [j] is the last input row that resolves to its date, the
    one record [normalize] keeps for that date is the record of row [j]:
    a later row overwrites an earlier one of the same date. *)
Theorem normalize_last_row_wins (rows : list pyval) (out : list record)
    (j : nat) (row : pyval) (rj : record) :
  normalize rows = Ok out ->
  rows !! j = Some row ->
  row_to_record row = Ok rj ->
  (forall k row' r', (j < k)%nat -> rows !! k = Some row' ->
     row_to_record row' = Ok r' -> rec_date r' <> rec_date rj) ->
  forall r, r ∈ out /\ rec_date r = rec_date rj <-> r = rj.
Proof.
  intros (recs & Hrecs & ->)%normalize_inv Hj Hrow Hlast r.
  pose proof (rows_to_records_lookup rows recs Hrecs) as Hlk.
  assert (Hrj : last (filter (fun x => rec_date x = rec_date rj) recs) = Some rj).
  { apply (last_filter_lookup _ recs j).
    - apply Hlk. eauto.
    - reflexivity.
    - intros k y Hk Hy. apply Hlk in Hy as (row' & Hrow' & Hy). eauto. }
  rewrite dedup_keeps_last. split.
  - intros [Hr Hd]. rewrite Hd in Hr. congruence.
  - intros ->. auto.
Qed.

(** A date [normalize] produces has its ten characters; it is never
    the empty string. *)
Lemma normalize_dates_nonempty (rows : list pyval) (out : list record) :
  normalize rows = Ok out -> Forall (fun r => rec_date r <> "") out.
Proof.
  intros Hout. eapply Forall_impl; [exact (normalize_records_dated rows out Hout)|].
  intros r [Hd _]. rewrite Hd. discriminate.
Qed.

End RowFacts.

(** ** fetch_rhodl_json: bounded retries *)

Lemma backoff_seconds (attempt : Z) : (backoff attempt == (3 # 2) * inject_Z attempt)%Q.
Proof. unfold backoff, Qeq. simpl. lia. Qed.

Section FetchSteps.
Variables (headers : list (string * string)) (max_retries timeout : Z).

Lemma fetch_attempts_document attempt rest last_err n doc :
  endpoint n (sent n) = Document doc ->
  fetch_attempts headers max_retries timeout (attempt :: rest) last_err n
  = (Ok doc, count_request (EvGet API_URL headers timeout) n).
Proof. intros E. simpl. unfold get_json. now rewrite E. Qed.

Lemma fetch_attempts_failure attempt rest last_err n e :
  failure (endpoint n (sent n)) = Some e ->
  fetch_attempts headers max_retries timeout (attempt :: rest) last_err n
  = fetch_attempts headers max_retries timeout rest (Some e)
      (let n' := count_request (EvGet API_URL headers timeout) n in
       if attempt <? max_retries then log_event (EvSleep (backoff attempt)) n' else n').
Proof.
  intros E. simpl. unfold get_json.
  destruct (endpoint n (sent n)); simplify_eq/=; now destruct (attempt <? max_retries).
Qed.

Lemma fetch_attempts_sent attempts last_err n :
  (sent (fetch_attempts headers max_retries timeout attempts last_err n).2
   <= sent n + length attempts)%nat.
Proof.
  revert last_err n. induction attempts as [|a rest IH]; intros last_err n.
  - simpl. lia.
  - destruct (failure (endpoint n (sent n))) as [e|] eqn:E.
    + rewrite (fetch_attempts_failure _ _ _ _ e E). etransitivity; [apply IH|].
      destruct (a <? max_retries); simpl; lia.
    + destruct (endpoint n (sent n)) as [| | |doc] eqn:E'; try discriminate.
      rewrite (fetch_attempts_document _ _ _ _ doc E'). simpl. lia.
Qed.
End FetchSteps.

(** C4. With the default [max_retries = 3] a run makes at most three
    GETs.  A document on the first, second or third GET is returned at
    once, with no further request; before a second GET the run has slept
    1.5 s, before a third 3.0 s.  When all three GETs fail the run ends in
    [SystemExit] with the text of the third failure, and has not slept
    after it. *)
Theorem fetch_retries_three_times (api_key : string) (n : net) :
  let run := fetch_default api_key n in
  let get := default_get api_key in
  (sent run.2 <= sent n + 3)%nat
  /\ (forall doc,
        endpoint n (sent n) = Document doc ->
        run.1 = Ok doc /\ sent run.2 = (sent n + 1)%nat
        /\ trace run.2 = (trace n ++ [get])%list)
  /\ (forall e1 doc,
        failure (endpoint n (sent n)) = Some e1 ->
        endpoint n (sent n + 1) = Document doc ->
        run.1 = Ok doc /\ sent run.2 = (sent n + 2)%nat
        /\ trace run.2 = (trace n ++ [get; EvSleep (backoff 1); get])%list)
  /\ (forall e1 e2 doc,
        failure (endpoint n (sent n)) = Some e1 ->
        failure (endpoint n (sent n + 1)) = Some e2 ->
        endpoint n (sent n + 2) = Document doc ->
        run.1 = Ok doc /\ sent run.2 = (sent n + 3)%nat
        /\ trace run.2
           = (trace n ++ [get; EvSleep (backoff 1); get; EvSleep (backoff 2); get])%list)
  /\ (forall e1 e2 e3,
        failure (endpoint n (sent n)) = Some e1 ->
        failure (endpoint n (sent n + 1)) = Some e2 ->
        failure (endpoint n (sent n + 2)) = Some e3 ->
        run.1 = Raise (SystemExit ("ERROR: API request failed after 3 attempts: " ++ e3))
        /\ sent run.2 = (sent n + 3)%nat
        /\ trace run.2
           = (trace n ++ [get; EvSleep (backoff 1); get; EvSleep (backoff 2); get])%list).
Proof.
  intros run get. subst run.
  unfold fetch_default, fetch_rhodl_json. fold (default_get api_key).
  change (py_range 1 (DEFAULT_MAX_RETRIES + 1)) with [1; 2; 3].
  set (hs := [("accept", "application/json"); ("CG-API-KEY", api_key);
              ("User-Agent", "rhodl-fetch/1.0")]).
  change (default_get api_key) with (EvGet API_URL hs DEFAULT_TIMEOUT) in get.
  replace (sent n + 1)%nat with (S (sent n)) by lia.
  replace (sent n + 2)%nat with (S (S (sent n))) by lia.
  split; [apply (fetch_attempts_sent hs 3 30 [1; 2; 3])|].
  split; [|split; [|split]].
  - intros doc E. rewrite (fetch_attempts_document _ _ _ _ _ _ _ doc E).
    simpl. repeat split; lia.
  - intros e1 doc E1 E2.
    rewrite (fetch_attempts_failure _ _ _ _ _ _ _ e1 E1).
    rewrite (fetch_attempts_document _ _ _ _ _ _ _ doc) by exact E2.
    simpl. rewrite <- !app_assoc. repeat split; lia.
  - intros e1 e2 doc E1 E2 E3.
    rewrite (fetch_attempts_failure _ _ _ _ _ _ _ e1 E1).
    rewrite (fetch_attempts_failure _ _ _ _ _ _ _ e2) by exact E2.
    rewrite (fetch_attempts_document _ _ _ _ _ _ _ doc) by exact E3.
    simpl. rewrite <- !app_assoc. repeat split; lia.
  - intros e1 e2 e3 E1 E2 E3.
    rewrite (fetch_attempts_failure _ _ _ _ _ _ _ e1 E1).
    rewrite (fetch_attempts_failure _ _ _ _ _ _ _ e2) by exact E2.
    rewrite (fetch_attempts_failure _ _ _ _ _ _ _ e3) by exact E3.
    simpl. rewrite <- !app_assoc. repeat split; lia.
Qed.

(** ** Row errors leave main as they are *)

Lemma has_data_getitem (raw data : pyval) :
  py_getitem raw "data" = Ok data -> has_data raw = true.
Proof.
  destruct raw as [| | | | | |d]; simpl; try discriminate.
  destruct (dict_lookup "data" d); [|discriminate].
  intros _. apply bool_decide_eq_true. eauto.
Qed.

Section Propagation.
Context {RT : PyRuntime} {SV : SheetsService}.

Lemma main_stops_at_normalize (append : bool) (outfile : path) (api_key : string)
    (has_batch_clear : bool) (w : world) (raw data : pyval) (rows : list pyval)
    (n' : net) (e : exn) :
  fetch_rhodl_json api_key DEFAULT_MAX_RETRIES DEFAULT_TIMEOUT (w_net w) = (Ok raw, n') ->
  py_getitem raw "data" = Ok data ->
  py_iter data = Ok rows ->
  normalize rows = Raise e ->
  main append outfile api_key has_batch_clear w
  = (Raise e, {| w_net := n'; w_fs := w_fs w; w_book := w_book w |}).
Proof.
  intros Hfetch Hdata Hiter Hnorm.
  unfold main, mbind, io_mbind, io_bind, on_net. rewrite Hfetch.
  rewrite (has_data_getitem raw data Hdata). cbn [negb].
  unfold pure. rewrite Hdata, Hiter, Hnorm. reflexivity.
Qed.

(** C10 (amended). A row that cannot be converted makes [normalize]
    raise the exception of the first such row: a [KeyError] for a missing
    timestamp or ratio, a [TypeError], [ValueError] or [OverflowError]
    from [int] or [float], or the range error of [fromtimestamp].  [main]
    ends with that same exception, not with the [SystemExit] of the shape
    check, and has written neither the file nor the sheet.  [normalize]
    returns exactly when every row is a dict whose timestamp converts to
    an instant in years 1..9999, whose ratio converts, and whose price,
    when it has one, converts as well. *)
Theorem row_errors_propagate (append : bool) (outfile : path) (api_key : string)
    (has_batch_clear : bool) (w : world) (raw data : pyval) (rows : list pyval)
    (n' : net) :
  fetch_rhodl_json api_key DEFAULT_MAX_RETRIES DEFAULT_TIMEOUT (w_net w) = (Ok raw, n') ->
  py_getitem raw "data" = Ok data ->
  py_iter data = Ok rows ->
  (returns (normalize rows) <-> Forall row_convertible rows)
  /\ forall e, normalize rows = Raise e ->
       row_level_error e
       /\ (forall msg, e <> SystemExit msg)
       /\ (exists (j : nat) (row : pyval),
             rows !! j = Some row /\ row_to_record row = Raise e
             /\ forall i row', (i < j)%nat -> rows !! i = Some row' -> row_convertible row')
       /\ main append outfile api_key has_batch_clear w
          = (Raise e, {| w_net := n'; w_fs := w_fs w; w_book := w_book w |}).
Proof.
  intros Hfetch Hdata Hiter. split.
  - rewrite normalize_returns, rows_to_records_returns.
    apply Forall_proper; [|reflexivity]. intros row. apply row_to_record_returns.
  - intros e He. pose proof He as Hloop. apply normalize_raises in Hloop.
    destruct (rows_to_records_raises rows e Hloop) as (j & row & Hj & Hrow & Hbefore).
    pose proof (row_to_record_error row e Hrow) as Hkind.
    split; [exact Hkind|]. split.
    + intros msg ->. unfold row_level_error in Hkind.
      destruct Hkind as [H|[H|[H|[H|[H|H]]]]]; discriminate.
    + split.
      * exists j, row. split; [assumption|]. split; [assumption|].
        intros i row' Hi Hrow'. apply row_to_record_returns. eauto.
      * eapply main_stops_at_normalize; eassumption.
Qed.
End Propagation.

(** ** Cells after a write *)

Lemma cell_at_insert (g : grid) k c k' :
  cell_at (<[k := c]> g) k' = if decide (k = k') then c else cell_at g k'.
Proof.
  unfold cell_at. rewrite lookup_insert. now case_decide.
Qed.

Lemma cell_at_write_cell rc v g rc' :
  cell_at (write_cell rc v g) rc'
  = if decide (rc = rc') then put_input (cell_input_of v) (cell_at g rc')
    else cell_at g rc'.
Proof.
  unfold write_cell, put_input.
  destruct (cell_input_of v) as [[|x]|]; try (now case_decide).
  rewrite cell_at_insert. case_decide; congruence.
Qed.

Lemma cell_at_write_row r c row g r' c' :
  cell_at (write_row r c row g) (r', c')
  = match (if decide (r' = r /\ c <= c')%nat then row !! (c' - c)%nat else None) with
    | Some v => put_input (cell_input_of v) (cell_at g (r', c'))
    | None => cell_at g (r', c')
    end.
Proof.
  revert c g. induction row as [|v row IH]; intros c g; simpl.
  - now case_decide.
  - rewrite IH, cell_at_write_cell.
    destruct (decide (r' = r /\ c <= c')%nat) as [[-> Hc]|Hn].
    + destruct (decide (c' = c)) as [->|Hne].
      * rewrite Nat.sub_diag. simpl.
        rewrite decide_False by lia. now rewrite decide_True.
      * rewrite decide_True by lia.
        replace (c' - c)%nat with (S (c' - S c)) by lia. simpl.
        rewrite decide_False by congruence. reflexivity.
    + rewrite decide_False by lia.
      rewrite decide_False by (intros [= -> ->]; lia). reflexivity.
Qed.

Lemma data_at_nil {A} r c rc : data_at (A := A) r c [] rc = None.
Proof. unfold data_at. now destruct (_ && _). Qed.

Lemma data_at_cons {A} r c (row : list A) rows r' c' :
  data_at r c (row :: rows) (r', c')
  = if decide (r' = r)
    then (if decide (c <= c')%nat then row !! (c' - c)%nat else None)
    else data_at (S r) c rows (r', c').
Proof.
  unfold data_at. cbn [fst snd].
  destruct (Nat.leb_spec r r') as [Hr|Hr], (Nat.leb_spec (S r) r') as [Hr'|Hr'],
    (Nat.leb_spec c c') as [Hc|Hc]; cbn [andb]; repeat case_decide; try lia;
    try reflexivity.
  - replace (r' - r)%nat with (S (r' - S r)) by lia. reflexivity.
  - replace (r' - r)%nat with 0%nat by lia. reflexivity.
Qed.

Lemma cell_at_write_rows r c rows g rc :
  cell_at (write_rows r c rows g) rc = written r c rows g rc.
Proof.
  destruct rc as [r' c']. unfold written.
  revert r g. induction rows as [|row rows IH]; intros r g; cbn [write_rows].
  - now rewrite data_at_nil.
  - rewrite IH, cell_at_write_row, data_at_cons.
    destruct (decide (r' = r)) as [->|Hne].
    + unfold data_at. cbn [fst snd].
      replace (S r <=? r)%nat with false by (symmetry; apply Nat.leb_gt; lia).
      cbn [andb]. destruct (decide (c <= c')%nat).
      * now rewrite decide_True.
      * rewrite decide_False by tauto. reflexivity.
    + rewrite decide_False by tauto. reflexivity.
Qed.

Lemma cell_at_clear_values rg g rc :
  cell_at (clear_values rg g) rc
  = if in_grid_range rg rc then set_value None (cell_at g rc) else cell_at g rc.
Proof.
  unfold cell_at, clear_values. rewrite map_lookup_imap.
  destruct (g !! rc) as [c|]; simpl; [reflexivity|].
  now destruct (in_grid_range rg rc).
Qed.

Lemma on_cells_ok (id : Z) f (ss : spreadsheet) sh g :
  ss !! id = Some sh -> f (sheet_cells sh) = Ok g ->
  on_cells id f ss = (Ok tt, with_cells ss id sh g).
Proof. intros Hs Hf. unfold on_cells. now rewrite Hs, Hf. Qed.

Lemma with_cells_lookup (ss : spreadsheet) (id : Z) sh g :
  with_cells ss id sh g !! id = Some {| sheet_title := sheet_title sh; sheet_cells := g |}.
Proof. apply lookup_insert_eq. Qed.

Lemma with_cells_twice (ss : spreadsheet) (id : Z) sh sh' g g' :
  sheet_title sh' = sheet_title sh ->
  with_cells (with_cells ss id sh g) id sh' g' = with_cells ss id sh g'.
Proof. intros E. unfold with_cells. now rewrite insert_insert_eq, E. Qed.

(** ** The two ways of emptying columns A and B *)

Lemma in_A_B (id : Z) (rc : nat * nat) :
  in_grid_range (a1_range_to_grid_range id A_B) rc = (rc.2 <? 2)%nat.
Proof. unfold in_grid_range. simpl. reflexivity. Qed.

Lemma fallback_is_clear_values (id : Z) (g : grid) :
  update_cells
    {| sheetId := id; startRowIndex := Some 0%nat; endRowIndex := None;
       startColumnIndex := Some 0%nat; endColumnIndex := Some 2%nat |}
    [] [FUserEnteredValue] g
  = clear_values (a1_range_to_grid_range id A_B) g.
Proof.
  unfold update_cells, clear_values. cbn [ensure_rows].
  apply map_imap_ext. intros rc. destruct (g !! rc) as [c|]; reflexivity.
Qed.

Lemma clear_cols_ab_spec ws (ss : spreadsheet) sh :
  ss !! ws_id ws = Some sh ->
  clear_cols_ab ws ss
  = (Ok tt, with_cells ss (ws_id ws) sh
              (clear_values (a1_range_to_grid_range (ws_id ws) A_B) (sheet_cells sh))).
Proof.
  intros Hs. unfold clear_cols_ab, io_try, ws_batch_clear.
  destruct (ws_has_batch_clear ws).
  - cbn [io_for]. unfold on_cells. rewrite Hs. reflexivity.
  - unfold io_raise, spreadsheet_batch_update, fallback_clear_request.
    cbn [is_AttributeError io_for sheetId]. unfold on_cells. rewrite Hs.
    now rewrite fallback_is_clear_values.
Qed.

Lemma clear_cols_ab_unknown ws (ss : spreadsheet) :
  ss !! ws_id ws = None ->
  clear_cols_ab ws ss = (Raise (APIError "No sheet with this id"), ss).
Proof.
  intros Hs. unfold clear_cols_ab, io_try, ws_batch_clear.
  destruct (ws_has_batch_clear ws).
  - cbn [io_for]. unfold on_cells. now rewrite Hs.
  - unfold io_raise, spreadsheet_batch_update, fallback_clear_request.
    cbn [is_AttributeError io_for sheetId]. unfold on_cells. now rewrite Hs.
Qed.

(** C9. A worksheet object with [batch_clear] and one without it leave
    the spreadsheet in the same state: in the sheet of the object the
    values of columns A and B are gone in every row, formats and notes
    stay, every other cell and every other sheet is as before. *)
Theorem clear_paths_agree (id : Z) (ss : spreadsheet) :
  let primary := {| ws_id := id; ws_has_batch_clear := true |} in
  let fallback := {| ws_id := id; ws_has_batch_clear := false |} in
  clear_cols_ab primary ss = clear_cols_ab fallback ss
  /\ forall sh, ss !! id = Some sh ->
       exists g',
         clear_cols_ab fallback ss = (Ok tt, with_cells ss id sh g')
         /\ forall r c,
              cell_at g' (r, c)
              = if (c <? 2)%nat then set_value None (cell_at (sheet_cells sh) (r, c))
                else cell_at (sheet_cells sh) (r, c).
Proof.
  intros primary fallback. split.
  - destruct (ss !! id) as [sh|] eqn:Hs.
    + now rewrite (clear_cols_ab_spec primary ss sh Hs),
                  (clear_cols_ab_spec fallback ss sh Hs).
    + now rewrite (clear_cols_ab_unknown primary ss Hs),
                  (clear_cols_ab_unknown fallback ss Hs).
  - intros sh Hs. eexists. split; [apply (clear_cols_ab_spec fallback ss sh Hs)|].
    intros r c. now rewrite cell_at_clear_values, in_A_B.
Qed.

(** ** Overwrite mode *)

Lemma ratio_finite_forallb (records : list record) :
  forallb (fun r => is_finite (rhodl_ratio r)) records = true
  <-> Forall ratio_finite records.
Proof.
  induction records as [|r records IH]; cbn [forallb].
  - split; [constructor | reflexivity].
  - rewrite andb_true_iff, Forall_cons, IH. reflexivity.
Qed.

Lemma ratio_not_finite_forallb (records : list record) :
  forallb (fun r => is_finite (rhodl_ratio r)) records = false
  <-> ~ Forall ratio_finite records.
Proof.
  rewrite <- ratio_finite_forallb.
  destruct (forallb _ records); split; congruence.
Qed.

(** What [allow_nan=False] asks of the rows of records. *)
Lemma sheet_rows_compliant (records : list record) :
  forallb (forallb json_compliant) (map sheet_row records)
  = forallb (fun r => is_finite (rhodl_ratio r)) records.
Proof.
  induction records as [|r records IH]; [reflexivity|].
  cbn [map forallb sheet_row json_compliant]. now rewrite IH, andb_true_r.
Qed.

Lemma send_json_records {A} (records : list record) (call : io spreadsheet A) :
  send_json (map sheet_row records) call
  = if forallb (fun r => is_finite (rhodl_ratio r)) records then call
    else io_raise InvalidJSONError.
Proof. unfold send_json. now rewrite sheet_rows_compliant. Qed.

Lemma send_json_header_records {A} (records : list record) (call : io spreadsheet A) :
  send_json (HEADER :: map sheet_row records) call
  = if forallb (fun r => is_finite (rhodl_ratio r)) records then call
    else io_raise InvalidJSONError.
Proof.
  unfold send_json. cbn [forallb]. rewrite sheet_rows_compliant. reflexivity.
Qed.

Lemma sheet_rows_scalar records :
  Forall ratio_finite records ->
  forallb (fun row => forallb (fun v => bool_decide (is_Some (cell_input_of v))) row)
          (map sheet_row records) = true.
Proof.
  induction 1 as [|r records Hr _ IH]; [reflexivity|].
  cbn [map forallb sheet_row cell_input_of]. unfold ratio_finite in Hr. rewrite Hr.
  exact IH.
Qed.

Lemma sheet_rows_width records (w : nat) :
  (2 <= w)%nat ->
  forallb (fun row : list pyval => (length row <=? w)%nat) (map sheet_row records) = true.
Proof.
  intros Hw. induction records as [|r records IH]; [reflexivity|].
  cbn [map forallb]. rewrite IH, andb_true_r. apply Nat.leb_le. simpl. lia.
Qed.

Lemma overwrite_values_fit (id : Z) records :
  Forall ratio_finite records ->
  values_fit (a1_range_to_grid_range id (A1_B (length (HEADER :: map sheet_row records))))
             (HEADER :: map sheet_row records) = true.
Proof.
  intros Hfin. unfold values_fit. cbn -[forallb length Nat.leb].
  rewrite !andb_true_iff. repeat split.
  - cbn [forallb]. now rewrite sheet_rows_scalar.
  - apply Nat.leb_le. lia.
  - cbn [forallb]. rewrite (sheet_rows_width records col_B) by (unfold col_B; lia).
    reflexivity.
Qed.

Lemma data_at_sheet_rows records (i c : nat) :
  data_at 1 0 (map sheet_row records) (S i, c)
  = r ← records !! i; sheet_row r !! c.
Proof.
  unfold data_at. cbn [fst snd]. rewrite Nat.sub_0_r. simpl.
  rewrite Nat.sub_0_r, list_lookup_fmap. now destruct (records !! i).
Qed.

(** What a finite ratio puts into a cell. *)
Lemma put_ratio (r : record) (c : cell_data) :
  ratio_finite r ->
  put_input (cell_input_of (PFloat (rhodl_ratio r))) c
  = set_value (Some (NumberValue (rhodl_ratio r))) c.
Proof. unfold ratio_finite. cbn [cell_input_of]. now intros ->. Qed.

Lemma put_date (r : record) (c : cell_data) :
  put_input (cell_input_of (PStr (rec_date r))) c = set_value (text_value (rec_date r)) c.
Proof. reflexivity. Qed.

(** The run of [write_cols_ab_overwrite], call by call: the clearing,
    then the write, which is refused when a ratio is not finite. *)
Lemma write_cols_ab_overwrite_run (ws : Worksheet) (records : list record)
    (ss : spreadsheet) (sh : sheet) :
  ss !! ws_id ws = Some sh ->
  let g1 := clear_values (a1_range_to_grid_range (ws_id ws) A_B) (sheet_cells sh) in
  write_cols_ab_overwrite ws records ss
  = if forallb (fun r => is_finite (rhodl_ratio r)) records
    then (Ok tt, with_cells ss (ws_id ws) sh
                   (write_rows 0 0 (HEADER :: map sheet_row records) g1))
    else (Raise InvalidJSONError, with_cells ss (ws_id ws) sh g1).
Proof.
  intros Hs g1. unfold write_cols_ab_overwrite.
  set (rows := HEADER :: map sheet_row records).
  change (clear_cols_ab ws ≫= _) with
    (io_bind (clear_cols_ab ws) (fun _ => ws_update ws (A1_B (length rows)) rows)).
  unfold io_bind. rewrite (clear_cols_ab_spec ws ss sh Hs). fold g1.
  unfold ws_update. subst rows.
  rewrite send_json_header_records.
  destruct (forallb _ records) eqn:Hfin; [|reflexivity].
  apply ratio_finite_forallb in Hfin.
  erewrite on_cells_ok; [|apply with_cells_lookup|].
  - rewrite with_cells_twice by reflexivity. reflexivity.
  - unfold values_update. cbn [sheet_cells].
    rewrite overwrite_values_fit by assumption. reflexivity.
Qed.

(** C5 (amended). Overwrite mode first removes the values of columns A
    and B in every row and then sends header and records in one write.
    Whatever the records, the run ends on the sheet of the worksheet
    object with every cell of another column exactly as it was.  When
    every ratio is finite it returns and leaves the header in the first
    row of A and B, the date (as text) and the ratio (as a number) of
    record [i] in row [i + 2] and no value in A and B below the records.
    When a ratio is a NaN or an infinity the write is refused before it
    is sent, and A and B stay without values.  Formats and notes of A and
    B, the title and every other sheet are as before. *)
Theorem overwrite_replaces_cols_ab_only (ws : Worksheet) (records : list record)
    (ss : spreadsheet) (sh : sheet) :
  ss !! ws_id ws = Some sh ->
  exists g',
    (write_cols_ab_overwrite ws records ss).2 = with_cells ss (ws_id ws) sh g'
    /\ (forall r c, (2 <= c)%nat ->
          cell_at g' (r, c) = cell_at (sheet_cells sh) (r, c))
    /\ (Forall ratio_finite records ->
          (write_cols_ab_overwrite ws records ss).1 = Ok tt
          /\ cell_at g' (0, 0)%nat
             = set_value (Some (StringValue "Date")) (cell_at (sheet_cells sh) (0, 0)%nat)
          /\ cell_at g' (0, 1)%nat
             = set_value (Some (StringValue "RHODL Ratio"))
                         (cell_at (sheet_cells sh) (0, 1)%nat)
          /\ (forall i r, records !! i = Some r ->
                cell_at g' (S i, 0)%nat
                = set_value (text_value (rec_date r)) (cell_at (sheet_cells sh) (S i, 0)%nat)
                /\ cell_at g' (S i, 1)%nat
                   = set_value (Some (NumberValue (rhodl_ratio r)))
                               (cell_at (sheet_cells sh) (S i, 1)%nat))
          /\ (forall r c, (length records < r)%nat -> (c < 2)%nat ->
                cell_at g' (r, c) = set_value None (cell_at (sheet_cells sh) (r, c))))
    /\ (~ Forall ratio_finite records ->
          (write_cols_ab_overwrite ws records ss).1 = Raise InvalidJSONError
          /\ forall r c, (c < 2)%nat ->
               cell_at g' (r, c) = set_value None (cell_at (sheet_cells sh) (r, c))).
Proof.
  intros Hs.
  pose proof (write_cols_ab_overwrite_run ws records ss sh Hs) as Hrun. cbv zeta in Hrun.
  set (rows := HEADER :: map sheet_row records) in *.
  set (g1 := clear_values (a1_range_to_grid_range (ws_id ws) A_B) (sheet_cells sh)) in *.
  assert (Hclear : forall rc, cell_at g1 rc
                   = if (rc.2 <? 2)%nat then set_value None (cell_at (sheet_cells sh) rc)
                     else cell_at (sheet_cells sh) rc).
  { intros rc. subst g1. now rewrite cell_at_clear_values, in_A_B. }
  assert (Hcell : forall rc, cell_at (write_rows 0 0 rows g1) rc
                  = match data_at 0 0 rows rc with
                    | Some v => put_input (cell_input_of v) (cell_at g1 rc)
                    | None => cell_at g1 rc
                    end).
  { intros rc. now rewrite cell_at_write_rows. }
  destruct (forallb (fun r => is_finite (rhodl_ratio r)) records) eqn:Hfin.
  - apply ratio_finite_forallb in Hfin.
    exists (write_rows 0 0 rows g1). rewrite Hrun. cbn [fst snd].
    split; [reflexivity|]. split; [|split; [|intros Hnot; contradiction]].
    + intros r c Hc. rewrite Hcell, Hclear. subst rows. cbn [snd].
      replace (c <? 2)%nat with false by (symmetry; apply Nat.ltb_ge; lia).
      destruct r as [|i].
      * rewrite data_at_cons, decide_True by reflexivity. rewrite decide_True by lia.
        rewrite Nat.sub_0_r. do 2 (destruct c as [|c]; [lia|]). reflexivity.
      * rewrite data_at_cons, decide_False by lia. rewrite data_at_sheet_rows.
        destruct (records !! i) as [rec|]; [|reflexivity].
        do 2 (destruct c as [|c]; [lia|]). reflexivity.
    + intros _. split; [reflexivity|]. split; [|split; [|split]].
      * rewrite Hcell, Hclear. reflexivity.
      * rewrite Hcell, Hclear. reflexivity.
      * intros i r Hi.
        assert (Hr : ratio_finite r).
        { rewrite Forall_forall in Hfin. apply Hfin. eapply list_elem_of_lookup_2, Hi. }
        split.
        -- rewrite Hcell, Hclear. subst rows. rewrite data_at_cons, decide_False by lia.
           rewrite data_at_sheet_rows, Hi. cbn. unfold text_value. now case_decide.
        -- rewrite Hcell, Hclear. subst rows. rewrite data_at_cons, decide_False by lia.
           rewrite data_at_sheet_rows, Hi.
           change (Some r ≫= fun r0 => sheet_row r0 !! 1%nat)
             with (Some (PFloat (rhodl_ratio r))).
           cbv beta iota. now rewrite put_ratio.
      * intros r c Hr Hc. rewrite Hcell, Hclear. subst rows. cbn [snd].
        replace (c <? 2)%nat with true by (symmetry; apply Nat.ltb_lt; lia).
        destruct r as [|i]; [lia|].
        rewrite data_at_cons, decide_False by lia.
        rewrite data_at_sheet_rows, lookup_ge_None_2 by lia. reflexivity.
  - apply ratio_not_finite_forallb in Hfin.
    exists g1. rewrite Hrun. cbn [fst snd].
    split; [reflexivity|]. split; [|split; [intros Hall; contradiction|]].
    + intros r c Hc. rewrite Hclear. cbn [snd].
      now replace (c <? 2)%nat with false by (symmetry; apply Nat.ltb_ge; lia).
    + intros _. split; [reflexivity|]. intros r c Hc. rewrite Hclear. cbn [snd].
      now replace (c <? 2)%nat with true by (symmetry; apply Nat.ltb_lt; lia).
Qed.

(** ** Reading a column, finding the end of the sheet *)

Lemma list_max_elem_le (l : list nat) x : x ∈ l -> (x <= list_max l)%nat.
Proof.
  intros Hx. pose proof (proj1 (list_max_le l (list_max l)) (Nat.le_refl _)) as Hall.
  rewrite Forall_forall in Hall. now apply Hall.
Qed.

Lemma list_max_bound (l : list nat) n : (forall x, x ∈ l -> (x <= n)%nat) -> (list_max l <= n)%nat.
Proof. intros Hall. apply list_max_le, Forall_forall. exact Hall. Qed.

Lemma cell_at_value_stored (g : grid) rc :
  userEnteredValue (cell_at g rc) <> None -> g !! rc = Some (cell_at g rc).
Proof.
  unfold cell_at. destruct (g !! rc); simpl; [reflexivity|congruence].
Qed.

Lemma rows_used_above (g : grid) r c :
  userEnteredValue (cell_at g (r, c)) <> None -> (r < rows_used g)%nat.
Proof.
  intros Hv. enough (S r <= rows_used g)%nat by lia.
  unfold rows_used. apply list_max_elem_le.
  apply list_elem_of_fmap. exists ((r, c), cell_at g (r, c)). split.
  - simpl. unfold has_value. rewrite bool_decide_true; [reflexivity|].
    destruct (userEnteredValue _); [eauto | congruence].
  - apply elem_of_map_to_list. now apply cell_at_value_stored.
Qed.

Lemma rows_used_free (g : grid) r c :
  (rows_used g <= r)%nat -> userEnteredValue (cell_at g (r, c)) = None.
Proof.
  intros Hr. destruct (userEnteredValue (cell_at g (r, c))) eqn:E; [|reflexivity].
  assert (r < rows_used g)%nat by (apply (rows_used_above g r c); congruence). lia.
Qed.

Section ColumnFacts.
Context {SV : SheetsService}.

Lemma formatted_value_stored (c : cell_data) :
  formatted_value c <> "" -> userEnteredValue c <> None.
Proof. unfold formatted_value. destruct (userEnteredValue c); congruence. Qed.

Lemma rows_displayed_above (col : nat) (g : grid) (r : nat) :
  formatted_value (cell_at g (r, col)) <> "" -> (r < rows_displayed col g)%nat.
Proof.
  intros Hv. enough (S r <= rows_displayed col g)%nat by lia.
  unfold rows_displayed. apply list_max_elem_le.
  apply list_elem_of_fmap. exists ((r, col), cell_at g (r, col)). split.
  - simpl. now rewrite bool_decide_true.
  - apply elem_of_map_to_list. now apply cell_at_value_stored, formatted_value_stored.
Qed.

Lemma rows_displayed_le_used (col : nat) (g : grid) : (rows_displayed col g <= rows_used g)%nat.
Proof.
  unfold rows_displayed. apply list_max_bound. intros x Hx.
  apply list_elem_of_fmap in Hx as ([[r c] cell] & -> & Hin). simpl.
  case_bool_decide as Hd; [|lia]. destruct Hd as [-> Hv].
  apply elem_of_map_to_list in Hin.
  apply (rows_used_above g r col). unfold cell_at. rewrite Hin. simpl.
  now apply formatted_value_stored.
Qed.

Lemma column_values_nil (col : nat) (g : grid) :
  column_values col g = [] <-> rows_displayed col g = 0%nat.
Proof.
  unfold column_values. destruct (rows_displayed col g); simpl; split; congruence.
Qed.

(** The dates listed below the first row of a column. *)
Lemma elem_of_present_dates (col : nat) (g : grid) (x : string) :
  x ∈ present_dates (column_values col g)
  <-> x <> "" /\ exists k, (1 <= k)%nat /\ formatted_value (cell_at g (k, col)) = x.
Proof.
  unfold present_dates, column_values.
  rewrite elem_of_list_to_set, list_elem_of_filter.
  assert (Ht : tail (map (fun r => formatted_value (cell_at g (r, col)))
                         (seq 0 (rows_displayed col g)))
               = map (fun r => formatted_value (cell_at g (r, col)))
                     (seq 1 (Nat.pred (rows_displayed col g)))).
  { now destruct (rows_displayed col g). }
  rewrite Ht. split.
  - intros [Hx Hin]. split; [assumption|].
    apply list_elem_of_fmap in Hin as (k & -> & Hk). apply elem_of_seq in Hk.
    exists k. split; [lia | reflexivity].
  - intros [Hx (k & Hk & Hf)]. split; [assumption|].
    apply list_elem_of_fmap. exists k. split; [now symmetry|].
    assert (k < rows_displayed col g)%nat by (apply rows_displayed_above; congruence).
    apply elem_of_seq. lia.
Qed.
End ColumnFacts.

(** ** Append mode *)

Lemma with_cells_same (ss : spreadsheet) (id : Z) (sh : sheet) :
  ss !! id = Some sh -> with_cells ss id sh (sheet_cells sh) = ss.
Proof. intros Hs. unfold with_cells. destruct sh. now apply insert_id. Qed.

Lemma values_append_sheet_rows (records : list record) (g : grid) :
  Forall ratio_finite records ->
  values_append (map sheet_row records) g
  = Ok (write_rows (rows_used g) 0 (map sheet_row records) g).
Proof. intros Hfin. unfold values_append. now rewrite sheet_rows_scalar. Qed.

Section AppendFacts.
Context {SV : SheetsService}.

(** The run of [append_only_cols_ab], call by call; the append is
    refused when a ratio among the new rows is not finite. *)
Lemma append_only_cols_ab_run (ws : Worksheet) (records : list record) (ss : spreadsheet) (sh : sheet) :
  ss !! ws_id ws = Some sh ->
  let g := sheet_cells sh in
  let existing := column_values 0 g in
  let g0 := match existing with
            | [] => write_rows 0 0 [HEADER] g
            | _ :: _ => g
            end in
  let fresh := filter (fun r => rec_date r ∉ present_dates existing) records in
  append_only_cols_ab ws records ss
  = if forallb (fun r => is_finite (rhodl_ratio r)) fresh
    then (Ok (length fresh),
          with_cells ss (ws_id ws) sh
            match fresh with
            | [] => g0
            | _ :: _ => write_rows (rows_used g0) 0 (map sheet_row fresh) g0
            end)
    else (Raise InvalidJSONError, with_cells ss (ws_id ws) sh g0).
Proof.
  intros Hs g existing g0 fresh.
  unfold append_only_cols_ab, mbind, io_mbind, io_bind, ws_col_values.
  rewrite Hs. cbn [Nat.pred]. fold g. fold existing.
  destruct existing as [|x rest] eqn:Ee.
  - unfold ws_update, mret, io_mret, io_ret.
    change (send_json [HEADER] ?call) with call.
    rewrite (on_cells_ok _ _ ss sh (write_rows 0 0 [HEADER] g) Hs) by reflexivity.
    change (present_dates []) with (∅ : gset string) in fresh. fold fresh.
    rewrite length_map. destruct fresh as [|r fresh'] eqn:Ef.
    + reflexivity.
    + cbn [map]. rewrite <- (map_cons sheet_row r fresh').
      unfold ws_append_rows. rewrite send_json_records.
      destruct (forallb _ (r :: fresh')) eqn:Hfin; [|reflexivity].
      apply ratio_finite_forallb in Hfin.
      erewrite on_cells_ok;
        [|apply with_cells_lookup|now apply values_append_sheet_rows].
      now rewrite with_cells_twice.
  - unfold mret, io_mret, io_ret.
    change (list_to_set (filter (fun x => x <> "") rest)) with (present_dates (x :: rest)).
    fold fresh. rewrite length_map. destruct fresh as [|r fresh'] eqn:Ef.
    + cbn [map forallb]. subst g0. now rewrite with_cells_same.
    + cbn [map]. rewrite <- (map_cons sheet_row r fresh').
      unfold ws_append_rows. rewrite send_json_records.
      destruct (forallb _ (r :: fresh')) eqn:Hfin.
      * apply ratio_finite_forallb in Hfin.
        erewrite on_cells_ok; [|exact Hs|now apply values_append_sheet_rows].
        reflexivity.
      * subst g0. now rewrite with_cells_same.
Qed.
End AppendFacts.

Lemma list_max_attained (l : list nat) : (0 < list_max l)%nat -> list_max l ∈ l.
Proof.
  induction l as [|x l IH]; simpl; [lia|]. intros Hpos.
  destruct (Nat.max_spec x (list_max l)) as [[Hlt ->]|[Hle ->]].
  - right. apply IH. lia.
  - left.
Qed.

Lemma rows_used_last (g : grid) :
  (0 < rows_used g)%nat ->
  exists c, userEnteredValue (cell_at g (Nat.pred (rows_used g), c)) <> None.
Proof.
  intros Hpos. pose proof (list_max_attained _ Hpos) as Hin. fold (rows_used g) in Hin.
  apply list_elem_of_fmap in Hin as ([[r c] cell] & E & Hin). simpl in E.
  apply elem_of_map_to_list in Hin. unfold has_value in E.
  case_bool_decide as Hv; [|lia]. exists c. rewrite E. simpl.
  unfold cell_at. rewrite Hin. simpl. destruct Hv as [v ->]. discriminate.
Qed.

Lemma data_at_sheet_rows_from (n : nat) (records : list record) (r c : nat) :
  data_at n 0 (map sheet_row records) (r, c)
  = if (n <=? r)%nat then rec ← records !! (r - n)%nat; sheet_row rec !! c else None.
Proof.
  unfold data_at. cbn [fst snd]. rewrite Nat.sub_0_r. simpl. rewrite andb_true_r.
  destruct (n <=? r)%nat; [|reflexivity].
  rewrite list_lookup_fmap. now destruct (records !! (r - n)%nat).
Qed.

Lemma cell_at_header (g : grid) (rc : nat * nat) :
  cell_at (write_rows 0 0 [HEADER] g) rc = header_cell rc (cell_at g rc).
Proof.
  rewrite cell_at_write_rows. unfold written, header_cell. destruct rc as [r c].
  rewrite data_at_cons, data_at_nil.
  destruct r as [|r].
  - rewrite decide_True by reflexivity. rewrite decide_True by lia. rewrite Nat.sub_0_r.
    destruct c as [|[|c]]; simpl; repeat case_decide; try congruence; reflexivity.
  - rewrite decide_False by lia. repeat case_decide; congruence.
Qed.

Section AppendTheorems.
Context {SV : SheetsService}.

(** C6 (amended). Append mode reads column A, takes as present the
    non-empty cells below the first one, and writes the header first
    when the column displays nothing.  The records whose date is not
    present are the new ones.  When their ratios are finite it puts
    them, in their order, into columns A and B of the rows that follow
    the last row holding a value, returns how many they are and alters
    no other cell.  When one of their ratios is a NaN or an infinity the
    append is refused before it is sent: nothing is appended and nothing
    is returned. *)
Theorem append_adds_missing_dates (ws : Worksheet) (records : list record)
    (ss : spreadsheet) (sh : sheet) :
  ss !! ws_id ws = Some sh ->
  let g := sheet_cells sh in
  let existing := column_values 0 g in
  let fresh := filter (fun r => rec_date r ∉ present_dates existing) records in
  exists (g0 g' : grid) (n : nat),
    (append_only_cols_ab ws records ss).2 = with_cells ss (ws_id ws) sh g'
    /\ (forall rc, cell_at g0 rc
                   = match existing with
                     | [] => header_cell rc (cell_at g rc)
                     | _ :: _ => cell_at g rc
                     end)
    /\ (forall r c, (n <= r)%nat -> userEnteredValue (cell_at g0 (r, c)) = None)
    /\ (n = 0%nat \/ exists c, userEnteredValue (cell_at g0 (Nat.pred n, c)) <> None)
    /\ (Forall ratio_finite fresh ->
          (append_only_cols_ab ws records ss).1 = Ok (length fresh)
          /\ (forall i r, fresh !! i = Some r ->
                cell_at g' (n + i, 0)%nat
                = set_value (text_value (rec_date r)) (cell_at g0 (n + i, 0)%nat)
                /\ cell_at g' (n + i, 1)%nat
                   = set_value (Some (NumberValue (rhodl_ratio r)))
                               (cell_at g0 (n + i, 1)%nat))
          /\ (forall r c, (r < n \/ n + length fresh <= r \/ 2 <= c)%nat ->
                cell_at g' (r, c) = cell_at g0 (r, c)))
    /\ (~ Forall ratio_finite fresh ->
          (append_only_cols_ab ws records ss).1 = Raise InvalidJSONError
          /\ forall rc, cell_at g' rc = cell_at g0 rc).
Proof.
  intros Hs g existing fresh.
  pose proof (append_only_cols_ab_run ws records ss sh Hs) as Hrun.
  cbv zeta in Hrun. fold g existing fresh in Hrun.
  set (g0 := match existing with [] => write_rows 0 0 [HEADER] g | _ :: _ => g end) in *.
  assert (Hg0 : forall rc, cell_at g0 rc
                = match existing with
                  | [] => header_cell rc (cell_at g rc)
                  | _ :: _ => cell_at g rc
                  end).
  { intros rc. subst g0. destruct existing; [apply cell_at_header | reflexivity]. }
  assert (Hlast : rows_used g0 = 0%nat
                  \/ exists c, userEnteredValue (cell_at g0 (Nat.pred (rows_used g0), c)) <> None).
  { destruct (rows_used g0) eqn:En; [now left|right].
    rewrite <- En. apply rows_used_last. lia. }
  destruct (forallb (fun r => is_finite (rhodl_ratio r)) fresh) eqn:Hfin.
  - apply ratio_finite_forallb in Hfin.
    exists g0, (write_rows (rows_used g0) 0 (map sheet_row fresh) g0), (rows_used g0).
    assert (Hcell : forall r c,
              cell_at (write_rows (rows_used g0) 0 (map sheet_row fresh) g0) (r, c)
              = match (if (rows_used g0 <=? r)%nat
                       then rec ← fresh !! (r - rows_used g0)%nat; sheet_row rec !! c
                       else None) with
                | Some v => put_input (cell_input_of v) (cell_at g0 (r, c))
                | None => cell_at g0 (r, c)
                end).
    { intros r c. rewrite cell_at_write_rows. unfold written.
      now rewrite data_at_sheet_rows_from. }
    rewrite Hrun. cbn [fst snd].
    split; [now destruct fresh|]. split; [exact Hg0|].
    split; [intros r c; apply rows_used_free|]. split; [exact Hlast|].
    split; [|intros Hnot; contradiction].
    intros _. split; [reflexivity|]. split.
    + intros i r Hi.
      assert (Hr : ratio_finite r).
      { rewrite Forall_forall in Hfin. apply Hfin. eapply list_elem_of_lookup_2, Hi. }
      rewrite !Hcell.
      replace (rows_used g0 <=? rows_used g0 + i)%nat with true
        by (symmetry; apply Nat.leb_le; lia).
      replace (rows_used g0 + i - rows_used g0)%nat with i by lia.
      rewrite Hi. split.
      * cbn. unfold text_value. now case_decide.
      * change (Some r ≫= fun rec => sheet_row rec !! 1%nat)
          with (Some (PFloat (rhodl_ratio r))).
        cbv beta iota. now rewrite put_ratio.
    + intros r c Hrc. rewrite Hcell.
      destruct (Nat.leb_spec (rows_used g0) r) as [Hr|Hr]; [|reflexivity].
      destruct (fresh !! (r - rows_used g0)%nat) as [rec|] eqn:Ef; [|reflexivity].
      apply lookup_lt_Some in Ef. cbn.
      destruct c as [|[|c]]; try lia. reflexivity.
  - apply ratio_not_finite_forallb in Hfin.
    exists g0, g0, (rows_used g0). rewrite Hrun. cbn [fst snd].
    split; [reflexivity|]. split; [exact Hg0|].
    split; [intros r c; apply rows_used_free|]. split; [exact Hlast|].
    split; [intros Hall; contradiction|].
    intros _. split; reflexivity.
Qed.
End AppendTheorems.

Section Idempotence.
Context {SV : SheetsService}.

Lemma rows_displayed_last (col : nat) (g : grid) :
  (0 < rows_displayed col g)%nat ->
  exists r, formatted_value (cell_at g (r, col)) <> "".
Proof.
  intros Hpos. pose proof (list_max_attained _ Hpos) as Hin.
  fold (rows_displayed col g) in Hin.
  apply list_elem_of_fmap in Hin as ([[r c] cell] & E & Hin). simpl in E.
  apply elem_of_map_to_list in Hin.
  case_bool_decide as Hv; [|lia]. destruct Hv as [-> Hv].
  exists r. unfold cell_at. now rewrite Hin.
Qed.

Lemma formatted_text (s : string) (c : cell_data) :
  s <> "" -> formatted_value (set_value (text_value s) c) = s.
Proof. intros Hs. unfold text_value. now rewrite decide_False. Qed.

End Idempotence.

(** ** The decoder on what the encoder writes *)

Lemma str_app_cons (c : ascii) (a b : string) :
  (String c a ++ b)%string = String c (a ++ b).
Proof. reflexivity. Qed.

Lemma str_app_nil_l (b : string) : ("" ++ b)%string = b.
Proof. reflexivity. Qed.

Lemma str_app_assoc (a b c : string) : ((a ++ b) ++ c)%string = (a ++ (b ++ c))%string.
Proof. induction a as [|x a IH]; [reflexivity|]. rewrite !str_app_cons. now f_equal. Qed.

Lemma str_app_nil_r (a : string) : (a ++ "")%string = a.
Proof. induction a as [|x a IH]; [reflexivity|]. rewrite str_app_cons. now f_equal. Qed.

Lemma all_chars_app (p : ascii -> bool) (a b : string) :
  all_chars p (a ++ b) = all_chars p a && all_chars p b.
Proof.
  induction a as [|x a IH]; [reflexivity|].
  rewrite str_app_cons. cbn [all_chars]. now rewrite IH, andb_assoc.
Qed.

Section DecoderFacts.
Context {RT : PyRuntime}.

Lemma run_app (m : machine) (a b : string) : run m (a ++ b) = run (run m a) b.
Proof.
  revert m. induction a as [|x a IH]; intros m; [reflexivity|].
  rewrite str_app_cons. cbn [run]. apply IH.
Qed.

(** *** Strings *)

Lemma run_escape_char (x : control) (st : list frame) (acc : string) (c : ascii) :
  run (Machine x (LStr acc) st) (escape_char c)
  = Machine x (LStr (acc ++ String c "")) st.
Proof. destruct c as [[] [] [] [] [] [] [] []]; reflexivity. Qed.

Lemma run_escape (x : control) (st : list frame) (acc s : string) :
  run (Machine x (LStr acc) st) (escape s) = Machine x (LStr (acc ++ s)) st.
Proof.
  revert acc. induction s as [|c s IH]; intros acc; cbn [escape run].
  - now rewrite str_app_nil_r.
  - rewrite run_app, run_escape_char, IH, str_app_assoc. reflexivity.
Qed.

Lemma run_json_string (b : bool) (st : list frame) (s : string) :
  run (Machine (XValue b) LNone st) (json_string s) = deliver (PStr s) st.
Proof.
  unfold json_string. cbn [run].
  change (step (Machine (XValue b) LNone st) quote)
    with (Machine (XValue b) (LStr "") st).
  rewrite run_app, run_escape. reflexivity.
Qed.

Lemma run_json_key (pairs : list (string * pyval)) (b : bool) (st : list frame)
    (s : string) :
  run (Machine (XKey pairs b) LNone st) (json_string s)
  = Machine (XColon pairs s) LNone st.
Proof.
  unfold json_string. cbn [run].
  change (step (Machine (XKey pairs b) LNone st) quote)
    with (Machine (XKey pairs b) (LStr "") st).
  rewrite run_app, run_escape. reflexivity.
Qed.

Lemma run_ws (x : control) (st : list frame) (s : string) :
  all_chars is_ws s = true -> run (Machine x LNone st) s = Machine x LNone st.
Proof.
  induction s as [|c s IH]; [reflexivity|]. cbn [all_chars run]. intros Hall.
  apply andb_true_iff in Hall as [Hc Hs].
  unfold step. cbn [lex ctl stack]. unfold punct. rewrite Hc. now apply IH.
Qed.

Lemma spaces_ws (n : nat) : all_chars is_ws (spaces n) = true.
Proof. induction n as [|n IH]; [reflexivity|]. cbn [spaces all_chars]. now rewrite IH. Qed.

Lemma run_newline_indent (x : control) (st : list frame) (level : nat) :
  run (Machine x LNone st) (newline_indent level) = Machine x LNone st.
Proof. apply run_ws. unfold newline_indent. cbn [all_chars]. now rewrite spaces_ws. Qed.

(** *** Numbers and constants *)

Lemma punct_bare (b : bool) (st : list frame) (c : ascii) :
  is_bare c = true ->
  punct c (XValue b) st = Machine (XValue b) (LBare (String c "")) st.
Proof. destruct c as [[] [] [] [] [] [] [] []]; intros H; try discriminate H; reflexivity. Qed.

Lemma run_bare_more (x : control) (st : list frame) (acc t : string) :
  all_chars is_bare t = true ->
  run (Machine x (LBare acc) st) t = Machine x (LBare (acc ++ t)) st.
Proof.
  revert acc. induction t as [|c t IH]; intros acc Hall; cbn [all_chars run] in *.
  - now rewrite str_app_nil_r.
  - apply andb_true_iff in Hall as [Hc Ht].
    unfold step. cbn [lex ctl stack]. rewrite Hc, IH by assumption.
    now rewrite str_app_assoc.
Qed.

Lemma run_bare_token (b : bool) (st : list frame) (tok : string) :
  bare_token tok = true ->
  run (Machine (XValue b) LNone st) tok = Machine (XValue b) (LBare tok) st.
Proof.
  destruct tok as [|c t]; [discriminate|]. cbn [bare_token all_chars run]. intros Hall.
  apply andb_true_iff in Hall as [Hc Ht].
  unfold step at 1. cbn [lex ctl stack]. rewrite punct_bare by assumption.
  now rewrite run_bare_more.
Qed.

(** A token followed by a character that ends it. *)
Lemma run_token_then (b : bool) (st : list frame) (tok : string) (v : pyval)
    (d : ascii) (rest : string) :
  bare_token tok = true -> classify tok = Some v -> is_bare d = false ->
  run (Machine (XValue b) LNone st) (tok ++ String d rest)
  = run (punct d (ctl (deliver v st)) (stack (deliver v st))) rest.
Proof.
  intros Htok Hv Hd. rewrite run_app, run_bare_token by assumption.
  cbn [run]. unfold step at 1. cbn [lex ctl stack]. rewrite Hd.
  unfold end_bare. now rewrite Hv.
Qed.
End DecoderFacts.

(** *** Integers *)

Lemma uint_digits (u : Decimal.uint) :
  all_chars is_digit (NilEmpty.string_of_uint u) = true.
Proof. induction u; cbn [NilEmpty.string_of_uint all_chars]; try rewrite IHu; reflexivity. Qed.

Lemma skip_digits_all (s : string) : all_chars is_digit s = true -> skip_digits s = "".
Proof.
  induction s as [|c s IH]; [reflexivity|]. cbn [all_chars skip_digits].
  intros Hall. apply andb_true_iff in Hall as [-> Hs]. now apply IH.
Qed.

Lemma digits_bare (s : string) : all_chars is_digit s = true -> all_chars is_bare s = true.
Proof.
  induction s as [|c s IH]; [reflexivity|]. cbn [all_chars].
  intros Hall. apply andb_true_iff in Hall as [Hc Hs].
  rewrite IH by assumption. unfold is_bare. now rewrite Hc.
Qed.

Lemma to_uint_lead_nonzero (p : positive) : lead_nonzero (Pos.to_uint p).
Proof.
  pose proof (DecimalPos.Unsigned.to_of (Pos.to_uint p)) as Hnorm.
  rewrite DecimalPos.Unsigned.of_to in Hnorm. change (N.to_uint (N.pos p)) with (Pos.to_uint p) in Hnorm.
  pose proof (DecimalPos.Unsigned.to_uint_nonzero p) as Hnz.
  pose proof (DecimalPos.Unsigned.to_uint_nonnil p) as Hnn.
  destruct (Pos.to_uint p) as [|u| | | | | | | | |]; simpl; try exact I; [congruence|].
  rewrite DecimalFacts.unorm_D0 in Hnorm. unfold Decimal.unorm in Hnorm.
  destruct (Decimal.nzhead u) eqn:E; try discriminate Hnorm.
  - injection Hnorm as Hu. subst u. now apply Hnz.
  - exact (DecimalFacts.nzhead_nonzero _ _ E).
Qed.

Lemma uint_literal (u : Decimal.uint) :
  lead_nonzero u ->
  number_literal (NilEmpty.string_of_uint u) = Some IsInt
  /\ number_literal (String "-" (NilEmpty.string_of_uint u)) = Some IsInt
  /\ bare_token (NilEmpty.string_of_uint u) = true.
Proof.
  pose proof (uint_digits u) as Hd.
  destruct u; simpl; try contradiction; intros _;
    cbn [NilEmpty.string_of_uint all_chars] in Hd;
    apply andb_true_iff in Hd as [_ Hd];
    unfold number_literal, int_part; cbn;
    rewrite (skip_digits_all _ Hd), (digits_bare _ Hd); repeat split; reflexivity.
Qed.

Section IntTokens.
Context {RT : PyRuntime}.

Lemma int_repr_token (z : Z) :
  bare_token (int_repr z) = true /\ classify (int_repr z) = Some (PInt z).
Proof.
  unfold int_repr, classify.
  assert (Hparse : NilZero.int_of_string (NilZero.string_of_int (Z.to_int z))
                   = Some (Z.to_int z)).
  { apply NilZero.isi; destruct z; simpl; try discriminate;
      intros [= H]; exact (DecimalPos.Unsigned.to_uint_nonnil _ H). }
  rewrite Hparse. cbn [fmap option_fmap option_map]. rewrite DecimalZ.of_to.
  destruct z as [|p|p]; [split; reflexivity| |].
  - destruct (uint_literal _ (to_uint_lead_nonzero p)) as (Hlit & _ & Hbare).
    cbn [Z.to_int NilZero.string_of_int].
    assert (Hs : NilZero.string_of_uint (Pos.to_uint p) = NilEmpty.string_of_uint (Pos.to_uint p)).
    { pose proof (to_uint_lead_nonzero p). now destruct (Pos.to_uint p). }
    rewrite Hs, Hlit. now split.
  - destruct (uint_literal _ (to_uint_lead_nonzero p)) as (_ & Hlit & Hbare).
    cbn [Z.to_int NilZero.string_of_int].
    assert (Hs : NilZero.string_of_uint (Pos.to_uint p) = NilEmpty.string_of_uint (Pos.to_uint p)).
    { pose proof (to_uint_lead_nonzero p). now destruct (Pos.to_uint p). }
    rewrite Hs, Hlit. split; [|reflexivity].
    cbn [bare_token all_chars]. destruct (NilEmpty.string_of_uint (Pos.to_uint p)); [discriminate|].
    exact Hbare.
Qed.
End IntTokens.

(** *** A record *)

Section RecordText.
Context {RT : PyRuntime}.

Lemma record_text (r : record) :
  json_encode 1 (record_to_py r)
  = ("{" ++ newline_indent 2
     ++ json_string "date" ++ ": " ++ json_string (rec_date r)
     ++ "," ++ newline_indent 2
     ++ json_string "rhodl_ratio" ++ ": " ++ json_float (rhodl_ratio r)
     ++ "," ++ newline_indent 2
     ++ json_string "price" ++ ": " ++ json_float (price r)
     ++ "," ++ newline_indent 2
     ++ json_string "timestamp_ms" ++ ": " ++ int_repr (timestamp_ms r)
     ++ newline_indent 1 ++ "}")%string.
Proof.
  unfold record_to_py. cbn [json_encode map join fst snd].
  rewrite !str_app_assoc. reflexivity.
Qed.

Lemma step_ws (x : control) (st : list frame) (c : ascii) :
  is_ws c = true -> step (Machine x LNone st) c = Machine x LNone st.
Proof. intros Hc. unfold step, punct. cbn [lex ctl stack]. now rewrite Hc. Qed.

Lemma step_open_object (b : bool) (st : list frame) :
  step (Machine (XValue b) LNone st) "{" = Machine (XKey [] true) LNone st.
Proof. reflexivity. Qed.

Lemma step_colon (pairs : list (string * pyval)) (key : string) (st : list frame) :
  step (Machine (XColon pairs key) LNone st) ":"
  = Machine (XValue false) LNone (FObj pairs key :: st).
Proof. reflexivity. Qed.

Lemma step_comma_object (pairs : list (string * pyval)) (st : list frame) :
  step (Machine (XObjNext pairs) LNone st) ","
  = Machine (XKey pairs false) LNone st.
Proof. reflexivity. Qed.

Lemma step_close_object (pairs : list (string * pyval)) (st : list frame) :
  step (Machine (XObjNext pairs) LNone st) "}" = deliver (PDict pairs) st.
Proof. reflexivity. Qed.

Lemma punct_comma_after_value (pairs : list (string * pyval)) (key : string)
    (v : pyval) (st : list frame) :
  punct "," (ctl (deliver v (FObj pairs key :: st)))
        (stack (deliver v (FObj pairs key :: st)))
  = Machine (XKey (dict_setitem key v pairs) false) LNone st.
Proof. reflexivity. Qed.

Lemma punct_newline_after_value (pairs : list (string * pyval)) (key : string)
    (v : pyval) (st : list frame) :
  punct newline (ctl (deliver v (FObj pairs key :: st)))
        (stack (deliver v (FObj pairs key :: st)))
  = Machine (XObjNext (dict_setitem key v pairs)) LNone st.
Proof. reflexivity. Qed.

Lemma newline_indent_app (level : nat) (s : string) :
  (newline_indent level ++ s)%string = String newline (spaces (2 * level) ++ s).
Proof. reflexivity. Qed.

Lemma run_record (b : bool) (st : list frame) (r : record) :
  record_reads_back r ->
  run (Machine (XValue b) LNone st) (json_encode 1 (record_to_py r))
  = deliver (record_to_py (loaded_record r)) st.
Proof.
  intros [[Hb1 Hc1] [Hb2 Hc2]].
  destruct (int_repr_token (timestamp_ms r)) as [Hb3 Hc3].
  rewrite record_text.
  rewrite !str_app_cons, !str_app_nil_l. cbn [run]. rewrite step_open_object.
  rewrite run_app, run_newline_indent, run_app, run_json_key.
  cbn [run]. rewrite step_colon, step_ws by reflexivity.
  rewrite run_app, run_json_string. cbn [deliver].
  cbn [run]. rewrite step_comma_object.
  rewrite run_app, run_newline_indent, run_app, run_json_key.
  cbn [run]. rewrite step_colon, step_ws by reflexivity.
  rewrite (run_token_then _ _ _ _ "," _ Hb1 Hc1 eq_refl), punct_comma_after_value.
  rewrite run_app, run_newline_indent, run_app, run_json_key.
  cbn [run]. rewrite step_colon, step_ws by reflexivity.
  rewrite (run_token_then _ _ _ _ "," _ Hb2 Hc2 eq_refl), punct_comma_after_value.
  rewrite run_app, run_newline_indent, run_app, run_json_key.
  cbn [run]. rewrite step_colon, step_ws by reflexivity.
  rewrite newline_indent_app.
  rewrite (run_token_then _ _ _ _ newline _ Hb3 Hc3 eq_refl), punct_newline_after_value.
  rewrite run_app, run_ws by apply spaces_ws.
  cbn [run]. rewrite step_close_object. reflexivity.
Qed.
End RecordText.

(** *** A list of records *)

Section ListText.
Context {RT : PyRuntime}.

Lemma step_comma_array (st : list frame) :
  step (Machine XArrNext LNone st) "," = Machine (XValue false) LNone st.
Proof. reflexivity. Qed.

Lemma run_records (b : bool) (st : list frame) (recs : list record) (items : list pyval) :
  Forall record_reads_back recs -> recs <> [] ->
  run (Machine (XValue b) LNone (FArr items :: st))
      (join ("," ++ newline_indent 1) (map (json_encode 1) (map record_to_py recs)))
  = Machine XArrNext LNone
      (FArr (items ++ map record_to_py (map loaded_record recs)) :: st).
Proof.
  intros Hall. revert b items. induction Hall as [|r recs Hr Hrecs IH]; intros b items Hne.
  - contradiction.
  - destruct recs as [|r' recs].
    + cbn [map join]. now rewrite run_record.
    + change (join ("," ++ newline_indent 1)
                (map (json_encode 1) (map record_to_py (r :: r' :: recs))))
        with (json_encode 1 (record_to_py r)
              ++ ("," ++ newline_indent 1)
              ++ join ("," ++ newline_indent 1)
                   (map (json_encode 1) (map record_to_py (r' :: recs))))%string.
      rewrite run_app, run_record by assumption. cbn [deliver].
      rewrite str_app_assoc, str_app_cons, str_app_nil_l. cbn [run].
      rewrite step_comma_array, run_app, run_newline_indent.
      rewrite IH by discriminate. now rewrite <- app_assoc.
Qed.

(** Reading back what was written for a list of records. *)
Lemma json_loads_dumps_records (data : list record) :
  Forall record_reads_back data ->
  json_loads (json_dumps (PList (map record_to_py data)))
  = Ok (PList (map record_to_py (map loaded_record data))).
Proof.
  intros Hall. unfold json_loads, json_dumps.
  destruct data as [|r data]; [reflexivity|].
  change (json_encode 0 (PList (map record_to_py (r :: data))))
    with ("[" ++ newline_indent 1
          ++ join ("," ++ newline_indent 1)
               (map (json_encode 1) (map record_to_py (r :: data)))
          ++ newline_indent 0 ++ "]")%string.
  rewrite str_app_cons, str_app_nil_l. cbn [run].
  change (step (Machine (XValue false) LNone []) "[")
    with (Machine (XValue true) LNone [FArr []]).
  rewrite run_app, run_newline_indent, run_app.
  rewrite run_records by (assumption || discriminate).
  rewrite run_app, run_newline_indent. reflexivity.
Qed.
End ListText.

(** ** save_json, then reading the file *)

Lemma float_eqb_same (f : float) :
  float_eqb f f = match f with F754_nan _ => false | _ => true end.
Proof.
  destruct f as [s|s|o|s m e]; try reflexivity.
  - now destruct s.
  - unfold float_eqb, SFeqb, SFcompare. cbn [float_value]. rewrite Z.compare_refl.
    change (Pos.compare_cont Eq m m) with (Pos.compare m m). rewrite Pos.compare_refl.
    now destruct s.
Qed.

(** A float read back, held against the float saved, as an item of a
    dict: the same unless the float saved is a NaN object of its own. *)
Lemma loaded_float_item (f : float) :
  same_nan (PFloat (loaded_float f)) (PFloat f)
  || py_eq (PFloat (loaded_float f)) (PFloat f)
  = json_nan_only f.
Proof.
  destruct f as [s|s|[|n]|s m e]; try reflexivity;
    cbn [loaded_float same_nan py_eq py_eq_float json_nan_only orb];
    now rewrite float_eqb_same.
Qed.

Lemma py_eq_record (r : record) :
  py_eq (record_to_py (loaded_record r)) (record_to_py r)
  = json_nan_only (rhodl_ratio r) && json_nan_only (price r).
Proof.
  pose proof (loaded_float_item (rhodl_ratio r)) as Hratio.
  pose proof (loaded_float_item (price r)) as Hprice.
  change (py_eq _ _) with
    ((rec_date r =? rec_date r)%string
     && ((same_nan (PFloat (loaded_float (rhodl_ratio r))) (PFloat (rhodl_ratio r))
          || py_eq (PFloat (loaded_float (rhodl_ratio r))) (PFloat (rhodl_ratio r)))
         && ((same_nan (PFloat (loaded_float (price r))) (PFloat (price r))
              || py_eq (PFloat (loaded_float (price r))) (PFloat (price r)))
             && ((timestamp_ms r =? timestamp_ms r) && true)))).
  rewrite Hratio, Hprice, String.eqb_refl, Z.eqb_refl.
  now rewrite !andb_true_r.
Qed.

Lemma py_eq_cons (x y : pyval) (l l' : list pyval) :
  py_eq (PList (x :: l)) (PList (y :: l'))
  = (same_nan x y || py_eq x y) && py_eq (PList l) (PList l').
Proof. reflexivity. Qed.

Lemma py_eq_records (data : list record) :
  py_eq (PList (map record_to_py (map loaded_record data)))
        (PList (map record_to_py data)) = true
  <-> Forall nans_from_json data.
Proof.
  induction data as [|r data IH]; [split; [constructor|reflexivity]|].
  cbn [map]. rewrite py_eq_cons, py_eq_record, Forall_cons, <- IH.
  change (same_nan (record_to_py (loaded_record r)) (record_to_py r)) with false.
  cbn [orb]. rewrite !andb_true_iff. unfold nans_from_json. reflexivity.
Qed.

Section SaveFacts.
Context {RT : PyRuntime}.

Lemma save_json_writes (p : path) (data : list record) (fs fs' : filesystem) :
  save_json p data fs = (Ok tt, fs') ->
  read_text p fs' = (Ok (json_dumps (PList (map record_to_py data))), fs').
Proof.
  unfold save_json, mbind, io_mbind, io_bind, mkdir_parents, write_text, read_text.
  destruct (mkdir_from [] (parent p) fs) as [fs1|e]; [|discriminate].
  destruct (fs1 !! p) as [[|old]|]; try discriminate;
    intros [= <-]; now rewrite lookup_insert_eq.
Qed.

(** C8 (amended). Take it that [float] reads back the text [repr]
    gave for every ratio and price (as CPython's does for a finite
    float).  When [save_json] has written the records and the file is
    read and parsed, the value is the list of the same dicts with every
    NaN replaced by the NaN object of [json]; it compares equal to the
    list saved exactly when no ratio and no price of that list is a NaN
    object other than that one, and so whenever the list holds no NaN. *)
Theorem save_then_load (p : path) (data : list record) (fs fs' : filesystem) :
  Forall record_reads_back data ->
  save_json p data fs = (Ok tt, fs') ->
  exists (text : string) (loaded : pyval),
    read_text p fs' = (Ok text, fs')
    /\ json_loads text = Ok loaded
    /\ loaded = PList (map record_to_py (map loaded_record data))
    /\ (py_eq loaded (PList (map record_to_py data)) = true
        <-> Forall nans_from_json data).
Proof.
  intros Hall Hsave.
  exists (json_dumps (PList (map record_to_py data))),
         (PList (map record_to_py (map loaded_record data))).
  split; [exact (save_json_writes p data fs fs' Hsave)|].
  split; [now apply json_loads_dumps_records|].
  split; [reflexivity|]. apply py_eq_records.
Qed.
End SaveFacts.

Section NonFinite.
Context {RT : PyRuntime}.

(** The constants need nothing of the runtime. *)
Lemma reads_back_nonfinite (f : float) :
  is_finite f = false -> reads_back f.
Proof. destruct f as [s|[|]|o|s m e]; try discriminate; intros _; split; reflexivity. Qed.
End NonFinite.

(** * Further properties *)

(** ** normalize: what is kept, and when the order of the rows matters *)

Lemma NoDup_fmap_eq {A B} (f : A -> B) (l : list A) (x y : A) :
  NoDup (f <$> l) -> x ∈ l -> y ∈ l -> f x = f y -> x = y.
Proof.
  induction l as [|a l IH]; simpl; intros Hnd Hx Hy Hf.
  - now apply elem_of_nil in Hx.
  - apply NoDup_cons in Hnd as [Ha Hnd].
    apply elem_of_cons in Hx as [->|Hx]; apply elem_of_cons in Hy as [->|Hy]; auto.
    + exfalso. apply Ha. rewrite Hf. now apply list_elem_of_fmap_2.
    + exfalso. apply Ha. rewrite <- Hf. now apply list_elem_of_fmap_2.
Qed.

Lemma last_is_Some {A} (l : list A) : l <> [] -> is_Some (last l).
Proof.
  induction l as [|x [|y l] IH]; [congruence|simpl; eauto|].
  intros _. apply IH. discriminate.
Qed.

(** Every record kept is one of the list. *)
Lemma dedup_subset (l : list record) (r : record) :
  r ∈ dict_values (dict_by_date (sort_by_date l)) -> r ∈ l.
Proof.
  intros Hr. apply dedup_keeps_last in Hr.
  apply last_filter_lookup_inv in Hr as (j & Hj & _).
  apply list_elem_of_lookup. eauto.
Qed.

(** Every date of the list is the date of a record kept. *)
Lemma dedup_covers (l : list record) (r : record) :
  r ∈ l ->
  exists r', r' ∈ dict_values (dict_by_date (sort_by_date l)) /\ rec_date r' = rec_date r.
Proof.
  intros Hr.
  destruct (last_is_Some (filter (fun x => rec_date x = rec_date r) l)) as [r' Hr'].
  { intros Hnil. assert (Hin : r ∈ filter (fun x => rec_date x = rec_date r) l)
      by now apply list_elem_of_filter.
    rewrite Hnil in Hin. now apply elem_of_nil in Hin. }
  pose proof Hr' as Hlast.
  apply last_filter_lookup_inv in Hr' as (j & _ & Hd & _).
  exists r'. split; [|assumption]. apply dedup_keeps_last. now rewrite Hd.
Qed.

Lemma dedup_NoDup (l : list record) :
  NoDup (dict_values (dict_by_date (sort_by_date l))).
Proof.
  apply (NoDup_fmap_1 rec_date).
  change (rec_date <$> ?x) with (map rec_date x).
  rewrite dict_by_date_dates. apply StronglySorted_str_lt_NoDup, dict_by_date_sorted.
Qed.

Lemma dedup_sorted (l : list record) :
  StronglySorted date_lt (dict_values (dict_by_date (sort_by_date l))).
Proof.
  apply StronglySorted_rec_date. rewrite dict_by_date_dates. apply dict_by_date_sorted.
Qed.

(** Without two records of one date nothing is dropped. *)
Lemma dedup_distinct_dates (l : list record) :
  NoDup (map rec_date l) -> dict_values (dict_by_date (sort_by_date l)) ≡ₚ l.
Proof.
  intros Hnd. apply NoDup_Permutation.
  - apply dedup_NoDup.
  - now apply (NoDup_fmap_1 rec_date).
  - intros r. split; [apply dedup_subset|].
    intros Hr. destruct (dedup_covers l r Hr) as (r' & Hr' & Hd).
    assert (r' = r) as <-; [|assumption].
    eapply (NoDup_fmap_eq rec_date l); eauto using dedup_subset.
Qed.

Lemma date_lt_sorted_unique (l1 l2 : list record) :
  StronglySorted date_lt l1 -> StronglySorted date_lt l2 -> l1 ≡ₚ l2 -> l1 = l2.
Proof.
  intros Hs1. revert l2. induction Hs1 as [|x l1 Hs1 IH Hx]; intros l2 Hs2 Hp.
  - now apply Permutation_nil_l in Hp.
  - destruct Hs2 as [|y l2 Hs2 Hy].
    { now apply Permutation_nil_r in Hp. }
    rewrite Forall_forall in Hx, Hy.
    assert (x = y) as <-.
    { assert (Hxin : x ∈ y :: l2) by (rewrite <- Hp; left).
      assert (Hyin : y ∈ x :: l1) by (rewrite Hp; left).
      apply elem_of_cons in Hxin as [?|Hxin]; [assumption|].
      apply elem_of_cons in Hyin as [?|Hyin]; [congruence|].
      exfalso. exact (str_lt_irrefl _ (str_lt_trans _ _ _ (Hx _ Hyin) (Hy _ Hxin))). }
    f_equal. apply IH; [assumption|]. now apply Permutation_cons_inv in Hp.
Qed.

Lemma date_lt_sorted_NoDup (l : list record) :
  StronglySorted date_lt l -> NoDup (map rec_date l).
Proof.
  intros Hs. apply StronglySorted_str_lt_NoDup.
  induction Hs as [|x l Hs IH Hx]; simpl; constructor; [assumption|].
  apply Forall_fmap. exact Hx.
Qed.

Section NormalizeMore.
Context {RT : PyRuntime}.

Lemma rows_to_records_length (rows : list pyval) (recs : list record) :
  rows_to_records rows = Ok recs -> length recs = length rows.
Proof.
  revert recs. induction rows as [|row rows IH]; simpl; intros recs.
  - now intros [= <-].
  - destruct (row_to_record row) as [r|]; simpl; [|discriminate].
    destruct (rows_to_records rows) as [recs'|]; simpl; [|discriminate].
    intros [= <-]. simpl. f_equal. now apply IH.
Qed.

Lemma rows_to_records_perm (rows rows' : list pyval) :
  rows ≡ₚ rows' ->
  forall recs, rows_to_records rows = Ok recs ->
    exists recs', rows_to_records rows' = Ok recs' /\ recs ≡ₚ recs'.
Proof.
  induction 1 as [|row rows rows' Hp IH|row1 row2 rows|rows1 rows2 rows3 H1 IH1 H2 IH2];
    intros recs; simpl.
  - intros [= <-]. now exists [].
  - destruct (row_to_record row) as [r|]; simpl; [|discriminate].
    destruct (rows_to_records rows) as [recs0|]; simpl; [|discriminate].
    intros [= <-]. destruct (IH recs0 eq_refl) as (recs' & -> & Hperm).
    simpl. exists (r :: recs'). split; [reflexivity|]. now constructor.
  - destruct (row_to_record row2) as [r2|]; simpl; [|discriminate].
    destruct (row_to_record row1) as [r1|]; simpl; [|discriminate].
    destruct (rows_to_records rows) as [recs0|]; simpl; [|discriminate].
    intros [= <-]. exists (r1 :: r2 :: recs0). split; [reflexivity|]. apply perm_swap.
  - intros Hrecs. destruct (IH1 recs Hrecs) as (recs2 & Hrecs2 & Hp2).
    destruct (IH2 recs2 Hrecs2) as (recs3 & Hrecs3 & Hp3).
    exists recs3. split; [assumption|]. now rewrite Hp2.
Qed.

(** X1. [normalize] drops no day: every row's date, and so its UTC day,
    is that of a record of the output, and the output is no longer than
    the input. *)
Theorem normalize_keeps_every_date (rows : list pyval) (out : list record) :
  normalize rows = Ok out ->
  (length out <= length rows)%nat
  /\ forall row r, row ∈ rows -> row_to_record row = Ok r ->
       exists r', r' ∈ out /\ rec_date r' = rec_date r /\ utc_day r' = utc_day r.
Proof.
  intros Hout. pose proof (normalize_records_dated rows out Hout) as Hdated.
  apply normalize_inv in Hout as (recs & Hrecs & ->). split.
  - rewrite <- (rows_to_records_length rows recs Hrecs).
    apply submseteq_length, NoDup_submseteq; [apply dedup_NoDup|].
    intros r. apply dedup_subset.
  - intros row r Hrow Hr.
    apply list_elem_of_lookup in Hrow as [j Hj].
    assert (Hin : r ∈ recs).
    { apply list_elem_of_lookup. exists j.
      apply (rows_to_records_lookup rows recs Hrecs). eauto. }
    destruct (dedup_covers recs r Hin) as (r' & Hr' & Hd).
    exists r'. split; [assumption|]. split; [assumption|].
    rewrite Forall_forall in Hdated. destruct (Hdated r' Hr') as [Hd' Hrange'].
    apply row_to_record_spec in Hr as (d & ts & ratio & _ & _ & _ & Hrange & Hdr & _).
    rewrite Hd', Hdr in Hd. unfold utc_day.
    destruct (Z.lt_trichotomy (timestamp_ms r' / MS_PER_DAY) (timestamp_ms r / MS_PER_DAY))
      as [Hlt|[Heq|Hlt]]; [|assumption|].
    + apply iso_order_is_day_order in Hlt; [|assumption..].
      rewrite Hd in Hlt. now apply str_lt_irrefl in Hlt.
    + apply iso_order_is_day_order in Hlt; [|assumption..].
      rewrite Hd in Hlt. now apply str_lt_irrefl in Hlt.
Qed.

(** X2. When no two rows fall on one date, the order of the rows plays no
    part: [normalize] returns the same list for every rearrangement of
    them. *)
Theorem normalize_order_irrelevant (rows rows' : list pyval) (recs : list record) :
  rows_to_records rows = Ok recs ->
  NoDup (map rec_date recs) ->
  rows ≡ₚ rows' ->
  normalize rows' = normalize rows.
Proof.
  intros Hrecs Hnd Hperm.
  destruct (rows_to_records_perm rows rows' Hperm recs Hrecs) as (recs' & Hrecs' & Hp).
  unfold normalize. rewrite Hrecs, Hrecs'. simpl. f_equal.
  apply date_lt_sorted_unique; try apply dedup_sorted.
  rewrite !dedup_distinct_dates; [now symmetry|assumption|].
  change (map rec_date recs') with (rec_date <$> recs'). now rewrite <- Hp.
Qed.

(** X3. Rows that come in strictly ascending order of date, as a daily
    series does, go through unchanged: [normalize] returns their records,
    all of them, in the order of the rows. *)
Theorem normalize_sorted_rows_unchanged (rows : list pyval) (recs : list record) :
  rows_to_records rows = Ok recs ->
  StronglySorted date_lt recs ->
  normalize rows = Ok recs.
Proof.
  intros Hrecs Hs. unfold normalize. rewrite Hrecs. simpl. f_equal.
  apply date_lt_sorted_unique; [apply dedup_sorted|assumption|].
  apply dedup_distinct_dates. now apply date_lt_sorted_NoDup.
Qed.
End NormalizeMore.

(** ** fetch_rhodl_json with any bound on the attempts *)

Lemma py_range_cons (a b : Z) : a < b -> py_range a b = a :: py_range (a + 1) b.
Proof.
  intros Hab. unfold py_range.
  replace (Z.to_nat (b - a)) with (S (Z.to_nat (b - (a + 1)))) by lia.
  cbn [seq map]. f_equal; [lia|].
  rewrite <- seq_shift, map_map. apply map_ext. intros i. lia.
Qed.

Lemma py_range_nil (a b : Z) : b <= a -> py_range a b = [].
Proof. intros Hab. unfold py_range. now replace (Z.to_nat (b - a)) with 0%nat by lia. Qed.

Section FetchMore.
Variables (headers : list (string * string)) (max_retries timeout : Z).

(** After [j] failures the next attempt finds a document. *)
Lemma fetch_attempts_succeeds (j : nat) (a : Z) (last_err : option string) (n : net)
    (doc : pyval) :
  (forall i, (i < j)%nat -> failure (endpoint n (sent n + i)) <> None) ->
  endpoint n (sent n + j) = Document doc ->
  a + Z.of_nat j <= max_retries ->
  let run := fetch_attempts headers max_retries timeout
               (py_range a (max_retries + 1)) last_err n in
  run.1 = Ok doc /\ endpoint run.2 = endpoint n /\ sent run.2 = (sent n + j + 1)%nat
  /\ trace run.2
     = (trace n ++ retries (EvGet API_URL headers timeout) a j
          ++ [EvGet API_URL headers timeout])%list.
Proof.
  revert a last_err n. induction j as [|j IH]; intros a last_err n Hfail Hdoc Ha;
    cbv zeta; rewrite py_range_cons by lia.
  - rewrite Nat.add_0_r in Hdoc.
    rewrite (fetch_attempts_document _ _ _ _ _ _ _ _ Hdoc). cbn.
    split; [reflexivity|]. split; [reflexivity|]. split; [lia|reflexivity].
  - destruct (failure (endpoint n (sent n))) as [e|] eqn:E.
    2: { exfalso. apply (Hfail 0%nat); [lia|]. now rewrite Nat.add_0_r. }
    rewrite (fetch_attempts_failure _ _ _ _ _ _ _ e E). cbv zeta.
    replace (a <? max_retries) with true by (symmetry; apply Z.ltb_lt; lia).
    set (n1 := log_event (EvSleep (backoff a))
                 (count_request (EvGet API_URL headers timeout) n)).
    destruct (IH (a + 1) (Some e) n1) as (H1 & H2 & H3 & H4).
    + intros i Hi. change (failure (endpoint n (S (sent n) + i)) <> None).
      rewrite Nat.add_succ_comm. apply Hfail. lia.
    + change (endpoint n (S (sent n) + j) = Document doc). now rewrite Nat.add_succ_comm.
    + lia.
    + fold n1. rewrite H1, H2, H3, H4. cbn.
      split; [reflexivity|]. split; [reflexivity|]. split; [lia|].
      now rewrite <- !app_assoc.
Qed.

(** All the attempts that are left fail. *)
Lemma fetch_attempts_exhausted (k : nat) (a : Z) (last_err : option string) (n : net)
    (e : string) :
  (forall i, (i < S k)%nat -> failure (endpoint n (sent n + i)) <> None) ->
  failure (endpoint n (sent n + k)) = Some e ->
  a + Z.of_nat k = max_retries ->
  let run := fetch_attempts headers max_retries timeout
               (py_range a (max_retries + 1)) last_err n in
  run.1 = Raise (SystemExit ("ERROR: API request failed after " ++ int_repr max_retries
                             ++ " attempts: " ++ e))
  /\ endpoint run.2 = endpoint n /\ sent run.2 = (sent n + k + 1)%nat
  /\ trace run.2
     = (trace n ++ retries (EvGet API_URL headers timeout) a k
          ++ [EvGet API_URL headers timeout])%list.
Proof.
  revert a last_err n. induction k as [|k IH]; intros a last_err n Hfail He Ha;
    cbv zeta; rewrite py_range_cons by lia.
  - rewrite Nat.add_0_r in He.
    rewrite (fetch_attempts_failure _ _ _ _ _ _ _ e He). cbv zeta.
    replace (a <? max_retries) with false by (symmetry; apply Z.ltb_ge; lia).
    rewrite py_range_nil by lia. cbn.
    split; [reflexivity|]. split; [reflexivity|]. split; [lia|reflexivity].
  - destruct (failure (endpoint n (sent n))) as [e0|] eqn:E.
    2: { exfalso. apply (Hfail 0%nat); [lia|]. now rewrite Nat.add_0_r. }
    rewrite (fetch_attempts_failure _ _ _ _ _ _ _ e0 E). cbv zeta.
    replace (a <? max_retries) with true by (symmetry; apply Z.ltb_lt; lia).
    set (n1 := log_event (EvSleep (backoff a))
                 (count_request (EvGet API_URL headers timeout) n)).
    destruct (IH (a + 1) (Some e0) n1) as (H1 & H2 & H3 & H4).
    + intros i Hi. change (failure (endpoint n (S (sent n) + i)) <> None).
      rewrite Nat.add_succ_comm. apply Hfail. lia.
    + change (failure (endpoint n (S (sent n) + k)) = Some e). now rewrite Nat.add_succ_comm.
    + lia.
    + fold n1. rewrite H1, H2, H3, H4. cbn.
      split; [reflexivity|]. split; [reflexivity|]. split; [lia|].
      now rewrite <- !app_assoc.
Qed.
End FetchMore.

(** X4. Whatever the bound [max_retries] and the timeout: when the first
    [j] GETs fail and the next one, still within the bound, brings a
    document, [fetch_rhodl_json] returns that document after [j + 1]
    GETs, having paused [1.5 * i] seconds after the [i]-th failure, and
    asks for nothing more. *)
Theorem fetch_returns_first_document (api_key : string) (max_retries timeout : Z)
    (j : nat) (n : net) (doc : pyval) :
  (forall i, (i < j)%nat -> failure (endpoint n (sent n + i)) <> None) ->
  endpoint n (sent n + j) = Document doc ->
  Z.of_nat j < max_retries ->
  let run := fetch_rhodl_json api_key max_retries timeout n in
  run.1 = Ok doc /\ sent run.2 = (sent n + j + 1)%nat
  /\ trace run.2
     = (trace n ++ retries (get_event api_key timeout) 1 j ++ [get_event api_key timeout])%list.
Proof.
  intros Hfail Hdoc Hj. cbv zeta. unfold fetch_rhodl_json.
  destruct (fetch_attempts_succeeds
              [("accept", "application/json"); ("CG-API-KEY", api_key);
               ("User-Agent", "rhodl-fetch/1.0")]
              max_retries timeout j 1 None n doc Hfail Hdoc ltac:(lia))
    as (H1 & _ & H3 & H4).
  auto.
Qed.

(** X5. Whatever the bound [max_retries >= 1]: when that many GETs fail
    one after another, [fetch_rhodl_json] has made exactly [max_retries]
    GETs, has paused after each but the last, and ends in [SystemExit]
    with a message that names the bound and the text of the last
    failure. *)
Theorem fetch_gives_up_at_the_bound (api_key : string) (max_retries timeout : Z)
    (n : net) (e : string) :
  1 <= max_retries ->
  (forall i, (i < Z.to_nat max_retries)%nat -> failure (endpoint n (sent n + i)) <> None) ->
  failure (endpoint n (sent n + Z.to_nat max_retries - 1)) = Some e ->
  let run := fetch_rhodl_json api_key max_retries timeout n in
  run.1 = Raise (SystemExit ("ERROR: API request failed after " ++ int_repr max_retries
                             ++ " attempts: " ++ e))
  /\ sent run.2 = (sent n + Z.to_nat max_retries)%nat
  /\ trace run.2
     = (trace n ++ retries (get_event api_key timeout) 1 (Z.to_nat max_retries - 1)
          ++ [get_event api_key timeout])%list.
Proof.
  intros Hm Hfail He. cbv zeta. unfold fetch_rhodl_json.
  destruct (fetch_attempts_exhausted
              [("accept", "application/json"); ("CG-API-KEY", api_key);
               ("User-Agent", "rhodl-fetch/1.0")]
              max_retries timeout (Z.to_nat max_retries - 1) 1 None n e)
    as (H1 & _ & H3 & H4).
  - intros i Hi. apply Hfail. lia.
  - now replace (sent n + (Z.to_nat max_retries - 1))%nat
      with (sent n + Z.to_nat max_retries - 1)%nat by lia.
  - lia.
  - split; [exact H1|]. split; [lia|exact H4].
Qed.

(** X6. With a bound below 1 the loop has nothing to run over:
    [fetch_rhodl_json] sends no request and does not pause; it ends in
    [SystemExit] at once, and the message gives [None] for the error. *)
Theorem fetch_without_attempts (api_key : string) (max_retries timeout : Z) (n : net) :
  max_retries <= 0 ->
  fetch_rhodl_json api_key max_retries timeout n
  = (Raise (SystemExit ("ERROR: API request failed after " ++ int_repr max_retries
                        ++ " attempts: None")), n).
Proof.
  intros Hm. unfold fetch_rhodl_json. rewrite py_range_nil by lia. reflexivity.
Qed.

(** ** save_json and the file system *)

Lemma removelast_take {A} (l : list A) : removelast l = take (length l - 1) l.
Proof.
  induction l as [|x [|y l] IH]; [reflexivity..|].
  change (removelast (x :: y :: l)) with (x :: removelast (y :: l)).
  rewrite IH. cbn [length]. replace (S (S (length l)) - 1)%nat with (S (S (length l) - 1)) by lia.
  reflexivity.
Qed.

Lemma ancestor_parent (q p : path) :
  ancestor q p
  <-> exists k : nat, (1 <= k <= length (parent p))%nat /\ q = ([] ++ take k (parent p))%list.
Proof.
  unfold ancestor, parent. rewrite removelast_take, length_take. cbn [app].
  split; intros (k & Hk & ->); exists k; (split; [lia|]).
  - rewrite take_take. f_equal. lia.
  - rewrite take_take. f_equal. lia.
Qed.

Lemma classic_ancestor (q p : path) : ancestor q p \/ ~ ancestor q p.
Proof.
  destruct (decide (Exists (fun k => q = take k p) (seq 1 (length p - 1)))) as [Hy|Hn].
  - left. apply Exists_exists in Hy as (k & Hk%elem_of_seq & ->).
    exists k. split; [lia|reflexivity].
  - right. intros (k & Hk & ->). apply Hn, Exists_exists. exists k. split; [|reflexivity].
    apply elem_of_seq. lia.
Qed.

Lemma ancestor_ne (q p : path) : ancestor q p -> q <> p.
Proof.
  intros (k & Hk & ->) Heq. apply (f_equal length) in Heq.
  rewrite length_take in Heq. lia.
Qed.

(** [mkdir]: it goes through exactly when no file is in the way, and then
    the directories on the way exist and nothing else has changed. *)
Lemma mkdir_from_spec (todo done : path) (fs : filesystem) :
  let on_the_way q :=
    exists k : nat, (1 <= k <= length todo)%nat /\ q = (done ++ take k todo)%list in
  match mkdir_from done todo fs with
  | Ok fs' =>
      (forall q, on_the_way q -> fs' !! q = Some Dir /\ (fs !! q = None \/ fs !! q = Some Dir))
      /\ (forall q, ~ on_the_way q -> fs' !! q = fs !! q)
  | Raise e =>
      (exists msg, e = OSError msg)
      /\ exists q text, on_the_way q /\ fs !! q = Some (File text)
  end.
Proof.
  cbv zeta. revert done fs. induction todo as [|name todo IH]; intros done fs.
  - simpl. split; [|reflexivity]. intros q (k & Hk & _). simpl in Hk. lia.
  - cbn [mkdir_from].
    assert (Hshift : forall q,
              (exists k : nat, (1 <= k <= length (name :: todo))%nat
                               /\ q = (done ++ take k (name :: todo))%list)
              <-> q = (done ++ [name])%list
                  \/ exists k : nat, (1 <= k <= length todo)%nat
                                     /\ q = ((done ++ [name]) ++ take k todo)%list).
    { intros q. split.
      - intros ([|[|k]] & Hk & ->); [simpl in Hk; lia|left; reflexivity|].
        right. exists (S k). split; [simpl in Hk; lia|]. now rewrite <- app_assoc.
      - intros [->|(k & Hk & ->)].
        + exists 1%nat. split; [simpl; lia|reflexivity].
        + exists (S k). split; [simpl; lia|]. now rewrite <- app_assoc. }
    assert (Hdeeper : forall k : nat, (1 <= k <= length todo)%nat ->
              ((done ++ [name]) ++ take k todo)%list <> (done ++ [name])%list).
    { intros k Hk Heq. apply (f_equal length) in Heq.
      rewrite !length_app, length_take in Heq. simpl in Heq. lia. }
    destruct (fs !! (done ++ [name])%list) as [[|text]|] eqn:Ehere.
    + specialize (IH (done ++ [name])%list fs).
      destruct (mkdir_from (done ++ [name]) todo fs) as [fs'|e].
      * destruct IH as [Hon Hoff]. split.
        -- intros q [->|Hq]%Hshift; [|now apply Hon].
           rewrite Hoff; [auto|]. intros (k & Hk & Heq). symmetry in Heq.
           now apply Hdeeper in Heq.
        -- intros q Hq. apply Hoff. intros Hq'. apply Hq, Hshift. now right.
      * destruct IH as [Hmsg (q & text & Hq & Hfile)]. split; [assumption|].
        exists q, text. split; [|assumption]. apply Hshift. now right.
    + split; [now eexists|]. exists (done ++ [name])%list, text.
      split; [|assumption]. apply Hshift. now left.
    + specialize (IH (done ++ [name])%list (<[(done ++ [name])%list := Dir]> fs)).
      destruct (mkdir_from (done ++ [name]) todo _) as [fs'|e].
      * destruct IH as [Hon Hoff]. split.
        -- intros q [->|Hq]%Hshift.
           ++ rewrite Hoff, lookup_insert_eq; [auto|].
              intros (k & Hk & Heq). symmetry in Heq. now apply Hdeeper in Heq.
           ++ destruct (Hon q Hq) as [Hq' Hold]. split; [assumption|].
              destruct Hq as (k & Hk & ->).
              now rewrite lookup_insert_ne in Hold by (symmetry; now apply Hdeeper).
        -- intros q Hq. rewrite Hoff.
           ++ apply lookup_insert_ne. intros <-. apply Hq, Hshift. now left.
           ++ intros Hq'. apply Hq, Hshift. now right.
      * destruct IH as [Hmsg (q & text & Hq & Hfile)]. split; [assumption|].
        exists q, text. split; [apply Hshift; now right|].
        destruct Hq as (k & Hk & ->).
        now rewrite lookup_insert_ne in Hfile by (symmetry; now apply Hdeeper).
Qed.

Section SaveMore.
Context {RT : PyRuntime}.

(** The run of [save_json], in one. *)
Lemma save_json_spec (p : path) (data : list record) (fs : filesystem) :
  match save_json p data fs with
  | (Ok _, fs') =>
      fs !! p <> Some Dir
      /\ fs' !! p = Some (File (json_dumps (PList (map record_to_py data))))
      /\ (forall q, ancestor q p ->
            fs' !! q = Some Dir /\ (fs !! q = None \/ fs !! q = Some Dir))
      /\ (forall q, q <> p -> ~ ancestor q p -> fs' !! q = fs !! q)
  | (Raise e, fs') =>
      (exists msg, e = OSError msg)
      /\ ((exists q text, ancestor q p /\ fs !! q = Some (File text)) /\ fs' = fs
          \/ fs !! p = Some Dir
              /\ (forall q, ancestor q p -> fs' !! q = Some Dir)
              /\ (forall q, ~ ancestor q p -> fs' !! q = fs !! q))
  end.
Proof.
  unfold save_json, mbind, io_mbind, io_bind, mkdir_parents.
  pose proof (mkdir_from_spec (parent p) [] fs) as Hmk. cbv zeta in Hmk.
  destruct (mkdir_from [] (parent p) fs) as [fs1|e].
  - destruct Hmk as [Hon Hoff].
    assert (Hp : fs1 !! p = fs !! p).
    { apply Hoff. intros Hq%ancestor_parent. now apply ancestor_ne in Hq. }
    unfold write_text. rewrite Hp.
    destruct (fs !! p) as [[|old]|] eqn:Ep.
    + split; [now eexists|]. right. split; [reflexivity|]. split.
      * intros q Hq. now apply Hon, ancestor_parent.
      * intros q Hq. apply Hoff. now rewrite <- ancestor_parent.
    + split; [discriminate|]. split; [apply lookup_insert_eq|]. split.
      * intros q Hq. rewrite lookup_insert_ne by (intros <-; now apply ancestor_ne in Hq).
        now apply Hon, ancestor_parent.
      * intros q Hne Hq. rewrite lookup_insert_ne by congruence.
        apply Hoff. now rewrite <- ancestor_parent.
    + split; [discriminate|]. split; [apply lookup_insert_eq|]. split.
      * intros q Hq. rewrite lookup_insert_ne by (intros <-; now apply ancestor_ne in Hq).
        now apply Hon, ancestor_parent.
      * intros q Hne Hq. rewrite lookup_insert_ne by congruence.
        apply Hoff. now rewrite <- ancestor_parent.
  - destruct Hmk as [Hmsg (q & text & Hq & Hfile)]. split; [assumption|].
    left. split; [|reflexivity]. exists q, text. split; [|assumption].
    now apply ancestor_parent.
Qed.

(** X7. When [save_json] succeeds, the path holds the JSON text of the
    records, whatever file was there before; the directories above it
    exist, those that were there untouched; and every other path of the
    file system is as it was. *)
Theorem save_json_layout (p : path) (data : list record) (fs fs' : filesystem) :
  save_json p data fs = (Ok tt, fs') ->
  fs' !! p = Some (File (json_dumps (PList (map record_to_py data))))
  /\ (forall q, ancestor q p -> fs' !! q = Some Dir)
  /\ (forall q, q <> p -> ~ ancestor q p -> fs' !! q = fs !! q)
  /\ (forall q, ancestor q p -> is_Some (fs !! q) -> fs !! q = Some Dir).
Proof.
  intros Hsave. pose proof (save_json_spec p data fs) as Hspec. rewrite Hsave in Hspec.
  destruct Hspec as (_ & Hp & Hanc & Hoff).
  split; [assumption|]. split; [intros q Hq; now apply Hanc|]. split; [assumption|].
  intros q Hq [x Hx]. destruct (Hanc q Hq) as [_ [Hnone|Hdir]]; congruence.
Qed.

(** X8. In a file system where everything lies in directories,
    [save_json] succeeds unless the path is a directory or a file stands
    where a directory above it should be; when it fails it raises an
    [OSError] for one of these two reasons and has changed nothing. *)
Theorem save_json_fails_cleanly (p : path) (data : list record) (fs : filesystem) :
  tree fs ->
  (fs !! p <> Some Dir
   -> (forall q text, ancestor q p -> fs !! q <> Some (File text))
   -> exists fs', save_json p data fs = (Ok tt, fs'))
  /\ forall e fs', save_json p data fs = (Raise e, fs') ->
       fs' = fs /\ (exists msg, e = OSError msg)
       /\ (fs !! p = Some Dir
           \/ exists q text, ancestor q p /\ fs !! q = Some (File text)).
Proof.
  intros Htree. pose proof (save_json_spec p data fs) as Hspec. split.
  - intros Hp Hanc. destruct (save_json p data fs) as [[[]|e] fs']; [eauto|].
    destruct Hspec as [_ [[(q & text & Hq & Hfile) _]|[Hdir _]]]; [|contradiction].
    now apply Hanc in Hfile.
  - intros e fs' Hsave. rewrite Hsave in Hspec.
    destruct Hspec as [Hmsg [[Hfile ->]|(Hdir & Hanc & Hoff)]]; [auto|].
    split; [|auto]. apply map_eq. intros q.
    destruct (classic_ancestor q p) as [Hq|Hq].
    + rewrite (Hanc q Hq). symmetry. apply (Htree p); [now rewrite Hdir|assumption].
    + now apply Hoff.
Qed.

(** X9. The last save wins: saving one list and then another at the same
    path leaves the file system exactly as saving the second alone. *)
Theorem save_json_last_write_wins (p : path) (data1 data2 : list record)
    (fs fs1 : filesystem) :
  save_json p data1 fs = (Ok tt, fs1) ->
  save_json p data2 fs1 = save_json p data2 fs
  /\ exists fs2, save_json p data2 fs = (Ok tt, fs2).
Proof.
  intros Hsave. pose proof (save_json_spec p data1 fs) as H1. rewrite Hsave in H1.
  destruct H1 as (Hnd & Hp1 & Hanc1 & Hoff1).
  pose proof (save_json_spec p data2 fs) as H2.
  pose proof (save_json_spec p data2 fs1) as H3.
  destruct (save_json p data2 fs) as [[[]|e] fs2].
  2: { destruct H2 as [_ [[(q & text & Hq & Hfile) _]|[Hdir _]]]; [|contradiction].
       destruct (Hanc1 q Hq) as [_ [?|?]]; congruence. }
  destruct (save_json p data2 fs1) as [[[]|e] fs3].
  2: { destruct H3 as [_ [[(q & text & Hq & Hfile) _]|[Hdir _]]]; [|congruence].
       destruct (Hanc1 q Hq) as [? _]; congruence. }
  split; [|eauto]. f_equal.
  destruct H2 as (_ & Hp2 & Hanc2 & Hoff2). destruct H3 as (_ & Hp3 & Hanc3 & Hoff3).
  apply map_eq. intros q.
  destruct (decide (q = p)) as [->|Hne]; [congruence|].
  destruct (classic_ancestor q p) as [Hq|Hq].
  - destruct (Hanc2 q Hq) as [-> _]. now destruct (Hanc3 q Hq) as [-> _].
  - rewrite Hoff3, Hoff2, Hoff1 by assumption. reflexivity.
Qed.

(** X10. [save_json] keeps the file system in order: if everything lay in
    directories before, it does so afterwards. *)
Theorem save_json_keeps_tree (p : path) (data : list record) (fs fs' : filesystem) :
  tree fs -> save_json p data fs = (Ok tt, fs') -> tree fs'.
Proof.
  intros Htree Hsave. pose proof (save_json_spec p data fs) as Hspec.
  rewrite Hsave in Hspec. destruct Hspec as (Hnd & Hp & Hanc & Hoff).
  intros x Hx a Ha.
  destruct (classic_ancestor a p) as [Hap|Hap]; [now apply Hanc|].
  destruct (decide (x = p)) as [->|Hxp]; [contradiction|].
  destruct (classic_ancestor x p) as [Hxanc|Hxanc].
  { exfalso. apply Hap. destruct Hxanc as (k & Hk & ->). destruct Ha as (j & Hj & ->).
    rewrite length_take in Hj. exists j. split; [lia|]. rewrite take_take. f_equal. lia. }
  rewrite Hoff in Hx by assumption.
  assert (Hdir : fs !! a = Some Dir) by now apply (Htree x).
  destruct (decide (a = p)) as [->|Hne]; [contradiction|].
  now rewrite Hoff.
Qed.
End SaveMore.

(** ** The sinks: how the two modes act together *)

(** Two grids with the same cells stored and the same content are one. *)
Lemma grid_ext (g1 g2 : grid) :
  (forall rc, is_Some (g1 !! rc) <-> is_Some (g2 !! rc)) ->
  (forall rc, cell_at g1 rc = cell_at g2 rc) ->
  g1 = g2.
Proof.
  intros Hdom Hcell. apply map_eq. intros rc.
  specialize (Hdom rc). specialize (Hcell rc). unfold cell_at in Hcell.
  destruct (g1 !! rc) as [c1|], (g2 !! rc) as [c2|]; simpl in Hcell.
  - now subst.
  - destruct Hdom as [Hd _]. destruct (Hd ltac:(eauto)) as [? [=]].
  - destruct Hdom as [_ Hd]. destruct (Hd ltac:(eauto)) as [? [=]].
  - reflexivity.
Qed.

Lemma stored_write_cell rc v g rc' :
  is_Some (write_cell rc v g !! rc') <-> is_Some (g !! rc') \/ (rc = rc' /\ puts v).
Proof.
  unfold write_cell, puts. destruct (cell_input_of v) as [[|x]|].
  - split; [auto|]. intros [?|[_ [x [=]]]]. assumption.
  - rewrite lookup_insert. case_decide as Hrc.
    + split; [intros _; right; eauto|intros _; eauto].
    + split; [auto|]. intros [?|[? _]]; [assumption|contradiction].
  - split; [auto|]. intros [?|[_ [x [=]]]]. assumption.
Qed.

Lemma stored_write_row r c row g r' c' :
  is_Some (write_row r c row g !! (r', c'))
  <-> is_Some (g !! (r', c'))
      \/ (r' = r /\ (c <= c')%nat /\ exists v, row !! (c' - c)%nat = Some v /\ puts v).
Proof.
  revert c g. induction row as [|v row IH]; intros c g; simpl.
  - split; [auto|]. intros [?|(_ & _ & v & Hv & _)]; [assumption|].
    now rewrite lookup_nil in Hv.
  - rewrite IH, stored_write_cell. split.
    + intros [[?|[[= -> ->] Hp]]|(-> & Hc & v' & Hv' & Hp)]; [auto| |].
      * right. split; [reflexivity|]. split; [lia|]. exists v.
        now rewrite Nat.sub_diag.
      * right. split; [reflexivity|]. split; [lia|]. exists v'.
        replace (c' - c)%nat with (S (c' - S c)) by lia. auto.
    + intros [?|(-> & Hc & v' & Hv' & Hp)]; [auto|].
      destruct (decide (c' = c)) as [->|Hne].
      * rewrite Nat.sub_diag in Hv'. simpl in Hv'. injection Hv' as ->. auto.
      * right. split; [reflexivity|]. split; [lia|]. exists v'.
        replace (c' - c)%nat with (S (c' - S c)) in Hv' by lia. auto.
Qed.

Lemma stored_write_rows r c rows g rc :
  is_Some (write_rows r c rows g !! rc)
  <-> is_Some (g !! rc) \/ exists v, data_at r c rows rc = Some v /\ puts v.
Proof.
  destruct rc as [r' c'].
  revert r g. induction rows as [|row rows IH]; intros r g; cbn [write_rows].
  - rewrite data_at_nil. split; [auto|]. intros [?|[v [[=] _]]]. assumption.
  - rewrite IH, stored_write_row, data_at_cons.
    destruct (decide (r' = r)) as [->|Hne].
    + assert (Hnone : data_at (S r) c rows (r, c') = None).
      { unfold data_at. cbn [fst snd].
        now replace (S r <=? r)%nat with false by (symmetry; apply Nat.leb_gt; lia). }
      rewrite Hnone. destruct (decide (c <= c')%nat) as [Hc|Hc].
      * split.
        -- intros [[?|(_ & _ & v & Hv & Hp)]|[v [[=] _]]]; eauto.
        -- intros [?|(v & Hv & Hp)]; [auto|]. left. right. eauto.
      * split.
        -- intros [[?|(_ & ? & _)]|[v [[=] _]]]; [auto|lia].
        -- intros [?|(v & [=] & _)]. auto.
    + split.
      * intros [[?|(? & _)]|?]; [auto|contradiction|auto].
      * intros [?|?]; auto.
Qed.

Lemma stored_clear_values rg g rc :
  is_Some (clear_values rg g !! rc) <-> is_Some (g !! rc).
Proof.
  unfold clear_values. rewrite map_lookup_imap.
  destruct (g !! rc) as [c|]; simpl; [|reflexivity].
  split; intros _; eauto.
Qed.

(** Clearing a grid that holds no value changes nothing. *)
Lemma clear_values_valueless rg g : valueless g -> clear_values rg g = g.
Proof.
  intros Hg. apply grid_ext; [intros rc; apply stored_clear_values|].
  intros rc. rewrite cell_at_clear_values. destruct (in_grid_range rg rc); [|reflexivity].
  specialize (Hg rc). destruct (cell_at g rc) as [v f nt]. simpl in Hg. now subst.
Qed.

(** What the rows of the script put into the cells. *)
Lemma data_at_elem {A} r c (rows : list (list A)) rc v :
  data_at r c rows rc = Some v -> exists row, row ∈ rows /\ v ∈ row.
Proof.
  unfold data_at. destruct (_ && _); [|discriminate].
  destruct (rows !! (rc.1 - r)%nat) as [row|] eqn:Er; simpl; [|discriminate].
  intros Hv. exists row. split; eapply list_elem_of_lookup_2; eassumption.
Qed.

Lemma sheet_rows_put records r c rc v :
  Forall ratio_finite records ->
  data_at r c (HEADER :: map sheet_row records) rc = Some v -> puts v.
Proof.
  intros Hfin (row & Hrow & Hv)%data_at_elem.
  apply elem_of_cons in Hrow as [->|Hrow].
  - unfold HEADER in Hv. apply elem_of_cons in Hv as [->|Hv]; [unfold puts; simpl; eauto|].
    apply list_elem_of_singleton in Hv as ->. unfold puts; simpl; eauto.
  - apply list_elem_of_fmap in Hrow as (rec & -> & Hrec). unfold sheet_row in Hv.
    apply elem_of_cons in Hv as [->|Hv]; [unfold puts; simpl; eauto|].
    apply list_elem_of_singleton in Hv as ->.
    rewrite Forall_forall in Hfin. specialize (Hfin rec Hrec).
    unfold puts, ratio_finite in *. cbn [cell_input_of]. rewrite Hfin. eauto.
Qed.

(** A run of overwrite mode that returned: every ratio was finite, and
    the sheet holds what was written over the cleared columns. *)
Lemma overwrite_returned (ws : Worksheet) (records : list record)
    (ss ss1 : spreadsheet) (sh : sheet) :
  ss !! ws_id ws = Some sh ->
  write_cols_ab_overwrite ws records ss = (Ok tt, ss1) ->
  Forall ratio_finite records
  /\ ss1 = with_cells ss (ws_id ws) sh
             (write_rows 0 0 (HEADER :: map sheet_row records)
                (clear_values (a1_range_to_grid_range (ws_id ws) A_B) (sheet_cells sh))).
Proof.
  intros Hs Hrun. rewrite (write_cols_ab_overwrite_run ws records ss sh Hs) in Hrun.
  cbv zeta in Hrun.
  destruct (forallb _ records) eqn:Hfin; [|discriminate Hrun].
  split; [now apply ratio_finite_forallb | congruence].
Qed.

Lemma overwrite_finite (ws : Worksheet) (records : list record)
    (ss : spreadsheet) (sh : sheet) :
  ss !! ws_id ws = Some sh ->
  Forall ratio_finite records ->
  write_cols_ab_overwrite ws records ss
  = (Ok tt,
     with_cells ss (ws_id ws) sh
       (write_rows 0 0 (HEADER :: map sheet_row records)
          (clear_values (a1_range_to_grid_range (ws_id ws) A_B) (sheet_cells sh)))).
Proof.
  intros Hs Hfin. rewrite (write_cols_ab_overwrite_run ws records ss sh Hs). cbv zeta.
  apply ratio_finite_forallb in Hfin. now rewrite Hfin.
Qed.

Lemma sink_on_missing_sheet (ws : Worksheet) (records : list record) (ss : spreadsheet) :
  ss !! ws_id ws = None ->
  write_cols_ab_overwrite ws records ss = (Raise (APIError "No sheet with this id"), ss).
Proof.
  intros Hs. unfold write_cols_ab_overwrite.
  change (clear_cols_ab ws ≫= ?k) with (io_bind (clear_cols_ab ws) k).
  unfold io_bind. now rewrite clear_cols_ab_unknown.
Qed.

Section SinksTogether.
Context {SV : SheetsService}.

Lemma formatted_valueless (c : cell_data) : userEnteredValue c = None -> formatted_value c = "".
Proof. unfold formatted_value. now intros ->. Qed.

Lemma column_values_valueless (col : nat) (g : grid) : valueless g -> column_values col g = [].
Proof.
  intros Hg. apply column_values_nil.
  destruct (rows_displayed col g) as [|k] eqn:E; [reflexivity|].
  destruct (rows_displayed_last col g ltac:(lia)) as [r Hr].
  exfalso. apply Hr, formatted_valueless, Hg.
Qed.

Lemma filter_all {A} (P : A -> Prop) `{!forall x, Decision (P x)} (l : list A) :
  (forall y, y ∈ l -> P y) -> filter P l = l.
Proof.
  induction l as [|x l IH]; intros Hall; [reflexivity|].
  rewrite filter_cons_True by (apply Hall; left). f_equal. apply IH.
  intros y Hy. apply Hall. now right.
Qed.

(** After the header went into an empty sheet, one row is in use. *)
Lemma rows_used_header (g : grid) :
  valueless g -> rows_used (write_rows 0 0 [HEADER] g) = 1%nat.
Proof.
  intros Hg. set (g0 := write_rows 0 0 [HEADER] g).
  assert (Hlo : (0 < rows_used g0)%nat).
  { apply (rows_used_above g0 0 0). subst g0. rewrite cell_at_header. discriminate. }
  destruct (rows_used_last g0 Hlo) as [c Hc].
  destruct (rows_used g0) as [|[|k]]; [lia|reflexivity|].
  exfalso. apply Hc. subst g0. rewrite cell_at_header. unfold header_cell.
  rewrite !decide_False by discriminate. apply Hg.
Qed.

(** A run of append mode on a sheet that lists every date already. *)
Lemma append_nothing_new (ws : Worksheet) (records : list record) (ss : spreadsheet)
    (sh : sheet) :
  ss !! ws_id ws = Some sh ->
  column_values 0 (sheet_cells sh) <> [] ->
  (forall r, r ∈ records -> rec_date r ∈ present_dates (column_values 0 (sheet_cells sh))) ->
  append_only_cols_ab ws records ss = (Ok 0%nat, ss).
Proof.
  intros Hs Hne Hall.
  rewrite (append_only_cols_ab_run ws records ss sh Hs). cbv zeta.
  rewrite filter_none by (intros r Hr Hnot; now apply Hnot, Hall).
  destruct (column_values 0 (sheet_cells sh)); [contradiction|].
  cbn [forallb length]. now rewrite with_cells_same.
Qed.


(** The date column after append mode. *)
Lemma append_column (records : list record) (g : grid) :
  let existing := column_values 0 g in
  let g0 := match existing with
            | [] => write_rows 0 0 [HEADER] g
            | _ :: _ => g
            end in
  let fresh := filter (fun r => rec_date r ∉ present_dates existing) records in
  let g1 := match fresh with
            | [] => g0
            | _ :: _ => write_rows (rows_used g0) 0 (map sheet_row fresh) g0
            end in
  column_values 0 g1 <> []
  /\ forall r, r ∈ records -> rec_date r <> "" ->
       rec_date r ∈ present_dates (column_values 0 g1).
Proof.
  intros existing g0 fresh g1.
  set (n := rows_used g0).
  assert (Hg1 : g1 = write_rows n 0 (map sheet_row fresh) g0).
  { subst g1. now destruct fresh. }
  clearbody g1. subst g1.
  assert (Hcell : forall r c,
            cell_at (write_rows n 0 (map sheet_row fresh) g0) (r, c)
            = match (if (n <=? r)%nat
                     then rec ← fresh !! (r - n)%nat; sheet_row rec !! c
                     else None) with
              | Some v => put_input (cell_input_of v) (cell_at g0 (r, c))
              | None => cell_at g0 (r, c)
              end).
  { intros r c. rewrite cell_at_write_rows. unfold written.
    now rewrite data_at_sheet_rows_from. }
  assert (Hold : forall r, formatted_value (cell_at g0 (r, 0%nat)) <> "" ->
            cell_at (write_rows n 0 (map sheet_row fresh) g0) (r, 0%nat)
            = cell_at g0 (r, 0%nat)).
  { intros r Hr. rewrite Hcell.
    assert (Hlt : (r < rows_displayed 0 g0)%nat) by now apply rows_displayed_above.
    pose proof (rows_displayed_le_used 0 g0) as Hle. fold n in Hle.
    replace (n <=? r)%nat with false by (symmetry; apply Nat.leb_gt; lia).
    reflexivity. }
  assert (Hhead : exists r, formatted_value (cell_at g0 (r, 0%nat)) <> "").
  { subst g0. destruct existing as [|x rest] eqn:Ee.
    - exists 0%nat. rewrite cell_at_header. discriminate.
    - apply rows_displayed_last.
      destruct (rows_displayed 0 g) eqn:E; [|lia].
      apply column_values_nil in E. fold existing in E. congruence. }
  assert (Hn : (1 <= n)%nat).
  { destruct Hhead as [r Hr]. apply rows_displayed_above in Hr.
    pose proof (rows_displayed_le_used 0 g0). subst n. lia. }
  assert (Hkept : forall d, d ∈ present_dates existing -> d ∈ present_dates (column_values 0 g0)).
  { subst g0. destruct existing as [|x rest] eqn:Ee; [|now fold existing; rewrite Ee].
    unfold present_dates. simpl. set_solver. }
  split.
  - rewrite column_values_nil. destruct Hhead as [r Hr].
    assert (r < rows_displayed 0 (write_rows n 0 (map sheet_row fresh) g0))%nat; [|lia].
    apply rows_displayed_above. now rewrite Hold.
  - intros r Hr Hd. apply elem_of_present_dates. split; [assumption|].
    destruct (decide (rec_date r ∈ present_dates existing)) as [Hp|Hp].
    + apply Hkept, elem_of_present_dates in Hp as [_ (k & Hk & Hf)].
      exists k. split; [assumption|]. rewrite Hold; [assumption|congruence].
    + assert (Hfr : r ∈ fresh) by (apply list_elem_of_filter; auto).
      apply list_elem_of_lookup in Hfr as [i Hi].
      exists (n + i)%nat. split; [lia|]. rewrite Hcell.
      replace (n <=? n + i)%nat with true by (symmetry; apply Nat.leb_le; lia).
      replace (n + i - n)%nat with i by lia. rewrite Hi. cbn.
      rewrite decide_False by assumption. reflexivity.
Qed.

Lemma sink_needs_sheet (ws : Worksheet) (records : list record) (ss ss1 : spreadsheet) :
  write_cols_ab_overwrite ws records ss = (Ok tt, ss1) -> is_Some (ss !! ws_id ws).
Proof.
  intros Hrun. destruct (ss !! ws_id ws) as [sh|] eqn:Hs; [eauto|].
  rewrite (sink_on_missing_sheet ws records ss Hs) in Hrun. discriminate.
Qed.

Lemma append_needs_sheet (ws : Worksheet) (records : list record) (ss ss1 : spreadsheet)
    (n : nat) :
  append_only_cols_ab ws records ss = (Ok n, ss1) -> is_Some (ss !! ws_id ws).
Proof.
  intros Hrun. destruct (ss !! ws_id ws) as [sh|] eqn:Hs; [eauto|].
  unfold append_only_cols_ab, mbind, io_mbind, io_bind, ws_col_values in Hrun.
  rewrite Hs in Hrun. discriminate.
Qed.

(** Overwrite mode on the sheet it has just written. *)
Lemma overwrite_again (ws : Worksheet) (records : list record) (ss ss1 : spreadsheet) :
  write_cols_ab_overwrite ws records ss = (Ok tt, ss1) ->
  write_cols_ab_overwrite ws records ss1 = (Ok tt, ss1).
Proof.
  intros Hrun. destruct (sink_needs_sheet ws records ss ss1 Hrun) as [sh Hs].
  destruct (overwrite_returned ws records ss ss1 sh Hs Hrun) as [Hfin Hss1].
  set (rg := a1_range_to_grid_range (ws_id ws) A_B) in *.
  set (rows := HEADER :: map sheet_row records) in *.
  set (g1 := write_rows 0 0 rows (clear_values rg (sheet_cells sh))) in *.
  subst ss1. clear Hrun.
  rewrite (overwrite_finite ws records _ _ (with_cells_lookup ss (ws_id ws) sh g1) Hfin).
  cbn [sheet_cells]. fold rg rows.
  rewrite with_cells_twice by reflexivity. do 2 f_equal.
  apply grid_ext.
  - intros rc. subst g1. rewrite !stored_write_rows, stored_clear_values, stored_write_rows.
    tauto.
  - intros rc. rewrite cell_at_write_rows. unfold written.
    rewrite cell_at_clear_values. subst g1. rewrite cell_at_write_rows. unfold written.
    rewrite cell_at_clear_values.
    destruct (data_at 0 0 rows rc) as [v|] eqn:Ev.
    + destruct (sheet_rows_put records 0 0 rc v Hfin Ev) as [x ->]. simpl.
      now destruct (in_grid_range rg rc).
    + now destruct (in_grid_range rg rc).
Qed.



(** X13. After a run of append mode column A is not empty and lists,
    below its first row, the date of every record of the input (dates not
    empty), whether the run appended it or found it there; the count
    returned is at most the number of records. *)
Theorem append_lists_every_date (ws : Worksheet) (records : list record)
    (ss ss1 : spreadsheet) (n : nat) :
  Forall (fun r => rec_date r <> "") records ->
  append_only_cols_ab ws records ss = (Ok n, ss1) ->
  (n <= length records)%nat
  /\ (exists sh1, ss1 !! ws_id ws = Some sh1 /\ column_values 0 (sheet_cells sh1) <> [])
  /\ forall r, r ∈ records -> lists_date ss1 ws (rec_date r).
Proof.
  intros Hdates Hrun. destruct (append_needs_sheet ws records ss ss1 n Hrun) as [sh Hs].
  rewrite (append_only_cols_ab_run ws records ss sh Hs) in Hrun. cbv zeta in Hrun.
  destruct (forallb _ (filter _ records)) eqn:Hfin; [|discriminate Hrun].
  destruct (append_column records (sheet_cells sh)) as [Hne Hall]. cbv zeta in Hne, Hall.
  set (g1 := match filter _ records with [] => _ | _ :: _ => _ end) in *.
  assert (n = length (filter (fun r => rec_date r ∉ present_dates
                                (column_values 0 (sheet_cells sh))) records)) as ->
    by congruence.
  assert (ss1 = with_cells ss (ws_id ws) sh g1) as -> by congruence. clear Hrun.
  split; [apply length_filter|]. split.
  - eexists. split; [apply with_cells_lookup|]. exact Hne.
  - intros r Hr. eexists. split; [apply with_cells_lookup|].
    apply Hall; [assumption|]. rewrite Forall_forall in Hdates. auto.
Qed.

(** X14. On a sheet that holds no value, and for records whose ratios
    are all finite, append mode does what overwrite mode does: it
    returns the number of records, all of them appended, and leaves the
    same spreadsheet. *)
Theorem append_into_empty_sheet_is_overwrite (ws : Worksheet) (records : list record)
    (ss : spreadsheet) (sh : sheet) :
  ss !! ws_id ws = Some sh ->
  valueless (sheet_cells sh) ->
  Forall ratio_finite records ->
  write_cols_ab_overwrite ws records ss
  = (Ok tt, (write_cols_ab_overwrite ws records ss).2)
  /\ append_only_cols_ab ws records ss
     = (Ok (length records), (write_cols_ab_overwrite ws records ss).2).
Proof.
  intros Hs Hg Hfin.
  rewrite (overwrite_finite ws records ss sh Hs Hfin). split; [reflexivity|].
  rewrite (append_only_cols_ab_run ws records ss sh Hs). cbv zeta. cbn [snd].
  rewrite (column_values_valueless 0 _ Hg).
  rewrite !filter_all by (intros r _; unfold present_dates; simpl; set_solver).
  rewrite (proj2 (ratio_finite_forallb records) Hfin).
  rewrite (clear_values_valueless _ _ Hg), (rows_used_header _ Hg).
  do 3 f_equal. now destruct records.
Qed.
End SinksTogether.

(** ** open_target_worksheet *)

Lemma find_sheet_Some (title : string) (ss : spreadsheet) (id : Z) :
  find_sheet title ss = Some id ->
  exists sh, ss !! id = Some sh /\ sheet_title sh = title.
Proof.
  unfold find_sheet.
  destruct (filter _ (map_to_list ss)) as [|[id' sh] rest] eqn:E; [discriminate|].
  simpl. intros [= <-].
  assert (Hin : (id', sh) ∈ filter (fun kv : Z * sheet => sheet_title kv.2 = title)
                                   (map_to_list ss)) by (rewrite E; left).
  apply list_elem_of_filter in Hin as [Ht Hin]. apply elem_of_map_to_list in Hin. eauto.
Qed.

Lemma find_sheet_None (title : string) (ss : spreadsheet) :
  find_sheet title ss = None <->
  forall id sh, ss !! id = Some sh -> sheet_title sh <> title.
Proof.
  unfold find_sheet. split.
  - destruct (filter _ (map_to_list ss)) as [|kv rest] eqn:E; [|discriminate].
    intros _ id sh Hs Ht.
    assert (Hin : (id, sh) ∈ filter (fun kv : Z * sheet => sheet_title kv.2 = title)
                                    (map_to_list ss)).
    { apply list_elem_of_filter. split; [assumption|]. now apply elem_of_map_to_list. }
    rewrite E in Hin. now apply elem_of_nil in Hin.
  - intros Hall. rewrite filter_none; [reflexivity|].
    intros [id sh] Hin%elem_of_map_to_list. exact (Hall id sh Hin).
Qed.

(** The one sheet of a title is the sheet that is found. *)
Lemma find_sheet_only (title : string) (ss : spreadsheet) (id : Z) (sh : sheet) :
  ss !! id = Some sh -> sheet_title sh = title ->
  (forall id' sh', ss !! id' = Some sh' -> sheet_title sh' = title -> id' = id) ->
  find_sheet title ss = Some id.
Proof.
  intros Hs Ht Honly. destruct (find_sheet title ss) as [id'|] eqn:E.
  - apply find_sheet_Some in E as (sh' & Hs' & Ht'). f_equal. eauto.
  - exfalso. rewrite find_sheet_None in E. exact (E id sh Hs Ht).
Qed.

Lemma foldr_max_le (l : list Z) (x : Z) : x ∈ l -> x <= foldr Z.max 0 l.
Proof.
  induction l as [|y l IH]; [intros []%elem_of_nil|].
  intros [->|Hx]%elem_of_cons; simpl; [lia|]. specialize (IH Hx). lia.
Qed.

(** The id of a new worksheet is not in use. *)
Lemma add_worksheet_fresh (ss : spreadsheet) :
  ss !! (1 + foldr Z.max 0 (map fst (map_to_list ss))) = None.
Proof.
  destruct (ss !! _) as [sh|] eqn:E; [|reflexivity]. exfalso.
  assert (Hle : 1 + foldr Z.max 0 (map fst (map_to_list ss))
                <= foldr Z.max 0 (map fst (map_to_list ss))); [|lia].
  apply foldr_max_le. apply list_elem_of_fmap. eexists (_, sh). split; [reflexivity|].
  now apply elem_of_map_to_list.
Qed.

(** The run of [open_target_worksheet] when no sheet has the title. *)
Lemma open_target_worksheet_creates (has_batch_clear : bool) (ss : spreadsheet) :
  find_sheet WORKSHEET_TITLE ss = None ->
  let id := 1 + foldr Z.max 0 (map fst (map_to_list ss)) in
  open_target_worksheet has_batch_clear ss
  = (Ok {| ws_id := id; ws_has_batch_clear := has_batch_clear |},
     <[id := {| sheet_title := WORKSHEET_TITLE;
                sheet_cells := write_rows 0 0 [HEADER] ∅ |}]> ss).
Proof.
  intros Hnone id. unfold open_target_worksheet. rewrite Hnone.
  unfold mbind, io_mbind, io_bind, add_worksheet. fold id.
  unfold ws_update. change (send_json [HEADER] ?call) with call. cbn [ws_id].
  erewrite on_cells_ok; [|apply lookup_insert_eq|reflexivity].
  unfold with_cells. cbn [sheet_title]. now rewrite insert_insert_eq.
Qed.

(** X15. [open_target_worksheet] returns the sheet of the title when
    there is one, and leaves the spreadsheet alone.  When there is none
    it makes one under an id that was not in use, with the title, with
    [Date] and [RHODL Ratio] in A1 and B1 and nothing else in it, and
    every other sheet stays as it was. *)
Theorem open_target_worksheet_finds_or_creates (has_batch_clear : bool)
    (ss : spreadsheet) :
  ((exists id sh, ss !! id = Some sh /\ sheet_title sh = WORKSHEET_TITLE) ->
   exists id sh,
     open_target_worksheet has_batch_clear ss
     = (Ok {| ws_id := id; ws_has_batch_clear := has_batch_clear |}, ss)
     /\ ss !! id = Some sh /\ sheet_title sh = WORKSHEET_TITLE)
  /\ ((forall id sh, ss !! id = Some sh -> sheet_title sh <> WORKSHEET_TITLE) ->
      exists id ss' sh,
        open_target_worksheet has_batch_clear ss
        = (Ok {| ws_id := id; ws_has_batch_clear := has_batch_clear |}, ss')
        /\ ss !! id = None
        /\ (forall id', id' <> id -> ss' !! id' = ss !! id')
        /\ ss' !! id = Some sh /\ sheet_title sh = WORKSHEET_TITLE
        /\ forall rc, cell_at (sheet_cells sh) rc = header_cell rc empty_cell).
Proof.
  split.
  - intros (id0 & sh0 & Hs0 & Ht0).
    destruct (find_sheet WORKSHEET_TITLE ss) as [id|] eqn:E.
    + destruct (find_sheet_Some _ _ _ E) as (sh & Hs & Ht).
      exists id, sh. split; [|auto]. unfold open_target_worksheet. now rewrite E.
    + exfalso. rewrite find_sheet_None in E. exact (E id0 sh0 Hs0 Ht0).
  - intros Hnone%find_sheet_None.
    rewrite (open_target_worksheet_creates has_batch_clear ss Hnone). cbv zeta.
    eexists _, _, _. split; [reflexivity|].
    split; [apply add_worksheet_fresh|].
    split; [intros id' Hne; now apply lookup_insert_ne|].
    split; [apply lookup_insert_eq|]. split; [reflexivity|].
    intros rc. cbn [sheet_cells]. rewrite cell_at_header. reflexivity.
Qed.

(** The sheet a call has made is the sheet the next call finds. *)
Lemma open_made_then_found (has_batch_clear : bool) (ss ss1 : spreadsheet)
    (ws : Worksheet) :
  open_target_worksheet has_batch_clear ss = (Ok ws, ss1) ->
  open_target_worksheet has_batch_clear ss1 = (Ok ws, ss1).
Proof.
  destruct (find_sheet WORKSHEET_TITLE ss) as [id|] eqn:E.
  - unfold open_target_worksheet at 1. rewrite E. intros [= <- <-].
    unfold open_target_worksheet. now rewrite E.
  - rewrite (open_target_worksheet_creates has_batch_clear ss E). cbv zeta.
    set (id := 1 + foldr Z.max 0 (map fst (map_to_list ss))).
    set (new := {| sheet_title := WORKSHEET_TITLE; sheet_cells := write_rows 0 0 [HEADER] ∅ |}).
    intros Hrun.
    assert (ws = {| ws_id := id; ws_has_batch_clear := has_batch_clear |}) as -> by congruence.
    assert (ss1 = <[id := new]> ss) as -> by congruence. clear Hrun.
    unfold open_target_worksheet.
    rewrite (find_sheet_only WORKSHEET_TITLE _ id new); [reflexivity| |reflexivity|].
    + apply lookup_insert_eq.
    + intros id' sh' Hs' Ht'. destruct (decide (id' = id)) as [->|Hne]; [reflexivity|].
      rewrite lookup_insert_ne in Hs' by congruence.
      rewrite find_sheet_None in E. now apply E in Hs'.
Qed.

(** [open_target_worksheet] always returns, with a sheet of the title. *)
Lemma open_target_worksheet_returns (has_batch_clear : bool) (ss : spreadsheet) :
  exists id ss1 sh1,
    open_target_worksheet has_batch_clear ss
    = (Ok {| ws_id := id; ws_has_batch_clear := has_batch_clear |}, ss1)
    /\ ss1 !! id = Some sh1 /\ sheet_title sh1 = WORKSHEET_TITLE.
Proof.
  destruct (find_sheet WORKSHEET_TITLE ss) as [id|] eqn:E.
  - destruct (find_sheet_Some _ _ _ E) as (sh & Hs & Ht).
    exists id, ss, sh. split; [|auto]. unfold open_target_worksheet. now rewrite E.
  - rewrite (open_target_worksheet_creates has_batch_clear ss E). cbv zeta.
    eexists _, _, _. split; [reflexivity|]. split; [apply lookup_insert_eq|reflexivity].
Qed.

(** X16. Opening the worksheet a second time returns the same worksheet
    and changes nothing: the sheet the first call found or made is the
    one the second call finds, so no second sheet of the title is made. *)
Theorem open_target_worksheet_again (has_batch_clear : bool) (ss ss1 : spreadsheet)
    (ws : Worksheet) :
  open_target_worksheet has_batch_clear ss = (Ok ws, ss1) ->
  open_target_worksheet has_batch_clear ss1 = (Ok ws, ss1)
  /\ exists sh1, ss1 !! ws_id ws = Some sh1 /\ sheet_title sh1 = WORKSHEET_TITLE.
Proof.
  intros Hrun. split; [now apply (open_made_then_found has_batch_clear ss)|].
  destruct (open_target_worksheet_returns has_batch_clear ss) as (id & ss' & sh1 & H1 & H2 & H3).
  rewrite H1 in Hrun. assert (ws = {| ws_id := id; ws_has_batch_clear := has_batch_clear |})
    as -> by congruence.
  assert (ss1 = ss') as -> by congruence. eauto.
Qed.

(** The worksheet is found again after its cells were written. *)
Lemma open_after_write (has_batch_clear : bool) (ss ss1 : spreadsheet) (ws : Worksheet)
    (sh1 : sheet) (g : grid) :
  unique_titles ss ->
  open_target_worksheet has_batch_clear ss = (Ok ws, ss1) ->
  ss1 !! ws_id ws = Some sh1 ->
  open_target_worksheet has_batch_clear (with_cells ss1 (ws_id ws) sh1 g)
  = (Ok ws, with_cells ss1 (ws_id ws) sh1 g).
Proof.
  intros Huniq Hopen Hs1.
  assert (Hfind : find_sheet WORKSHEET_TITLE (with_cells ss1 (ws_id ws) sh1 g)
                  = Some (ws_id ws)
                  /\ ws = {| ws_id := ws_id ws; ws_has_batch_clear := has_batch_clear |}).
  { destruct (find_sheet WORKSHEET_TITLE ss) as [id|] eqn:E.
    - unfold open_target_worksheet in Hopen. rewrite E in Hopen.
      assert (ws = {| ws_id := id; ws_has_batch_clear := has_batch_clear |}) as ->
        by congruence.
      assert (ss1 = ss) as -> by congruence. clear Hopen. cbn [ws_id] in *.
      split; [|reflexivity].
      destruct (find_sheet_Some _ _ _ E) as (sh & Hs & Ht).
      assert (sh = sh1) as -> by congruence.
      eapply find_sheet_only; [apply with_cells_lookup|exact Ht|].
      intros id' sh' Hs' Ht'. destruct (decide (id' = id)) as [->|Hne]; [reflexivity|].
      unfold with_cells in Hs'. rewrite lookup_insert_ne in Hs' by congruence.
      apply (Huniq id' id sh' sh1 Hs' Hs). congruence.
    - rewrite (open_target_worksheet_creates has_batch_clear ss E) in Hopen.
      cbv zeta in Hopen.
      set (id := 1 + foldr Z.max 0 (map fst (map_to_list ss))) in *.
      assert (ws = {| ws_id := id; ws_has_batch_clear := has_batch_clear |}) as ->
        by congruence.
      set (new := {| sheet_title := WORKSHEET_TITLE; sheet_cells := _ |}) in Hopen.
      assert (ss1 = <[id := new]> ss) as -> by congruence. clear Hopen. cbn [ws_id] in *.
      split; [|reflexivity].
      rewrite lookup_insert_eq in Hs1. assert (sh1 = new) as -> by congruence.
      eapply find_sheet_only; [apply with_cells_lookup|reflexivity|].
      intros id' sh' Hs' Ht'. destruct (decide (id' = id)) as [->|Hne]; [reflexivity|].
      unfold with_cells in Hs'. rewrite !lookup_insert_ne in Hs' by congruence.
      rewrite find_sheet_None in E. now apply E in Hs'. }
  destruct Hfind as [Hfind Hws]. unfold open_target_worksheet. rewrite Hfind.
  now rewrite <- Hws.
Qed.

(** ** main: the order of its effects *)

Section MainMore.
Context {RT : PyRuntime} {SV : SheetsService}.

(** [main] after the rows went through [normalize]. *)
Lemma main_after_normalize (append : bool) (outfile : path) (api_key : string)
    (has_batch_clear : bool) (w : world) (raw data : pyval) (rows : list pyval)
    (records : list record) (n' : net) :
  fetch_rhodl_json api_key DEFAULT_MAX_RETRIES DEFAULT_TIMEOUT (w_net w) = (Ok raw, n') ->
  py_getitem raw "data" = Ok data ->
  py_iter data = Ok rows ->
  normalize rows = Ok records ->
  main append outfile api_key has_batch_clear w
  = match save_json outfile records (w_fs w) with
    | (Raise e, fs') => (Raise e, {| w_net := n'; w_fs := fs'; w_book := w_book w |})
    | (Ok _, fs') =>
        match open_target_worksheet has_batch_clear (w_book w) with
        | (Raise e, ss1) => (Raise e, {| w_net := n'; w_fs := fs'; w_book := ss1 |})
        | (Ok ws, ss1) =>
            if append then
              match append_only_cols_ab ws records ss1 with
              | (Ok _, ss2) => (Ok tt, {| w_net := n'; w_fs := fs'; w_book := ss2 |})
              | (Raise e, ss2) => (Raise e, {| w_net := n'; w_fs := fs'; w_book := ss2 |})
              end
            else
              match write_cols_ab_overwrite ws records ss1 with
              | (r, ss2) => (r, {| w_net := n'; w_fs := fs'; w_book := ss2 |})
              end
        end
    end.
Proof.
  intros Hfetch Hdata Hiter Hnorm.
  unfold main, mbind, io_mbind, io_bind, on_net. rewrite Hfetch.
  rewrite (has_data_getitem raw data Hdata). cbn [negb].
  unfold pure. rewrite Hdata, Hiter, Hnorm.
  unfold on_fs. cbn [w_fs w_net w_book].
  destruct (save_json outfile records (w_fs w)) as [[[]|e] fs']; [|reflexivity].
  unfold on_book. cbn [w_fs w_net w_book].
  destruct (open_target_worksheet has_batch_clear (w_book w)) as [[ws|e] ss1]; [|reflexivity].
  destruct append.
  - cbn [w_fs w_net w_book].
    destruct (append_only_cols_ab ws records ss1) as [[k|e] ss2]; reflexivity.
  - cbn [w_fs w_net w_book].
    destruct (write_cols_ab_overwrite ws records ss1) as [r ss2]. reflexivity.
Qed.

(** Saving again what the file holds changes nothing. *)
Lemma save_json_again (p : path) (data : list record) (fs fs1 : filesystem) :
  save_json p data fs = (Ok tt, fs1) -> save_json p data fs1 = (Ok tt, fs1).
Proof.
  intros Hsave. pose proof (save_json_spec p data fs) as H1. rewrite Hsave in H1.
  destruct H1 as (Hnd & Hp1 & Hanc1 & Hoff1).
  pose proof (save_json_spec p data fs1) as H2.
  destruct (save_json p data fs1) as [[[]|e] fs2].
  2: { destruct H2 as [_ [[(q & text & Hq & Hfile) _]|[Hdir _]]]; [|congruence].
       destruct (Hanc1 q Hq) as [? _]; congruence. }
  f_equal. destruct H2 as (_ & Hp2 & Hanc2 & Hoff2).
  apply map_eq. intros q.
  destruct (decide (q = p)) as [->|Hne]; [congruence|].
  destruct (classic_ancestor q p) as [Hq|Hq].
  - destruct (Hanc2 q Hq) as [-> _]. now destruct (Hanc1 q Hq) as [-> _].
  - now apply Hoff2.
Qed.

(** X17. When the three GETs of a run fail, [main] ends in the
    [SystemExit] of [fetch_rhodl_json], with the text of the third
    failure, after exactly three requests; it has written no file and
    has not touched the spreadsheet. *)
Theorem main_gives_up_without_writing (append : bool) (outfile : path)
    (api_key : string) (has_batch_clear : bool) (w : world) (e : string) :
  (forall i, (i < 3)%nat -> failure (endpoint (w_net w) (sent (w_net w) + i)) <> None) ->
  failure (endpoint (w_net w) (sent (w_net w) + 2)) = Some e ->
  exists n',
    main append outfile api_key has_batch_clear w
    = (Raise (SystemExit ("ERROR: API request failed after 3 attempts: " ++ e)),
       {| w_net := n'; w_fs := w_fs w; w_book := w_book w |})
    /\ sent n' = (sent (w_net w) + 3)%nat.
Proof.
  intros Hfail He.
  destruct (fetch_attempts_exhausted
              [("accept", "application/json"); ("CG-API-KEY", api_key);
               ("User-Agent", "rhodl-fetch/1.0")]
              3 DEFAULT_TIMEOUT 2 1 None (w_net w) e Hfail He eq_refl)
    as (H1 & _ & H3 & _).
  unfold main, mbind, io_mbind, io_bind, on_net, fetch_rhodl_json, DEFAULT_MAX_RETRIES.
  destruct (fetch_attempts _ 3 DEFAULT_TIMEOUT (py_range 1 (3 + 1)) None (w_net w)) as [r n'].
  cbn [fst snd] in H1, H3. subst r. exists n'. split; [reflexivity|lia].
Qed.

(** X18. When the document fetched is not a dict with a key [data],
    [main] ends in a [SystemExit] whose message begins with
    [Unexpected API response shape]; it has written no file and has not
    touched the spreadsheet. *)
Theorem main_rejects_bad_shape (append : bool) (outfile : path) (api_key : string)
    (has_batch_clear : bool) (w : world) (raw : pyval) (n' : net) :
  fetch_rhodl_json api_key DEFAULT_MAX_RETRIES DEFAULT_TIMEOUT (w_net w) = (Ok raw, n') ->
  (forall data, py_getitem raw "data" <> Ok data) ->
  exists msg,
    main append outfile api_key has_batch_clear w
    = (Raise (SystemExit ("Unexpected API response shape: " ++ msg)),
       {| w_net := n'; w_fs := w_fs w; w_book := w_book w |}).
Proof.
  intros Hfetch Hnone.
  assert (Hshape : has_data raw = false).
  { destruct raw as [| | | | | |d]; try reflexivity. simpl.
    destruct (dict_lookup "data" d) as [data|] eqn:E.
    - exfalso. apply (Hnone data). simpl. now rewrite E.
    - apply bool_decide_eq_false. now intros [? [=]]. }
  unfold main, mbind, io_mbind, io_bind, on_net. rewrite Hfetch, Hshape.
  cbn [negb]. eexists. reflexivity.
Qed.

(** X19. The file comes before the sheet: when [save_json] fails, [main]
    ends with its error and the spreadsheet has not been opened or
    changed; in a file system where everything lies in directories the
    error is an [OSError] and the file system, too, is as it was. *)
Theorem main_save_failure_leaves_sheet (append : bool) (outfile : path)
    (api_key : string) (has_batch_clear : bool) (w : world) (raw data : pyval)
    (rows : list pyval) (records : list record) (n' : net) (e : exn)
    (fs' : filesystem) :
  fetch_rhodl_json api_key DEFAULT_MAX_RETRIES DEFAULT_TIMEOUT (w_net w) = (Ok raw, n') ->
  py_getitem raw "data" = Ok data ->
  py_iter data = Ok rows ->
  normalize rows = Ok records ->
  save_json outfile records (w_fs w) = (Raise e, fs') ->
  main append outfile api_key has_batch_clear w
  = (Raise e, {| w_net := n'; w_fs := fs'; w_book := w_book w |})
  /\ (exists msg, e = OSError msg)
  /\ (tree (w_fs w) -> fs' = w_fs w).
Proof.
  intros Hfetch Hdata Hiter Hnorm Hsave.
  rewrite (main_after_normalize append outfile api_key has_batch_clear w raw data rows
             records n' Hfetch Hdata Hiter Hnorm), Hsave.
  split; [reflexivity|].
  pose proof (save_json_spec outfile records (w_fs w)) as Hspec. rewrite Hsave in Hspec.
  destruct Hspec as [Hmsg Hwhy]. split; [assumption|].
  intros Htree. destruct Hwhy as [[_ ->]|(Hdir & Hanc & Hoff)]; [reflexivity|].
  apply map_eq. intros q. destruct (classic_ancestor q outfile) as [Hq|Hq].
  - rewrite (Hanc q Hq). symmetry. apply (Htree outfile); [now rewrite Hdir|assumption].
  - now apply Hoff.
Qed.

(** X20. When [main] returns in overwrite mode, the output file holds the
    JSON text of the normalised records and the spreadsheet has a sheet
    of the title whose columns A and B show the header and, row by row,
    the date and the ratio of each record, with nothing below them. *)
Theorem main_overwrite_result (outfile : path) (api_key : string)
    (has_batch_clear : bool) (w w' : world) (raw data : pyval) (rows : list pyval)
    (records : list record) (n' : net) :
  fetch_rhodl_json api_key DEFAULT_MAX_RETRIES DEFAULT_TIMEOUT (w_net w) = (Ok raw, n') ->
  py_getitem raw "data" = Ok data ->
  py_iter data = Ok rows ->
  normalize rows = Ok records ->
  main false outfile api_key has_batch_clear w = (Ok tt, w') ->
  w_fs w' !! outfile = Some (File (records_json records))
  /\ exists id sh,
       w_book w' !! id = Some sh /\ sheet_title sh = WORKSHEET_TITLE
       /\ userEnteredValue (cell_at (sheet_cells sh) (0, 0)%nat) = Some (StringValue "Date")
       /\ userEnteredValue (cell_at (sheet_cells sh) (0, 1)%nat)
          = Some (StringValue "RHODL Ratio")
       /\ (forall i r, records !! i = Some r ->
             userEnteredValue (cell_at (sheet_cells sh) (S i, 0)%nat)
             = Some (StringValue (rec_date r))
             /\ userEnteredValue (cell_at (sheet_cells sh) (S i, 1)%nat)
                = Some (NumberValue (rhodl_ratio r)))
       /\ (forall r c, (length records < r)%nat -> (c < 2)%nat ->
             userEnteredValue (cell_at (sheet_cells sh) (r, c)) = None).
Proof.
  intros Hfetch Hdata Hiter Hnorm Hmain.
  rewrite (main_after_normalize false outfile api_key has_batch_clear w raw data rows
             records n' Hfetch Hdata Hiter Hnorm) in Hmain.
  pose proof (save_json_spec outfile records (w_fs w)) as Hsave.
  destruct (save_json outfile records (w_fs w)) as [[[]|e] fs']; [|discriminate].
  destruct Hsave as (_ & Hfile & _).
  destruct (open_target_worksheet_returns has_batch_clear (w_book w))
    as (id & ss1 & sh1 & Hopen & Hs1 & Ht1).
  rewrite Hopen in Hmain.
  rewrite (write_cols_ab_overwrite_run
             {| ws_id := id; ws_has_batch_clear := has_batch_clear |} records ss1 sh1 Hs1)
    in Hmain.
  cbv zeta in Hmain. cbn [ws_id] in Hmain.
  destruct (forallb (fun r => is_finite (rhodl_ratio r)) records) eqn:Hfin;
    [|discriminate Hmain].
  apply ratio_finite_forallb in Hfin.
  set (g1 := write_rows 0 0 _ _) in *.
  assert (w' = {| w_net := n'; w_fs := fs'; w_book := with_cells ss1 id sh1 g1 |}) as ->
    by congruence.
  clear Hmain. cbn [w_fs w_book]. split; [exact Hfile|].
  exists id. eexists. split; [apply with_cells_lookup|]. split; [exact Ht1|].
  cbn [sheet_cells].
  assert (Hcell : forall rc, cell_at g1 rc
            = match data_at 0 0 (HEADER :: map sheet_row records) rc with
              | Some v => put_input (cell_input_of v)
                            (cell_at (clear_values (a1_range_to_grid_range id A_B)
                                        (sheet_cells sh1)) rc)
              | None => cell_at (clear_values (a1_range_to_grid_range id A_B)
                                   (sheet_cells sh1)) rc
              end).
  { intros rc. subst g1. now rewrite cell_at_write_rows. }
  pose proof (normalize_dates_nonempty rows records Hnorm) as Hdates.
  split; [|split; [|split]].
  - rewrite Hcell, data_at_cons, decide_True by reflexivity.
    rewrite decide_True by lia. reflexivity.
  - rewrite Hcell, data_at_cons, decide_True by reflexivity.
    rewrite decide_True by lia. reflexivity.
  - intros i r Hi. split.
    + rewrite Hcell, data_at_cons, decide_False by lia.
      rewrite data_at_sheet_rows, Hi. cbn.
      rewrite decide_False; [reflexivity|].
      rewrite Forall_forall in Hdates. apply Hdates. eapply list_elem_of_lookup_2, Hi.
    + rewrite Hcell, data_at_cons, decide_False by lia.
      rewrite data_at_sheet_rows, Hi.
      change (Some r ≫= fun r0 => sheet_row r0 !! 1%nat)
        with (Some (PFloat (rhodl_ratio r))).
      cbv beta iota. rewrite put_ratio; [reflexivity|].
      rewrite Forall_forall in Hfin. apply Hfin. eapply list_elem_of_lookup_2, Hi.
  - intros r c Hr Hc. rewrite Hcell.
    destruct r as [|i]; [lia|].
    rewrite data_at_cons, decide_False by lia.
    rewrite data_at_sheet_rows, lookup_ge_None_2 by lia. cbn.
    rewrite cell_at_clear_values, in_A_B. cbn [snd].
    now replace (c <? 2)%nat with true by (symmetry; apply Nat.ltb_lt; lia).
Qed.

Lemma fetch_default_document (api_key : string) (n : net) (raw : pyval) :
  endpoint n (sent n) = Document raw ->
  fetch_rhodl_json api_key DEFAULT_MAX_RETRIES DEFAULT_TIMEOUT n
  = (Ok raw, count_request (default_get api_key) n).
Proof.
  intros Hdoc. unfold fetch_rhodl_json, DEFAULT_MAX_RETRIES.
  rewrite py_range_cons by lia. now apply fetch_attempts_document.
Qed.

(** X21. Running [main] again against an endpoint that answers with the
    same document changes nothing: in either mode the second run
    rewrites the file with the same text, finds the worksheet of the
    first run and leaves the spreadsheet as it was; only the request is
    made again. *)
Theorem main_rerun_changes_nothing (append : bool) (outfile : path) (api_key : string)
    (has_batch_clear : bool) (w w1 : world) (raw data : pyval) (rows : list pyval)
    (records : list record) :
  endpoint (w_net w) (sent (w_net w)) = Document raw ->
  endpoint (w_net w) (S (sent (w_net w))) = Document raw ->
  py_getitem raw "data" = Ok data ->
  py_iter data = Ok rows ->
  normalize rows = Ok records ->
  unique_titles (w_book w) ->
  main append outfile api_key has_batch_clear w = (Ok tt, w1) ->
  exists n2,
    main append outfile api_key has_batch_clear w1
    = (Ok tt, {| w_net := n2; w_fs := w_fs w1; w_book := w_book w1 |})
    /\ sent n2 = (sent (w_net w) + 2)%nat.
Proof.
  intros Hdoc1 Hdoc2 Hdata Hiter Hnorm Huniq Hmain.
  pose proof (fetch_default_document api_key (w_net w) raw Hdoc1) as Hfetch1.
  set (n1 := count_request (default_get api_key) (w_net w)) in *.
  rewrite (main_after_normalize append outfile api_key has_batch_clear w raw data rows
             records n1 Hfetch1 Hdata Hiter Hnorm) in Hmain.
  destruct (save_json outfile records (w_fs w)) as [[[]|e] fs1] eqn:Hsave; [|discriminate].
  destruct (open_target_worksheet has_batch_clear (w_book w)) as [[ws|e] ss1] eqn:Hopen;
    [|discriminate].
  assert (Hs1 : exists sh1, ss1 !! ws_id ws = Some sh1).
  { destruct (open_target_worksheet_returns has_batch_clear (w_book w))
      as (id & ss' & sh1 & H1 & H2 & _).
    rewrite Hopen in H1. exists sh1.
    assert (ws = {| ws_id := id; ws_has_batch_clear := has_batch_clear |}) as -> by congruence.
    assert (ss1 = ss') as -> by congruence. exact H2. }
  destruct Hs1 as [sh1 Hs1].
  assert (Hfetch2 : fetch_rhodl_json api_key DEFAULT_MAX_RETRIES DEFAULT_TIMEOUT n1
                    = (Ok raw, count_request (default_get api_key) n1))
    by now apply fetch_default_document.
  exists (count_request (default_get api_key) n1).
  split; [|simpl; lia].
  pose proof (normalize_dates_nonempty rows records Hnorm) as Hdates.
  destruct append.
  - rewrite (append_only_cols_ab_run ws records ss1 sh1 Hs1) in Hmain. cbv zeta in Hmain.
    destruct (forallb _ (filter _ records)) eqn:Hfin; [|discriminate Hmain].
    destruct (append_column records (sheet_cells sh1)) as [Hne Hall].
    cbv zeta in Hne, Hall.
    set (g2 := match filter _ records with [] => _ | _ :: _ => _ end) in *.
    assert (w1 = {| w_net := n1; w_fs := fs1; w_book := with_cells ss1 (ws_id ws) sh1 g2 |})
      as -> by congruence.
    clear Hmain.
    rewrite (main_after_normalize true outfile api_key has_batch_clear
               {| w_net := n1; w_fs := fs1; w_book := with_cells ss1 (ws_id ws) sh1 g2 |}
               raw data rows records _ Hfetch2 Hdata Hiter Hnorm).
    cbn [w_fs w_book].
    rewrite (save_json_again outfile records (w_fs w) fs1 Hsave).
    rewrite (open_after_write has_batch_clear (w_book w) ss1 ws sh1 g2 Huniq Hopen Hs1).
    rewrite (append_nothing_new ws records _ _ (with_cells_lookup ss1 (ws_id ws) sh1 g2));
      [reflexivity|exact Hne|].
    intros r Hr. apply Hall; [assumption|]. rewrite Forall_forall in Hdates. auto.
  - destruct (write_cols_ab_overwrite ws records ss1) as [r ss2] eqn:Hsink.
    assert (r = Ok tt) as -> by congruence.
    assert (w1 = {| w_net := n1; w_fs := fs1; w_book := ss2 |}) as -> by congruence.
    clear Hmain.
    rewrite (main_after_normalize false outfile api_key has_batch_clear
               {| w_net := n1; w_fs := fs1; w_book := ss2 |}
               raw data rows records _ Hfetch2 Hdata Hiter Hnorm).
    cbn [w_fs w_book].
    rewrite (save_json_again outfile records (w_fs w) fs1 Hsave).
    destruct (overwrite_returned ws records ss1 ss2 sh1 Hs1 Hsink) as [_ Hss2].
    set (g2 := write_rows 0 0 _ _) in Hss2. subst ss2.
    rewrite (open_after_write has_batch_clear (w_book w) ss1 ws sh1 g2 Huniq Hopen Hs1).
    now rewrite (overwrite_again ws records ss1 _ Hsink).
Qed.

(** X26. When [main] returns in append mode, the output file holds the
    JSON text of the normalised records and the spreadsheet has a sheet
    of the title whose column A is not empty and lists, below its first
    row, the date of every record. *)
Theorem main_append_result (outfile : path) (api_key : string)
    (has_batch_clear : bool) (w w' : world) (raw data : pyval) (rows : list pyval)
    (records : list record) (n' : net) :
  fetch_rhodl_json api_key DEFAULT_MAX_RETRIES DEFAULT_TIMEOUT (w_net w) = (Ok raw, n') ->
  py_getitem raw "data" = Ok data ->
  py_iter data = Ok rows ->
  normalize rows = Ok records ->
  main true outfile api_key has_batch_clear w = (Ok tt, w') ->
  w_fs w' !! outfile = Some (File (records_json records))
  /\ exists id sh,
       w_book w' !! id = Some sh /\ sheet_title sh = WORKSHEET_TITLE
       /\ column_values 0 (sheet_cells sh) <> []
       /\ forall r, r ∈ records ->
            rec_date r ∈ present_dates (column_values 0 (sheet_cells sh)).
Proof.
  intros Hfetch Hdata Hiter Hnorm Hmain.
  rewrite (main_after_normalize true outfile api_key has_batch_clear w raw data rows
             records n' Hfetch Hdata Hiter Hnorm) in Hmain.
  pose proof (save_json_spec outfile records (w_fs w)) as Hsave.
  destruct (save_json outfile records (w_fs w)) as [[[]|e] fs']; [|discriminate].
  destruct Hsave as (_ & Hfile & _).
  destruct (open_target_worksheet_returns has_batch_clear (w_book w))
    as (id & ss1 & sh1 & Hopen & Hs1 & Ht1).
  rewrite Hopen in Hmain.
  rewrite (append_only_cols_ab_run
             {| ws_id := id; ws_has_batch_clear := has_batch_clear |} records ss1 sh1 Hs1)
    in Hmain.
  cbv zeta in Hmain. cbn [ws_id] in Hmain.
  destruct (forallb _ (filter _ records)) eqn:Hfin; [|discriminate Hmain].
  destruct (append_column records (sheet_cells sh1)) as [Hne Hall]. cbv zeta in Hne, Hall.
  set (g2 := match filter _ records with [] => _ | _ :: _ => _ end) in *.
  assert (w' = {| w_net := n'; w_fs := fs'; w_book := with_cells ss1 id sh1 g2 |}) as ->
    by congruence.
  clear Hmain. cbn [w_fs w_book]. split; [exact Hfile|].
  exists id. eexists. split; [apply with_cells_lookup|]. split; [exact Ht1|].
  cbn [sheet_cells]. split; [exact Hne|].
  intros r Hr. apply Hall; [assumption|].
  pose proof (normalize_dates_nonempty rows records Hnorm) as Hdates.
  rewrite Forall_forall in Hdates. auto.
Qed.
End MainMore.

(** ** load_env *)

Lemma setenv_step_keeps (env : environ) (kv : string * option string) (k v : string) :
  env !! k = Some v -> setenv_step env kv !! k = Some v.
Proof.
  intros Hk. unfold setenv_step. destruct kv.2 as [x|]; [|assumption].
  case_decide as Hin; [assumption|].
  rewrite lookup_insert_ne; [assumption|]. intros <-. apply Hin. eauto.
Qed.

Lemma setenv_fold_keeps (d : list (string * option string)) (env : environ) (k v : string) :
  env !! k = Some v -> fold_left setenv_step d env !! k = Some v.
Proof.
  revert env. induction d as [|kv d IH]; intros env Hk; [assumption|].
  simpl. apply IH. now apply setenv_step_keeps.
Qed.

Lemma missing_names (env : environ) :
  map fst (filter (fun nv : string * option string => truthy nv.2 = false)
                  [("COINGLASS_API_KEY", env !! "COINGLASS_API_KEY");
                   ("GOOGLE_SHEET_ID", env !! "GOOGLE_SHEET_ID");
                   ("GOOGLE_SERVICE_ACCOUNT", env !! "GOOGLE_SERVICE_ACCOUNT")])
  = missing_in env.
Proof.
  unfold missing_in, REQUIRED. rewrite !filter_cons, !filter_nil. cbn [snd].
  repeat case_decide; try reflexivity; congruence.
Qed.

Section LoadEnvFacts.
Context {LO : Layout} {DE : DotEnvLib}.

Lemma load_dotenv_keeps (p : path) (fs : filesystem) (env : environ) (k v : string) :
  env !! k = Some v -> loaded_env p fs env !! k = Some v.
Proof.
  intros Hk. unfold loaded_env, load_dotenv. cbv zeta.
  destruct (dict_of _) as [|kv d]; [assumption|].
  cbn [snd]. now apply setenv_fold_keeps.
Qed.

(** The run of [load_env] past the check for the file. *)
Lemma load_env_run (fs : filesystem) (env : environ) :
  is_Some (fs !! DOTENV_PATH) ->
  let env' := loaded_env DOTENV_PATH fs env in
  load_env fs env
  = match missing_in env' with
    | _ :: _ =>
        (Raise (SystemExit ("ERROR: Missing in .env -> " ++ join ", " (missing_in env'))),
         env')
    | [] =>
        let sa_path := path_of_str (default "" (env' !! "GOOGLE_SERVICE_ACCOUNT")) in
        let sa_path :=
          if negb (is_absolute sa_path) then joinpath PROJECT_ROOT sa_path else sa_path in
        if negb (path_exists sa_path fs) then
          (Raise (SystemExit ("ERROR: Service account JSON not found at "
                              ++ str_of_path sa_path)), env')
        else
          (Ok {| cfg_api_key := default "" (env' !! "COINGLASS_API_KEY");
                 cfg_sheet_id := default "" (env' !! "GOOGLE_SHEET_ID");
                 cfg_sa_file := str_of_path sa_path |}, env')
    end.
Proof.
  intros Hex. cbv zeta. unfold load_env, path_exists.
  rewrite bool_decide_eq_true_2 by assumption. cbn [negb].
  unfold mbind, io_mbind, io_bind, getenv, loaded_env.
  destruct (load_dotenv DOTENV_PATH fs env) as [r env'] eqn:Hload.
  assert (Hr : exists b, r = Ok b).
  { unfold load_dotenv in Hload. cbv zeta in Hload.
    destruct (dict_of _); injection Hload as <- _; eauto. }
  destruct Hr as [b ->]. cbn [snd]. rewrite missing_names.
  destruct (missing_in env'); [|reflexivity].
  match goal with |- context [bool_decide ?P] => destruct (bool_decide P) end;
    reflexivity.
Qed.

Lemma load_env_no_file (fs : filesystem) (env : environ) :
  fs !! DOTENV_PATH = None ->
  load_env fs env
  = (Raise (SystemExit ("ERROR: .env not found at " ++ str_of_path DOTENV_PATH)), env).
Proof.
  intros Hnone. unfold load_env, path_exists.
  rewrite bool_decide_eq_false_2 by (rewrite Hnone; now intros [? [=]]). reflexivity.
Qed.

Lemma load_env_env (fs : filesystem) (env : environ) :
  is_Some (fs !! DOTENV_PATH) -> (load_env fs env).2 = loaded_env DOTENV_PATH fs env.
Proof.
  intros Hex. rewrite (load_env_run fs env Hex). cbv zeta.
  destruct (missing_in _); [|reflexivity].
  match goal with |- context [path_exists ?p fs] => destruct (path_exists p fs) end;
    reflexivity.
Qed.

Lemma nothing_missing (env : environ) :
  missing_in env = [] -> forall k, k ∈ REQUIRED -> truthy (env !! k) = true.
Proof.
  unfold missing_in. intros Hnil k Hk.
  destruct (truthy (env !! k)) eqn:E; [reflexivity|]. exfalso.
  assert (Hin : k ∈ filter (fun k => truthy (env !! k) = false) REQUIRED)
    by now apply list_elem_of_filter.
  rewrite Hnil in Hin. now apply elem_of_nil in Hin.
Qed.

Lemma truthy_Some (v : option string) :
  truthy v = true -> exists x, v = Some x /\ x <> "".
Proof. destruct v as [[|c x]|]; try discriminate. intros _. eexists. split; [reflexivity|discriminate]. Qed.

Lemma is_absolute_app (p q : path) : is_absolute p = true -> is_absolute (p ++ q) = true.
Proof. now destruct p. Qed.

(** X22. [load_env] leaves every variable of the process environment as
    it is: it only adds names the environment did not have, taken from
    the file.  Without a [.env] file it adds nothing and exits, whatever
    the environment holds. *)
Theorem load_env_keeps_environment (fs : filesystem) (env : environ) :
  env ⊆ (load_env fs env).2
  /\ (fs !! DOTENV_PATH = None ->
      load_env fs env
      = (Raise (SystemExit ("ERROR: .env not found at " ++ str_of_path DOTENV_PATH)), env)).
Proof.
  split; [|apply load_env_no_file].
  destruct (fs !! DOTENV_PATH) as [x|] eqn:E.
  - rewrite load_env_env by (rewrite E; eauto).
    apply map_subseteq_spec. intros k v. apply load_dotenv_keeps.
  - now rewrite load_env_no_file.
Qed.

(** X23. With a [.env] file in place, [load_env] exits with the list of
    the required variables that are unset or empty once the file is
    loaded, in the order key, sheet id, service account, and with that
    message only when there is one; a variable the process environment
    holds as the empty string counts as missing whatever the file
    says. *)
Theorem load_env_reports_missing (fs : filesystem) (env : environ) :
  is_Some (fs !! DOTENV_PATH) ->
  let env' := loaded_env DOTENV_PATH fs env in
  (missing_in env' <> [] ->
   load_env fs env
   = (Raise (SystemExit ("ERROR: Missing in .env -> " ++ join ", " (missing_in env'))),
      env'))
  /\ (missing_in env' = [] ->
      forall msg, (load_env fs env).1
                  <> Raise (SystemExit ("ERROR: Missing in .env -> " ++ msg)))
  /\ (forall k, k ∈ REQUIRED -> env !! k = Some "" -> k ∈ missing_in env').
Proof.
  intros Hex env'. pose proof (load_env_run fs env Hex) as Hrun. cbv zeta in Hrun.
  fold env' in Hrun. split; [|split].
  - intros Hne. rewrite Hrun. destruct (missing_in env'); [contradiction|reflexivity].
  - intros Hnil msg. rewrite Hrun, Hnil.
    match goal with |- context [path_exists ?p fs] => destruct (path_exists p fs) end;
      cbn [negb fst]; [discriminate|].
    rewrite !str_app_cons. intros [= ?].
  - intros k Hk Hempty. apply list_elem_of_filter. split; [|assumption].
    subst env'. now rewrite (load_dotenv_keeps _ _ _ _ _ Hempty).
Qed.

(** X24. When [load_env] returns, the key and the sheet id are the
    values the loaded environment holds, not empty, and they are those of
    the process environment where it had them; the service account file
    is the configured path, taken from the project root when it is
    relative; it exists, and it is absolute when the project root is. *)
Theorem load_env_config (fs : filesystem) (env env' : environ) (cfg : config) :
  load_env fs env = (Ok cfg, env') ->
  env' = loaded_env DOTENV_PATH fs env
  /\ env' !! "COINGLASS_API_KEY" = Some (cfg_api_key cfg) /\ cfg_api_key cfg <> ""
  /\ env' !! "GOOGLE_SHEET_ID" = Some (cfg_sheet_id cfg) /\ cfg_sheet_id cfg <> ""
  /\ (forall v, env !! "COINGLASS_API_KEY" = Some v -> cfg_api_key cfg = v)
  /\ exists v,
       env' !! "GOOGLE_SERVICE_ACCOUNT" = Some v /\ v <> ""
       /\ cfg_sa_file cfg = str_of_path (joinpath PROJECT_ROOT (path_of_str v))
       /\ is_Some (fs !! joinpath PROJECT_ROOT (path_of_str v))
       /\ (is_absolute PROJECT_ROOT = true
           -> is_absolute (joinpath PROJECT_ROOT (path_of_str v)) = true).
Proof.
  intros Hrun.
  assert (Hex : is_Some (fs !! DOTENV_PATH)).
  { destruct (fs !! DOTENV_PATH) eqn:E; [eauto|].
    rewrite load_env_no_file in Hrun by assumption. discriminate. }
  rewrite (load_env_run fs env Hex) in Hrun. cbv zeta in Hrun.
  set (loaded := loaded_env DOTENV_PATH fs env) in *.
  destruct (missing_in loaded) eqn:Hmiss; [|discriminate].
  pose proof (nothing_missing loaded Hmiss) as Hall.
  destruct (truthy_Some _ (Hall "COINGLASS_API_KEY" ltac:(unfold REQUIRED; set_solver)))
    as (key & Hkey & Hkey').
  destruct (truthy_Some _ (Hall "GOOGLE_SHEET_ID" ltac:(unfold REQUIRED; set_solver)))
    as (sid & Hsid & Hsid').
  destruct (truthy_Some _ (Hall "GOOGLE_SERVICE_ACCOUNT" ltac:(unfold REQUIRED; set_solver)))
    as (sa & Hsa & Hsa').
  rewrite Hkey, Hsid, Hsa in Hrun. cbn [default from_option id] in Hrun.
  assert (Hjoin : (if negb (is_absolute (path_of_str sa))
                   then joinpath PROJECT_ROOT (path_of_str sa) else path_of_str sa)
                  = joinpath PROJECT_ROOT (path_of_str sa)).
  { unfold joinpath. now destruct (is_absolute (path_of_str sa)). }
  rewrite Hjoin in Hrun.
  destruct (path_exists (joinpath PROJECT_ROOT (path_of_str sa)) fs) eqn:Hpath;
    cbn [negb] in Hrun; [|discriminate].
  injection Hrun as <- <-. cbn [cfg_api_key cfg_sheet_id cfg_sa_file].
  split; [reflexivity|]. split; [assumption|]. split; [assumption|].
  split; [assumption|]. split; [assumption|]. split.
  - intros v Hv. pose proof (load_dotenv_keeps DOTENV_PATH fs env _ _ Hv) as Hv'.
    fold loaded in Hv'. congruence.
  - exists sa. split; [assumption|]. split; [assumption|]. split; [reflexivity|].
    split; [now apply bool_decide_eq_true in Hpath|].
    intros Habs. unfold joinpath.
    destruct (is_absolute (path_of_str sa)) eqn:E; [assumption|].
    now apply is_absolute_app.
Qed.

(** X27. With every variable set but no file at the place of the service
    account key, [load_env] exits with a message that names the path it
    looked at: the configured path, taken from the project root when it
    is relative. *)
Theorem load_env_missing_key_file (fs : filesystem) (env : environ) (v : string) :
  is_Some (fs !! DOTENV_PATH) ->
  let env' := loaded_env DOTENV_PATH fs env in
  missing_in env' = [] ->
  env' !! "GOOGLE_SERVICE_ACCOUNT" = Some v ->
  fs !! joinpath PROJECT_ROOT (path_of_str v) = None ->
  load_env fs env
  = (Raise (SystemExit ("ERROR: Service account JSON not found at "
                        ++ str_of_path (joinpath PROJECT_ROOT (path_of_str v)))), env').
Proof.
  intros Hex env' Hmiss Hv Hnone.
  rewrite (load_env_run fs env Hex). cbv zeta. fold env'. rewrite Hmiss, Hv.
  cbn [default from_option id].
  assert (Hjoin : (if negb (is_absolute (path_of_str v))
                   then joinpath PROJECT_ROOT (path_of_str v) else path_of_str v)
                  = joinpath PROJECT_ROOT (path_of_str v)).
  { unfold joinpath. now destruct (is_absolute (path_of_str v)). }
  rewrite Hjoin. unfold path_exists.
  rewrite bool_decide_eq_false_2 by (rewrite Hnone; now intros [? [=]]). reflexivity.
Qed.
End LoadEnvFacts.

Section ScriptFacts.
Context {RT : PyRuntime} {SV : SheetsService} {LO : Layout} {DE : DotEnvLib}.

Lemma join_head (sep k : string) (l : list string) :
  exists rest, join sep (k :: l) = k ++ rest.
Proof.
  destruct l as [|x l].
  - exists "". simpl. now rewrite str_app_nil_r.
  - eexists. reflexivity.
Qed.

(** X25. The configuration comes first: with a [.env] file in place but
    no API key, in the file or in the environment, the script exits with
    a message that lists [COINGLASS_API_KEY] first among the missing
    variables; no request has been sent, no file written and the
    spreadsheet not touched. *)
Theorem missing_api_key_stops_main (append : bool) (outfile : path)
    (has_batch_clear : bool) (s : site) :
  is_Some (w_fs (s_world s) !! DOTENV_PATH) ->
  let env' := loaded_env DOTENV_PATH (w_fs (s_world s)) (s_env s) in
  truthy (env' !! "COINGLASS_API_KEY") = false ->
  exists rest,
    Script.main append outfile has_batch_clear s
    = (Raise (SystemExit ("ERROR: Missing in .env -> COINGLASS_API_KEY" ++ rest)),
       {| s_env := env'; s_world := s_world s |}).
Proof.
  intros Hex env' Hkey. unfold Script.main.
  rewrite (load_env_run _ (s_env s) Hex). cbv zeta. fold env'.
  assert (Hmiss : exists l, missing_in env' = "COINGLASS_API_KEY" :: l).
  { unfold missing_in, REQUIRED. rewrite filter_cons_True by assumption. eauto. }
  destruct Hmiss as [l ->].
  destruct (join_head ", " "COINGLASS_API_KEY" l) as [rest ->].
  exists rest.
  change "ERROR: Missing in .env -> COINGLASS_API_KEY"
    with ("ERROR: Missing in .env -> " ++ "COINGLASS_API_KEY").
  now rewrite str_app_assoc.
Qed.
End ScriptFacts.

(** * The theorems at work *)

(** ** normalize *)

Lemma normalize_three_rows :
  @normalize table_runtime three_rows = Ok [rec_0101_late; rec_0102].
Proof. vm_compute. reflexivity. Qed.

Lemma normalize_sorted_unique_example :
  @normalize table_runtime three_rows = Ok [rec_0101_late; rec_0102]
  /\ StronglySorted date_lt [rec_0101_late; rec_0102]
  /\ StronglySorted day_lt [rec_0101_late; rec_0102]
  /\ NoDup (map rec_date [rec_0101_late; rec_0102]).
Proof.
  split; [exact normalize_three_rows|].
  exact (proj2 (@normalize_sorted_unique table_runtime three_rows) _ normalize_three_rows).
Defined.

Lemma normalize_last_row_wins_example :
  @normalize table_runtime three_rows = Ok [rec_0101_late; rec_0102]
  /\ three_rows !! 2%nat = Some (plain_row 1609459260000 f2)
  /\ (forall r, r ∈ [rec_0101_late; rec_0102] /\ rec_date r = "2021-01-01"
                <-> r = rec_0101_late).
Proof.
  split; [exact normalize_three_rows|]. split; [reflexivity|].
  apply (@normalize_last_row_wins table_runtime three_rows _ 2%nat
           (plain_row 1609459260000 f2) rec_0101_late normalize_three_rows).
  - reflexivity.
  - vm_compute. reflexivity.
  - intros k row' r' Hk Hrow'. apply lookup_lt_Some in Hrow'. simpl in Hrow'. lia.
Defined.

Lemma normalize_record_fields_example :
  @normalize table_runtime three_rows = Ok [rec_0101_late; rec_0102]
  /\ (forall row, row ∈ three_rows ->
        exists r, @row_to_record table_runtime row = Ok r
                  /\ @record_of_row table_runtime row r)
  /\ (forall r, r ∈ [rec_0101_late; rec_0102] ->
        exists row, row ∈ three_rows /\ @row_to_record table_runtime row = Ok r
                    /\ @record_of_row table_runtime row r).
Proof.
  split; [exact normalize_three_rows|].
  exact (@normalize_record_fields table_runtime three_rows _ normalize_three_rows).
Defined.

(** The price 2^53 + 1 of the row comes out as 2^53. *)
Lemma price_is_converted :
  exists r,
    @row_to_record table_runtime big_price_row = Ok r
    /\ py_getitem big_price_row "price" = Ok (PInt big_price)
    /\ price r = float_of_Z (big_price - 1)
    /\ py_eq_float (price r) (PInt big_price) = false.
Proof. eexists. vm_compute. repeat split; reflexivity. Qed.

(** A row with a [null] price has a timestamp and a ratio that convert,
    and [normalize] raises on it. *)
Lemma null_price_raises :
  Forall (@timestamp_ratio_convertible table_runtime) [null_price_row]
  /\ @normalize table_runtime [null_price_row] = Raise TypeError.
Proof.
  split; [|vm_compute; reflexivity].
  repeat constructor. exists (PInt 1609459200000), (PFloat f1).
  repeat split; try reflexivity; eexists; reflexivity.
Qed.

(** ** main on a document with a [null] price *)

Lemma row_errors_propagate_example :
  (exists n',
     @main table_runtime plain_service false default_outfile "key" true
           (world_of null_price_document empty_book)
     = (Raise TypeError, {| w_net := n'; w_fs := ∅; w_book := empty_book |}))
  /\ ~ Forall (@row_convertible table_runtime) [null_price_row].
Proof.
  destruct (@row_errors_propagate table_runtime plain_service false default_outfile
              "key" true (world_of null_price_document empty_book)
              null_price_document (PList [null_price_row]) [null_price_row]
              (count_request (default_get "key") (net_of null_price_document))
              eq_refl eq_refl eq_refl) as [Hiff Hraise].
  split.
  - destruct (Hraise TypeError eq_refl) as (_ & _ & _ & Hmain). eexists. exact Hmain.
  - intros Hall. apply Hiff in Hall. destruct Hall as [out Hout]. discriminate Hout.
Defined.

(** ** The sinks *)

Lemma run_parts {S A : Type} (r : result A * S) (x : result A) (s : S) :
  r.1 = x -> r.2 = s -> r = (x, s).
Proof. destruct r. simpl. now intros -> ->. Qed.

Lemma two_records_finite : Forall ratio_finite [rec_0101; rec_0102].
Proof. repeat constructor. Qed.

Lemma normalize_nan_text : @normalize table_runtime [nan_text_row] = Ok [rec_nan].
Proof. vm_compute. reflexivity. Qed.

(** Two records into an empty sheet: the header and the two rows, and
    nothing else.  One record through the older client into a sheet in
    use: column C stays. *)
Lemma overwrite_empty_sheet_example :
  (exists g',
     write_cols_ab_overwrite ws_new [rec_0101; rec_0102] empty_book
     = (Ok tt, with_cells empty_book 7 empty_sheet g')
     /\ cell_at g' (0, 0)%nat = text_cell "Date"
     /\ cell_at g' (0, 1)%nat = text_cell "RHODL Ratio"
     /\ cell_at g' (1, 0)%nat = text_cell "2021-01-01"
     /\ cell_at g' (1, 1)%nat = number_cell f1
     /\ cell_at g' (2, 0)%nat = text_cell "2021-01-02"
     /\ cell_at g' (2, 1)%nat = number_cell f2
     /\ (forall r c, (2 < r \/ 2 <= c)%nat -> cell_at g' (r, c) = empty_cell))
  /\ (exists g',
        write_cols_ab_overwrite ws_old [rec_0102] used_book
        = (Ok tt, with_cells used_book 7 used_sheet g')
        /\ cell_at g' (1, 0)%nat = text_cell "2021-01-02"
        /\ cell_at g' (0, 2)%nat = text_cell "comment"
        /\ cell_at g' (1, 2)%nat = text_cell "checked").
Proof.
  split.
  - destruct (overwrite_replaces_cols_ab_only ws_new [rec_0101; rec_0102]
                empty_book empty_sheet eq_refl)
      as (g' & Hstate & Hframe & Hok & _).
    destruct (Hok two_records_finite) as (Hres & H00 & H01 & Hrec & Hbelow).
    exists g'. split; [exact (run_parts _ _ _ Hres Hstate)|].
    destruct (Hrec 0%nat rec_0101 eq_refl) as [H10 H11].
    destruct (Hrec 1%nat rec_0102 eq_refl) as [H20 H21].
    repeat split; try assumption.
    intros r c [Hr|Hc].
    + destruct (decide (c < 2)%nat) as [Hlt|Hge].
      * rewrite Hbelow by (simpl; lia). reflexivity.
      * rewrite Hframe by lia. reflexivity.
    + rewrite Hframe by lia. reflexivity.
  - destruct (overwrite_replaces_cols_ab_only ws_old [rec_0102] used_book used_sheet eq_refl)
      as (g' & Hstate & Hframe & Hok & _).
    destruct (Hok ltac:(repeat constructor)) as (Hres & _ & _ & Hrec & _).
    exists g'. split; [exact (run_parts _ _ _ Hres Hstate)|].
    destruct (Hrec 0%nat rec_0102 eq_refl) as [H10 _].
    split; [exact H10|]. split; apply Hframe; lia.
Defined.

(** A row whose ratio is the text [nan] passes [normalize] as a record
    with a NaN ratio.  Overwrite mode on that record and a sheet in use:
    the clearing is done, the write raises, and the sheet has neither
    the header nor the date it had. *)
Lemma nan_ratio_stops_overwrite :
  @normalize table_runtime [nan_text_row] = Ok [rec_nan]
  /\ exists g',
       write_cols_ab_overwrite ws_new [rec_nan] used_book
       = (Raise InvalidJSONError, with_cells used_book 7 used_sheet g')
       /\ userEnteredValue (cell_at g' (0, 0)%nat) = None
       /\ userEnteredValue (cell_at g' (0, 1)%nat) = None
       /\ userEnteredValue (cell_at g' (1, 0)%nat) = None
       /\ userEnteredValue (cell_at g' (1, 1)%nat) = None.
Proof.
  split; [exact normalize_nan_text|].
  exists (clear_values (a1_range_to_grid_range 7 A_B) used_cells).
  split; [|repeat split; vm_compute; reflexivity].
  rewrite (write_cols_ab_overwrite_run ws_new [rec_nan] used_book used_sheet eq_refl).
  reflexivity.
Qed.

(** The sheet lists 2021-01-01; of the two records only 2021-01-02 is
    appended, in the row after the last one in use, and 1 is returned. *)
Lemma append_missing_date_example :
  exists g',
    @append_only_cols_ab plain_service ws_new [rec_0101; rec_0102] used_book
    = (Ok 1%nat, with_cells used_book 7 used_sheet g')
    /\ cell_at g' (2, 0)%nat = text_cell "2021-01-02"
    /\ cell_at g' (2, 1)%nat = number_cell f2
    /\ cell_at g' (1, 0)%nat = text_cell "2021-01-01"
    /\ cell_at g' (1, 2)%nat = text_cell "checked".
Proof.
  destruct (@append_adds_missing_dates plain_service ws_new [rec_0101; rec_0102]
              used_book used_sheet eq_refl)
    as (g0 & g' & n & Hstate & Hg0 & Hfree & Hlast & Hok & _).
  cbv zeta in *.
  assert (He : @column_values plain_service 0 (sheet_cells used_sheet)
               = ["Date"; "2021-01-01"]) by (vm_compute; reflexivity).
  rewrite He in *.
  assert (Hf : filter (fun r => rec_date r ∉ present_dates ["Date"; "2021-01-01"])
                      [rec_0101; rec_0102] = [rec_0102]) by (vm_compute; reflexivity).
  rewrite Hf in *. clear He Hf.
  destruct (Hok ltac:(repeat constructor)) as (Hres & Hnew & Hframe).
  assert (Hn : n = 2%nat).
  { assert (2 <= n)%nat.
    { destruct (decide (n <= 1)%nat) as [Hle|]; [|lia].
      pose proof (Hfree 1%nat 0%nat Hle) as Hnone. rewrite Hg0 in Hnone. discriminate. }
    destruct Hlast as [->|[c Hc]]; [lia|].
    rewrite Hg0 in Hc. apply rows_used_above in Hc.
    change (rows_used (sheet_cells used_sheet)) with 2%nat in Hc. lia. }
  subst n. exists g'. split; [exact (run_parts _ _ _ Hres Hstate)|].
  destruct (Hnew 0%nat rec_0102 eq_refl) as [H20 H21]. simpl in H20, H21.
  rewrite Hg0 in H20, H21.
  split; [exact H20|]. split; [exact H21|].
  split; (rewrite Hframe by (simpl; lia); now rewrite Hg0).
Defined.

(** Append mode on the record with the NaN ratio and an empty sheet:
    the date is not in the sheet, the header is written, the append
    raises; no row is added and no count is returned. *)
Lemma nan_ratio_stops_append :
  @normalize table_runtime [nan_text_row] = Ok [rec_nan]
  /\ (rec_date rec_nan
      ∉ present_dates (@column_values plain_service 0 (sheet_cells empty_sheet)))
  /\ exists g',
       @append_only_cols_ab plain_service ws_new [rec_nan] empty_book
       = (Raise InvalidJSONError, with_cells empty_book 7 empty_sheet g')
       /\ cell_at g' (0, 0)%nat = text_cell "Date"
       /\ cell_at g' (0, 1)%nat = text_cell "RHODL Ratio"
       /\ forall r c, (1 <= r)%nat -> cell_at g' (r, c) = empty_cell.
Proof.
  split; [exact normalize_nan_text|]. split; [vm_compute; set_solver|].
  exists (write_rows 0 0 [HEADER] ∅).
  split; [|split; [|split]].
  - rewrite (@append_only_cols_ab_run plain_service ws_new [rec_nan] empty_book
               empty_sheet eq_refl).
    reflexivity.
  - reflexivity.
  - reflexivity.
  - intros r c Hr. rewrite cell_at_header. unfold header_cell.
    rewrite !decide_False by (intros [= -> _]; lia). reflexivity.
Qed.


(** ** The local file *)

Lemma run_pair {S A : Type} (r : result A * S) (a : A) : r.1 = Ok a -> r = (Ok a, r.2).
Proof. destruct r as [x s]. simpl. now intros ->. Qed.

Lemma save_two_records :
  @save_json table_runtime default_outfile [rec_0101; rec_json_nan] ∅
  = (Ok tt, (@save_json table_runtime default_outfile [rec_0101; rec_json_nan] ∅).2).
Proof. apply run_pair. vm_compute. exact eq_refl. Qed.

(** A record with a finite ratio and one whose ratio is the NaN object
    of [json]: the list read back equals the list saved. *)
Lemma save_then_load_example :
  exists (text : string) (loaded : pyval),
    read_text default_outfile
      (@save_json table_runtime default_outfile [rec_0101; rec_json_nan] ∅).2
    = (Ok text, (@save_json table_runtime default_outfile [rec_0101; rec_json_nan] ∅).2)
    /\ @json_loads table_runtime text = Ok loaded
    /\ loaded = PList (map record_to_py (map loaded_record [rec_0101; rec_json_nan]))
    /\ (py_eq loaded (PList (map record_to_py [rec_0101; rec_json_nan])) = true
        <-> Forall nans_from_json [rec_0101; rec_json_nan]).
Proof.
  apply (@save_then_load table_runtime default_outfile [rec_0101; rec_json_nan] ∅).
  - repeat constructor.
  - exact save_two_records.
Defined.

(** A row whose ratio is the text [nan] passes [normalize] as a record
    with a NaN object of its own.  The NaN is written as [NaN] and read
    back as the NaN object of [json], another object: the list read
    back does not equal the list saved. *)
Lemma nan_breaks_round_trip :
  @normalize table_runtime [nan_text_row] = Ok [rec_nan]
  /\ (@save_json table_runtime default_outfile [rec_nan] ∅).1 = Ok tt
  /\ read_text default_outfile (@save_json table_runtime default_outfile [rec_nan] ∅).2
     = (Ok (@json_dumps table_runtime (PList (map record_to_py [rec_nan]))),
        (@save_json table_runtime default_outfile [rec_nan] ∅).2)
  /\ @json_loads table_runtime
       (@json_dumps table_runtime (PList (map record_to_py [rec_nan])))
     = Ok (PList (map record_to_py [loaded_record rec_nan]))
  /\ py_eq (PList (map record_to_py [loaded_record rec_nan]))
           (PList (map record_to_py [rec_nan]))
     = false.
Proof.
  split; [exact normalize_nan_text|].
  split; [vm_compute; exact eq_refl|]. split.
  - apply (@save_json_writes table_runtime _ _ ∅). apply run_pair. vm_compute. exact eq_refl.
  - split; vm_compute; exact eq_refl.
Qed.

(** * The further properties at work *)

(** ** normalize *)

Lemma two_rows_records :
  @rows_to_records table_runtime two_rows_swapped = Ok [rec_0102; rec_0101].
Proof. vm_compute. reflexivity. Qed.

Lemma two_rows_sorted_records :
  @rows_to_records table_runtime two_rows = Ok [rec_0101; rec_0102].
Proof. vm_compute. reflexivity. Qed.

(** Three rows on two days: two records, one for each day. *)
Lemma normalize_keeps_every_date_example :
  (length [rec_0101_late; rec_0102] <= length three_rows)%nat
  /\ forall row r, row ∈ three_rows -> @row_to_record table_runtime row = Ok r ->
       exists r', r' ∈ [rec_0101_late; rec_0102]
                  /\ rec_date r' = rec_date r /\ utc_day r' = utc_day r.
Proof.
  exact (@normalize_keeps_every_date table_runtime three_rows _ normalize_three_rows).
Defined.

(** The two days in either order give the same list. *)
Lemma normalize_order_irrelevant_example :
  @normalize table_runtime two_rows = @normalize table_runtime two_rows_swapped
  /\ @normalize table_runtime two_rows = Ok [rec_0101; rec_0102].
Proof.
  split; [|vm_compute; reflexivity].
  apply (@normalize_order_irrelevant table_runtime two_rows_swapped two_rows
           [rec_0102; rec_0101] two_rows_records).
  - apply NoDup_cons. split; [|apply NoDup_singleton].
    intros Hin%list_elem_of_singleton. discriminate.
  - apply perm_swap.
Defined.

Lemma normalize_sorted_rows_unchanged_example :
  @normalize table_runtime two_rows = Ok [rec_0101; rec_0102]
  /\ StronglySorted date_lt [rec_0101; rec_0102].
Proof.
  assert (Hs : StronglySorted date_lt [rec_0101; rec_0102]).
  { repeat constructor. }
  split; [|exact Hs].
  exact (@normalize_sorted_rows_unchanged table_runtime two_rows _
           two_rows_sorted_records Hs).
Defined.

(** ** fetch_rhodl_json *)

(** A bound of five, a timeout of ten: one failure, then the document. *)
Lemma fetch_returns_first_document_example :
  (fetch_rhodl_json "key" 5 10 (flaky_net 1 PNone)).1 = Ok PNone
  /\ sent (fetch_rhodl_json "key" 5 10 (flaky_net 1 PNone)).2 = 2%nat
  /\ trace (fetch_rhodl_json "key" 5 10 (flaky_net 1 PNone)).2
     = [get_event "key" 10; EvSleep (backoff 1); get_event "key" 10].
Proof.
  apply (fetch_returns_first_document "key" 5 10 1 (flaky_net 1 PNone) PNone).
  - intros i Hi. assert (i = 0%nat) as -> by lia. discriminate.
  - reflexivity.
  - lia.
Defined.

(** A bound of two: two failures, one pause, the exit. *)
Lemma fetch_gives_up_at_the_bound_example :
  (fetch_rhodl_json "key" 2 10 dead_net).1
  = Raise (SystemExit ("ERROR: API request failed after " ++ int_repr 2
                       ++ " attempts: " ++ "down"))
  /\ sent (fetch_rhodl_json "key" 2 10 dead_net).2 = 2%nat
  /\ trace (fetch_rhodl_json "key" 2 10 dead_net).2
     = [get_event "key" 10; EvSleep (backoff 1); get_event "key" 10].
Proof.
  apply (fetch_gives_up_at_the_bound "key" 2 10 dead_net "down").
  - lia.
  - intros i Hi. discriminate.
  - reflexivity.
Defined.

Lemma fetch_without_attempts_example :
  fetch_rhodl_json "key" 0 10 dead_net
  = (Raise (SystemExit ("ERROR: API request failed after " ++ int_repr 0
                        ++ " attempts: None")), dead_net).
Proof. apply fetch_without_attempts. lia. Defined.

(** ** save_json *)

Lemma tree_empty : tree ∅.
Proof. intros p [x Hx]. rewrite lookup_empty in Hx. discriminate. Qed.

Lemma save_one_record :
  @save_json table_runtime default_outfile [rec_0101] ∅
  = (Ok tt, (@save_json table_runtime default_outfile [rec_0101] ∅).2).
Proof. apply run_pair. vm_compute. exact eq_refl. Qed.

(** Into an empty file system: the file, and the directory for it. *)
Lemma save_json_layout_example :
  (@save_json table_runtime default_outfile [rec_0101] ∅).2 !! default_outfile
  = Some (File (@json_dumps table_runtime (PList (map record_to_py [rec_0101]))))
  /\ (forall q, ancestor q default_outfile ->
        (@save_json table_runtime default_outfile [rec_0101] ∅).2 !! q = Some Dir)
  /\ (forall q, q <> default_outfile -> ~ ancestor q default_outfile ->
        (@save_json table_runtime default_outfile [rec_0101] ∅).2 !! q
        = (∅ : filesystem) !! q)
  /\ (forall q, ancestor q default_outfile -> is_Some ((∅ : filesystem) !! q) ->
        (∅ : filesystem) !! q = Some Dir).
Proof.
  exact (@save_json_layout table_runtime default_outfile [rec_0101] ∅ _ save_one_record).
Defined.

(** A file where the directory should be: an [OSError], and nothing has
    changed. *)
Lemma save_json_fails_cleanly_example :
  @save_json table_runtime default_outfile [rec_0101] blocked_fs
  = (Raise (OSError "A file is in the way"), blocked_fs)
  /\ (blocked_fs = blocked_fs /\ (exists msg, OSError "A file is in the way" = OSError msg)
      /\ (blocked_fs !! default_outfile = Some Dir
          \/ exists q text, ancestor q default_outfile
                            /\ blocked_fs !! q = Some (File text))).
Proof.
  assert (Hrun : @save_json table_runtime default_outfile [rec_0101] blocked_fs
                 = (Raise (OSError "A file is in the way"), blocked_fs))
    by (vm_compute; exact eq_refl).
  split; [exact Hrun|].
  apply (proj2 (@save_json_fails_cleanly table_runtime default_outfile [rec_0101]
                  blocked_fs ltac:(
                    intros p Hp q (k & Hk & ->);
                    destruct (decide (p = ["json_data"])) as [->|Hne];
                    [simpl in Hk; lia
                    |unfold blocked_fs in Hp; rewrite lookup_singleton_ne in Hp by congruence;
                     now destruct Hp]))
          _ _ Hrun).
Defined.

Lemma save_json_last_write_wins_example :
  @save_json table_runtime default_outfile [rec_0102]
    (@save_json table_runtime default_outfile [rec_0101] ∅).2
  = @save_json table_runtime default_outfile [rec_0102] ∅
  /\ exists fs2, @save_json table_runtime default_outfile [rec_0102] ∅ = (Ok tt, fs2).
Proof.
  exact (@save_json_last_write_wins table_runtime default_outfile [rec_0101] [rec_0102]
           ∅ _ save_one_record).
Defined.

Lemma save_json_keeps_tree_example :
  tree (∅ : filesystem)
  /\ tree (@save_json table_runtime default_outfile [rec_0101] ∅).2.
Proof.
  split; [exact tree_empty|].
  exact (@save_json_keeps_tree table_runtime default_outfile [rec_0101] ∅ _
           tree_empty save_one_record).
Defined.

(** ** The sinks *)


Lemma two_dates_not_empty : Forall (fun r => rec_date r <> "") [rec_0101; rec_0102].
Proof. repeat constructor; discriminate. Qed.



Lemma append_used_book :
  @append_only_cols_ab plain_service ws_new [rec_0101; rec_0102] used_book
  = (Ok 1%nat,
     (@append_only_cols_ab plain_service ws_new [rec_0101; rec_0102] used_book).2).
Proof. apply run_pair. vm_compute. exact eq_refl. Qed.

(** One date was there, one is appended: both are listed. *)
Lemma append_lists_every_date_example :
  (1 <= length [rec_0101; rec_0102])%nat
  /\ (exists sh1,
        (@append_only_cols_ab plain_service ws_new [rec_0101; rec_0102] used_book).2
          !! ws_id ws_new = Some sh1
        /\ @column_values plain_service 0 (sheet_cells sh1) <> [])
  /\ forall r, r ∈ [rec_0101; rec_0102] ->
       @lists_date plain_service
         (@append_only_cols_ab plain_service ws_new [rec_0101; rec_0102] used_book).2
         ws_new (rec_date r).
Proof.
  exact (@append_lists_every_date plain_service ws_new [rec_0101; rec_0102] used_book _ _
           two_dates_not_empty append_used_book).
Defined.

Lemma valueless_empty : valueless (sheet_cells empty_sheet).
Proof. intros rc. reflexivity. Qed.

Lemma append_into_empty_sheet_example :
  write_cols_ab_overwrite ws_new [rec_0101; rec_0102] empty_book
  = (Ok tt, (write_cols_ab_overwrite ws_new [rec_0101; rec_0102] empty_book).2)
  /\ @append_only_cols_ab plain_service ws_new [rec_0101; rec_0102] empty_book
     = (Ok (length [rec_0101; rec_0102]),
        (write_cols_ab_overwrite ws_new [rec_0101; rec_0102] empty_book).2).
Proof.
  exact (@append_into_empty_sheet_is_overwrite plain_service ws_new [rec_0101; rec_0102]
           empty_book empty_sheet eq_refl valueless_empty two_records_finite).
Defined.

(** ** open_target_worksheet *)

Lemma open_in_empty_spreadsheet :
  open_target_worksheet true ∅
  = (Ok {| ws_id := 1; ws_has_batch_clear := true |}, (open_target_worksheet true ∅).2).
Proof. apply run_pair. vm_compute. exact eq_refl. Qed.

(** A spreadsheet without sheets: sheet 1 is made, and found again. *)
Lemma open_target_worksheet_again_example :
  open_target_worksheet true (open_target_worksheet true ∅).2
  = (Ok {| ws_id := 1; ws_has_batch_clear := true |}, (open_target_worksheet true ∅).2)
  /\ exists sh1,
       (open_target_worksheet true ∅).2 !! 1 = Some sh1
       /\ sheet_title sh1 = WORKSHEET_TITLE.
Proof.
  exact (open_target_worksheet_again true ∅ _ _ open_in_empty_spreadsheet).
Defined.

(** ** main *)

(** The endpoint is down: three requests, then the exit. *)
Lemma main_gives_up_without_writing_example :
  exists n',
    @main table_runtime plain_service false default_outfile "key" true
      {| w_net := dead_net; w_fs := ∅; w_book := empty_book |}
    = (Raise (SystemExit ("ERROR: API request failed after 3 attempts: " ++ "down")),
       {| w_net := n'; w_fs := ∅; w_book := empty_book |})
    /\ sent n' = 3%nat.
Proof.
  apply (@main_gives_up_without_writing table_runtime plain_service false default_outfile
           "key" true {| w_net := dead_net; w_fs := ∅; w_book := empty_book |} "down").
  - intros i Hi. discriminate.
  - reflexivity.
Defined.

(** The endpoint answers with a list instead of a dict. *)
Lemma main_rejects_bad_shape_example :
  exists msg,
    @main table_runtime plain_service false default_outfile "key" true
      (world_of (PList []) empty_book)
    = (Raise (SystemExit ("Unexpected API response shape: " ++ msg)),
       {| w_net := count_request (default_get "key") (net_of (PList []));
          w_fs := ∅; w_book := empty_book |}).
Proof.
  apply (@main_rejects_bad_shape table_runtime plain_service false default_outfile "key"
           true (world_of (PList []) empty_book) (PList [])).
  - reflexivity.
  - intros data. discriminate.
Defined.

Lemma normalize_two_rows :
  @normalize table_runtime two_rows = Ok [rec_0101; rec_0102].
Proof. vm_compute. reflexivity. Qed.

(** The output directory is a file: [main] stops there. *)
Lemma main_save_failure_example :
  @main table_runtime plain_service false default_outfile "key" true
    {| w_net := net_of two_rows_document; w_fs := blocked_fs; w_book := empty_book |}
  = (Raise (OSError "A file is in the way"),
     {| w_net := count_request (default_get "key") (net_of two_rows_document);
        w_fs := blocked_fs; w_book := empty_book |})
  /\ (exists msg, OSError "A file is in the way" = OSError msg)
  /\ (tree blocked_fs -> blocked_fs = blocked_fs).
Proof.
  apply (@main_save_failure_leaves_sheet table_runtime plain_service false default_outfile
           "key" true
           {| w_net := net_of two_rows_document; w_fs := blocked_fs; w_book := empty_book |}
           two_rows_document (PList two_rows) two_rows [rec_0101; rec_0102]).
  - reflexivity.
  - reflexivity.
  - reflexivity.
  - exact normalize_two_rows.
  - vm_compute. exact eq_refl.
Defined.

Lemma main_overwrite_runs :
  @main table_runtime plain_service false default_outfile "key" true
    (world_of two_rows_document ∅)
  = (Ok tt,
     (@main table_runtime plain_service false default_outfile "key" true
        (world_of two_rows_document ∅)).2).
Proof. apply run_pair. vm_compute. exact eq_refl. Qed.

(** A first run in overwrite mode, into a spreadsheet without sheets. *)
Lemma main_overwrite_result_example :
  w_fs (@main table_runtime plain_service false default_outfile "key" true
          (world_of two_rows_document ∅)).2 !! default_outfile
  = Some (File (@records_json table_runtime [rec_0101; rec_0102]))
  /\ exists id sh,
       w_book (@main table_runtime plain_service false default_outfile "key" true
                 (world_of two_rows_document ∅)).2 !! id = Some sh
       /\ sheet_title sh = WORKSHEET_TITLE
       /\ userEnteredValue (cell_at (sheet_cells sh) (0, 0)%nat) = Some (StringValue "Date")
       /\ userEnteredValue (cell_at (sheet_cells sh) (0, 1)%nat)
          = Some (StringValue "RHODL Ratio")
       /\ (forall i r, [rec_0101; rec_0102] !! i = Some r ->
             userEnteredValue (cell_at (sheet_cells sh) (S i, 0)%nat)
             = Some (StringValue (rec_date r))
             /\ userEnteredValue (cell_at (sheet_cells sh) (S i, 1)%nat)
                = Some (NumberValue (rhodl_ratio r)))
       /\ (forall r c, (length [rec_0101; rec_0102] < r)%nat -> (c < 2)%nat ->
             userEnteredValue (cell_at (sheet_cells sh) (r, c)) = None).
Proof.
  apply (@main_overwrite_result table_runtime plain_service default_outfile "key" true
           (world_of two_rows_document ∅) _ two_rows_document (PList two_rows) two_rows
           [rec_0101; rec_0102]
           (count_request (default_get "key") (net_of two_rows_document))).
  - reflexivity.
  - reflexivity.
  - reflexivity.
  - exact normalize_two_rows.
  - exact main_overwrite_runs.
Defined.

Lemma main_append_runs :
  @main table_runtime plain_service true default_outfile "key" true
    (world_of two_rows_document used_book)
  = (Ok tt,
     (@main table_runtime plain_service true default_outfile "key" true
        (world_of two_rows_document used_book)).2).
Proof. apply run_pair. vm_compute. exact eq_refl. Qed.

Lemma unique_titles_used_book : unique_titles used_book.
Proof.
  intros id1 id2 sh1 sh2 H1 H2 _. unfold used_book in *.
  apply lookup_singleton_Some in H1 as [<- _].
  now apply lookup_singleton_Some in H2 as [<- _].
Qed.

(** A second run in append mode against the same document. *)
Lemma main_rerun_example :
  exists n2,
    @main table_runtime plain_service true default_outfile "key" true
      (@main table_runtime plain_service true default_outfile "key" true
         (world_of two_rows_document used_book)).2
    = (Ok tt,
       {| w_net := n2;
          w_fs := w_fs (@main table_runtime plain_service true default_outfile "key" true
                          (world_of two_rows_document used_book)).2;
          w_book := w_book (@main table_runtime plain_service true default_outfile "key"
                              true (world_of two_rows_document used_book)).2 |})
    /\ sent n2 = 2%nat.
Proof.
  apply (@main_rerun_changes_nothing table_runtime plain_service true default_outfile "key"
           true (world_of two_rows_document used_book) _ two_rows_document
           (PList two_rows) two_rows [rec_0101; rec_0102]).
  - reflexivity.
  - reflexivity.
  - reflexivity.
  - reflexivity.
  - exact normalize_two_rows.
  - exact unique_titles_used_book.
  - exact main_append_runs.
Defined.

(** A first run in append mode: the date that was there and the new one. *)
Lemma main_append_result_example :
  w_fs (@main table_runtime plain_service true default_outfile "key" true
          (world_of two_rows_document used_book)).2 !! default_outfile
  = Some (File (@records_json table_runtime [rec_0101; rec_0102]))
  /\ exists id sh,
       w_book (@main table_runtime plain_service true default_outfile "key" true
                 (world_of two_rows_document used_book)).2 !! id = Some sh
       /\ sheet_title sh = WORKSHEET_TITLE
       /\ @column_values plain_service 0 (sheet_cells sh) <> []
       /\ forall r, r ∈ [rec_0101; rec_0102] ->
            rec_date r ∈ present_dates (@column_values plain_service 0 (sheet_cells sh)).
Proof.
  apply (@main_append_result table_runtime plain_service default_outfile "key" true
           (world_of two_rows_document used_book) _ two_rows_document (PList two_rows)
           two_rows [rec_0101; rec_0102]
           (count_request (default_get "key") (net_of two_rows_document))).
  - reflexivity.
  - reflexivity.
  - reflexivity.
  - exact normalize_two_rows.
  - exact main_append_runs.
Defined.

(** ** load_env *)

Lemma dotenv_in_place (text : string) :
  is_Some (project_fs text !! @DOTENV_PATH demo_layout).
Proof. eexists. vm_compute. reflexivity. Qed.

(** The file binds the sheet id only: key and service account are
    reported, in this order. *)
Lemma load_env_reports_missing_example :
  @load_env demo_layout demo_dotenv (project_fs partial_dotenv) ∅
  = (Raise (SystemExit "ERROR: Missing in .env -> COINGLASS_API_KEY, GOOGLE_SERVICE_ACCOUNT"),
     {[ "GOOGLE_SHEET_ID" := "sheet-1" ]})
  /\ @missing_in (@loaded_env demo_dotenv (@DOTENV_PATH demo_layout)
                    (project_fs partial_dotenv) ∅)
     = ["COINGLASS_API_KEY"; "GOOGLE_SERVICE_ACCOUNT"].
Proof.
  assert (Hmiss : @missing_in (@loaded_env demo_dotenv (@DOTENV_PATH demo_layout)
                                 (project_fs partial_dotenv) ∅)
                  = ["COINGLASS_API_KEY"; "GOOGLE_SERVICE_ACCOUNT"])
    by (vm_compute; reflexivity).
  split; [|exact Hmiss].
  destruct (@load_env_reports_missing demo_layout demo_dotenv (project_fs partial_dotenv) ∅
              (dotenv_in_place partial_dotenv)) as (Hrun & _ & _).
  rewrite Hrun by (rewrite Hmiss; discriminate).
  vm_compute. reflexivity.
Defined.

(** The key of the process environment wins over the key of the file;
    the relative name of the key file is taken from the project root. *)
Lemma load_env_config_example :
  @load_env demo_layout demo_dotenv (project_fs full_dotenv) keyed_env
  = (Ok {| cfg_api_key := "key-of-process"; cfg_sheet_id := "sheet-1";
           cfg_sa_file := "/srv/btc/service_account.json" |},
     (@load_env demo_layout demo_dotenv (project_fs full_dotenv) keyed_env).2)
  /\ (forall v, keyed_env !! "COINGLASS_API_KEY" = Some v -> "key-of-process" = v).
Proof.
  assert (Hrun : @load_env demo_layout demo_dotenv (project_fs full_dotenv) keyed_env
                 = (Ok {| cfg_api_key := "key-of-process"; cfg_sheet_id := "sheet-1";
                          cfg_sa_file := "/srv/btc/service_account.json" |},
                    (@load_env demo_layout demo_dotenv (project_fs full_dotenv) keyed_env).2))
    by (apply run_pair; vm_compute; exact eq_refl).
  split; [exact Hrun|].
  exact (proj1 (proj2 (proj2 (proj2 (proj2 (proj2
           (@load_env_config demo_layout demo_dotenv (project_fs full_dotenv) keyed_env _ _
              Hrun))))))).
Defined.

(** No API key anywhere: the script stops before the first request. *)
Lemma missing_api_key_stops_main_example :
  exists rest,
    @Script.main table_runtime plain_service demo_layout demo_dotenv false default_outfile
      true {| s_env := ∅;
              s_world := {| w_net := net_of two_rows_document;
                            w_fs := project_fs partial_dotenv;
                            w_book := empty_book |} |}
    = (Raise (SystemExit ("ERROR: Missing in .env -> COINGLASS_API_KEY" ++ rest)),
       {| s_env := @loaded_env demo_dotenv (@DOTENV_PATH demo_layout)
                     (project_fs partial_dotenv) ∅;
          s_world := {| w_net := net_of two_rows_document;
                        w_fs := project_fs partial_dotenv;
                        w_book := empty_book |} |}).
Proof.
  apply (@missing_api_key_stops_main table_runtime plain_service demo_layout demo_dotenv
           false default_outfile true
           {| s_env := ∅;
              s_world := {| w_net := net_of two_rows_document;
                            w_fs := project_fs partial_dotenv;
                            w_book := empty_book |} |}).
  - exact (dotenv_in_place partial_dotenv).
  - vm_compute. reflexivity.
Defined.

(** Everything is set, but the key file is not there. *)
Lemma load_env_missing_key_file_example :
  @load_env demo_layout demo_dotenv keyless_fs ∅
  = (Raise (SystemExit ("ERROR: Service account JSON not found at "
                        ++ "/srv/btc/service_account.json")),
     @loaded_env demo_dotenv (@DOTENV_PATH demo_layout) keyless_fs ∅).
Proof.
  apply (@load_env_missing_key_file demo_layout demo_dotenv keyless_fs ∅
           "service_account.json").
  - eexists. vm_compute. reflexivity.
  - vm_compute. reflexivity.
  - vm_compute. reflexivity.
  - vm_compute. reflexivity.
Defined.
